(** * tsc-wrapped compiler hosts and the template code generator

    A shallow embedding of
      - [tools/@angular/tsc-wrapped/src/compiler_host.ts]
        ([TsickleHost], [DecoratorDownlevelCompilerHost], [MetadataWriterHost]),
      - the [CodeGenerator] of the template compiler ([calculateEmitPath],
        [codegen]),
      - [tools/@angular/tsc-wrapped/src/main.ts] (the host handed to tsickle
        and the command line),
      - [packages/platform-browser/animations/src/animation_renderer.ts] and
        [animation_builder.ts],
      - [openBrowser] of the end-to-end test helpers,
    together with the properties established about them.

    JavaScript strings are sequences of UTF-16 code units; they are modelled as
    lists of numbers, so that a regular expression without the [u] flag sees
    exactly the units the engine sees. *)

From Stdlib Require Import List Arith NArith Bool Ascii String Lia Permutation.
From Stdlib Require Import ZArith DecimalString DecimalNat.
Import ListNotations.

(* ================================================================== *)
(** * Part I: the embedding *)
(* ================================================================== *)

(** ** JavaScript strings *)

Module JsString.

Definition code_unit := N.
Definition jsstring := list code_unit.

(** The code unit of an ASCII character, and the string of a literal. *)
Definition ch (a : ascii) : code_unit := N_of_ascii a.
Definition lit (s : string) : jsstring := map N_of_ascii (list_ascii_of_string s).

Definition unit_eqb (a b : code_unit) : bool := N.eqb a b.

Fixpoint str_eqb (a b : jsstring) : bool :=
  match a, b with
  | [], [] => true
  | x :: a', y :: b' => unit_eqb x y && str_eqb a' b'
  | _, _ => false
  end.

Definition is_empty (s : jsstring) : bool :=
  match s with [] => true | _ :: _ => false end.

(** [s.startsWith(p)], returning what follows the prefix. *)
Fixpoint drop_prefix (p s : jsstring) : option jsstring :=
  match p with
  | [] => Some s
  | x :: p' =>
      match s with
      | [] => None
      | y :: s' => if unit_eqb x y then drop_prefix p' s' else None
      end
  end.

Definition starts_with (p s : jsstring) : bool :=
  match drop_prefix p s with Some _ => true | None => false end.

(** [s.substr(n)] for [0 <= n]. *)
Definition substr_from (n : nat) (s : jsstring) : jsstring := skipn n s.

(** A regular expression [LITERAL$] against [s]: the text before the literal
    when [s] ends with it. *)
Definition drop_suffix (p s : jsstring) : option jsstring :=
  match drop_prefix (rev p) (rev s) with
  | Some r => Some (rev r)
  | None => None
  end.

(** [s.replace(/LITERAL$/, '')]. *)
Definition remove_suffix (p s : jsstring) : jsstring :=
  match drop_suffix p s with Some r => r | None => s end.

(** [/LITERAL$/.test(s)]. *)
Definition ends_with (p s : jsstring) : bool :=
  match drop_suffix p s with Some _ => true | None => false end.

(** The longest prefix whose units satisfy [p], and the rest: a greedy
    [[class]*]. *)
Fixpoint span (p : code_unit -> bool) (s : jsstring) : jsstring * jsstring :=
  match s with
  | [] => ([], [])
  | c :: s' =>
      if p c then let (a, b) := span p s' in (c :: a, b) else ([], s)
  end.

(** [s.split(sep)] for a one-unit separator. *)
Fixpoint split_on (sep : code_unit) (s : jsstring) : list jsstring :=
  match s with
  | [] => [[]]
  | c :: s' =>
      if unit_eqb c sep then [] :: split_on sep s'
      else match split_on sep s' with
           | seg :: segs => (c :: seg) :: segs
           | [] => [[c]]
           end
  end.

(** [segs.join(sep)]. *)
Fixpoint join_with (sep : jsstring) (segs : list jsstring) : jsstring :=
  match segs with
  | [] => []
  | [seg] => seg
  | seg :: segs' => seg ++ sep ++ join_with sep segs'
  end.

(** [s.indexOf(pat)], as the text before the first occurrence and the text
    after it. *)
Fixpoint find_sub (pat s : jsstring) : option (jsstring * jsstring) :=
  match drop_prefix pat s with
  | Some rest => Some ([], rest)
  | None =>
      match s with
      | [] => None
      | c :: s' =>
          match find_sub pat s' with
          | Some (before, rest) => Some (c :: before, rest)
          | None => None
          end
      end
  end.

(** Character classes of the regular expressions in the sources. *)
Definition in_range (lo hi c : code_unit) : bool := N.leb lo c && N.leb c hi.

Definition is_alpha (c : code_unit) : bool :=
  in_range (ch "a") (ch "z") c || in_range (ch "A") (ch "Z") c.

Definition is_digit (c : code_unit) : bool := in_range (ch "0") (ch "9") c.

(** [[a-zA-Z_$]] *)
Definition is_ident_start (c : code_unit) : bool :=
  is_alpha c || unit_eqb c (ch "_") || unit_eqb c (ch "$").

(** [[a-zA-Z0-9._$]] *)
Definition is_ident_part (c : code_unit) : bool :=
  is_alpha c || is_digit c || unit_eqb c (ch ".") || unit_eqb c (ch "_")
  || unit_eqb c (ch "$").

(** The units [.] does not match: LF, CR, U+2028 and U+2029. *)
Definition is_line_terminator (c : code_unit) : bool :=
  unit_eqb c 10%N || unit_eqb c 13%N || unit_eqb c 8232%N
  || unit_eqb c 8233%N.

Definition not_slash (c : code_unit) : bool := negb (unit_eqb c (ch "/")).
Definition not_dot (c : code_unit) : bool := negb (unit_eqb c (ch ".")).
Definition any_but_newline (c : code_unit) : bool := negb (is_line_terminator c).

(** A whole-string match of [[A-Za-z_$][A-Za-z0-9._$]*]. *)
Definition matches_identifier (s : jsstring) : bool :=
  match s with
  | [] => false
  | c :: s' => is_ident_start c && forallb is_ident_part s'
  end.

End JsString.

Import JsString.

(** ** Node's [path] module, POSIX flavour

    The [path] module belongs to the Node.js runtime, not to the repository.
    It is modelled here after [lib/path.js]: [dirname] unit by unit,
    [normalize], [join], [resolve] and [relative] on the list of segments
    between separators, which is what [normalizeString] computes. *)

Module path.

Definition sep : jsstring := lit "/".

Definition is_dot (seg : jsstring) : bool := str_eqb seg (lit ".").
Definition is_dotdot (seg : jsstring) : bool := str_eqb seg (lit "..").

(** One segment of [normalizeString]; [res] is the stack of kept segments,
    last one first. *)
Definition normalize_step (allowAboveRoot : bool) (res : list jsstring)
  (seg : jsstring) : list jsstring :=
  if is_empty seg || is_dot seg then res
  else if is_dotdot seg then
    match res with
    | top :: res' =>
        if is_dotdot top then (if allowAboveRoot then seg :: res else res)
        else res'
    | [] => if allowAboveRoot then [seg] else []
    end
  else seg :: res.

Definition normalize_segments (allowAboveRoot : bool) (p : jsstring)
  : list jsstring :=
  rev (fold_left (normalize_step allowAboveRoot) (split_on (ch "/") p) []).

Definition normalizeString (p : jsstring) (allowAboveRoot : bool) : jsstring :=
  join_with sep (normalize_segments allowAboveRoot p).

Definition normalize (p : jsstring) : jsstring :=
  match p with
  | [] => lit "."
  | c0 :: _ =>
      let isAbsolute := unit_eqb c0 (ch "/") in
      let trailingSeparator := unit_eqb (last p 0%N) (ch "/") in
      let p1 := normalizeString p (negb isAbsolute) in
      let p2 := if is_empty p1 && negb isAbsolute then lit "." else p1 in
      let p3 := if negb (is_empty p2) && trailingSeparator then p2 ++ sep
                else p2 in
      if isAbsolute then sep ++ p3 else p3
  end.

(** [path.join(...args)]: the non-empty arguments joined by [/], normalized. *)
Definition join (args : list jsstring) : jsstring :=
  match filter (fun a => negb (is_empty a)) args with
  | [] => lit "."
  | parts => normalize (join_with sep parts)
  end.

(** [path.dirname(p)]. The loop runs from the last unit down to index 1:
    it skips trailing separators, then the last component, and cuts at the
    separator before it. *)
Definition dirname (p : jsstring) : jsstring :=
  match p with
  | [] => lit "."
  | c0 :: tl =>
      let hasRoot := unit_eqb c0 (ch "/") in
      let none := if hasRoot then lit "/" else lit "." in
      let (_, r1) := span (fun c => unit_eqb c (ch "/")) (rev tl) in
      let (_, r2) := span not_slash r1 in
      match r2 with
      | [] => none
      | _ :: r3 =>
          if hasRoot && is_empty r3 then lit "//" else c0 :: rev r3
      end
  end.

(** [path.resolve(p)] in a process whose working directory is [cwd] (an
    absolute path): the segments of the absolute, normalized result. *)
Definition resolve_segments (cwd p : jsstring) : list jsstring :=
  if starts_with sep p then normalize_segments false p
  else normalize_segments false (cwd ++ sep ++ p).

Definition resolve (cwd p : jsstring) : jsstring :=
  sep ++ join_with sep (resolve_segments cwd p).

(** The segments left once the common leading segments are dropped. *)
Fixpoint drop_common (a b : list jsstring) : list jsstring * list jsstring :=
  match a, b with
  | x :: a', y :: b' => if str_eqb x y then drop_common a' b' else (a, b)
  | _, _ => (a, b)
  end.

(** [path.relative(from, to)]: one [..] for each segment of [from] below the
    common ancestor, then the segments of [to] below it. *)
Definition relative (cwd from to : jsstring) : jsstring :=
  let (up, down) := drop_common (resolve_segments cwd from)
                                (resolve_segments cwd to) in
  join_with sep (map (fun _ => lit "..") up ++ down).

End path.

(** ** [pathToGoogModuleName] *)

(** The regular expressions of the two namers: a literal [HEAD], a first group
    [[^\/]+], a literal [TAIL] that starts with a slash, and a second group
    [.] starred.  At a given start the first group can only be
    the whole run of non-slash units: after a shorter one the next unit is not
    the slash [TAIL] asks for. The second group is greedy and stops at a line
    terminator. *)
Module DistPattern.

Record dist_match := {
  before : jsstring;   (* text before the match *)
  pkg : jsstring;      (* group 1 *)
  impt : jsstring;     (* group 2 *)
  after : jsstring     (* text after the match *)
}.

Definition match_here (head tail s : jsstring) : option dist_match :=
  match drop_prefix head s with
  | None => None
  | Some s1 =>
      let (g1, s2) := span not_slash s1 in
      if is_empty g1 then None
      else match drop_prefix tail s2 with
           | None => None
           | Some s3 =>
               let (g2, rest) := span any_but_newline s3 in
               Some {| before := []; pkg := g1; impt := g2; after := rest |}
           end
  end.

(** The leftmost match, as [RegExp.prototype.exec] finds it. *)
Fixpoint exec (head tail s : jsstring) : option dist_match :=
  match match_here head tail s with
  | Some m => Some m
  | None =>
      match s with
      | [] => None
      | c :: s' =>
          match exec head tail s' with
          | Some m => Some {| before := c :: before m; pkg := pkg m;
                              impt := impt m; after := after m |}
          | None => None
          end
      end
  end.

(** [importPath.replace(dist, (match, pkg, impt) => `@angular/${pkg}/${impt}`)]
    when [dist] matches. *)
Definition rewrite (m : dist_match) : jsstring :=
  before m ++ lit "@angular/" ++ pkg m ++ lit "/" ++ impt m ++ after m.

End DistPattern.

(** The last three replacements, shared by both namers. *)
Module GoogModule.

(** [.replace(/\//g, '.')] *)
Definition replace_slashes (s : jsstring) : jsstring :=
  map (fun c => if unit_eqb c (ch "/") then ch "." else c) s.

(** [.replace(/^[^a-zA-Z_$]/, '_')] *)
Definition replace_leading (s : jsstring) : jsstring :=
  match s with
  | [] => []
  | c :: s' => (if is_ident_start c then c else ch "_") :: s'
  end.

(** [.replace(/[^a-zA-Z0-9._$]/g, '_')] *)
Definition replace_unsupported (s : jsstring) : jsstring :=
  map (fun c => if is_ident_part c then c else ch "_") s.

Definition moduleName (importPath : jsstring) : jsstring :=
  replace_unsupported (replace_leading (replace_slashes importPath)).

(** [importPath[0] == '.'] *)
Definition first_is_dot (importPath : jsstring) : bool :=
  match importPath with
  | c :: _ => unit_eqb c (ch ".")
  | [] => false
  end.

End GoogModule.

Module TsickleHost.

(** [dist]: [dist\/packages-dist\/], group [[^\/]+], [\/esm\/], group of
    [.] starred. *)
Definition dist (s : jsstring) : option DistPattern.dist_match :=
  DistPattern.exec (lit "dist/packages-dist/") (lit "/esm/") s.

Definition pathToGoogModuleName (context importPath : jsstring) : jsstring :=
  let importPath := remove_suffix (lit ".js") importPath in
  let importPath :=
    if GoogModule.first_is_dot importPath
    then path.join [path.dirname context; importPath]
    else importPath in
  let importPath :=
    match dist importPath with
    | Some m => remove_suffix (lit "/index") (DistPattern.rewrite m)
    | None => importPath
    end in
  GoogModule.moduleName importPath.

End TsickleHost.

(** ** Completions and hosts *)

(** How a call ends: it returns a value or throws. *)
Inductive completion (A E : Type) : Type :=
| Normal (a : A)
| Throw (e : E).
Arguments Normal {A E} a.
Arguments Throw {A E} e.

(** A syntax tree of the front end.  Since TypeScript 2.1 a transformed tree
    points to the tree it was made from through [original]. *)
Inductive SourceFile : Type :=
| OriginalSource (fileName : jsstring)
| TransformedSource (fileName : jsstring) (original : SourceFile).

(** [/\.d\.ts$/.test(fileName)] *)
Definition is_dts (fileName : jsstring) : bool := ends_with (lit ".d.ts") fileName.

(** What [ts.createSourceFile(fileName, text, languageVersion, setParentNodes)]
    is asked to parse; [text] is [None] for [undefined]. *)
Record ParsedSource : Type := createSourceFile {
  parsed_fileName : jsstring;
  parsed_text : option jsstring;
  parsed_languageVersion : N;
  parsed_setParentNodes : bool
}.

Module DecoratorDownlevelCompilerHost.

(** [dist]: [dist\/packages-closure\/], group [[^\/]+], [\/], group of [.]
    starred. *)
Definition dist (s : jsstring) : option DistPattern.dist_match :=
  DistPattern.exec (lit "dist/packages-closure/") (lit "/") s.

Definition pathToGoogModuleName (context importPath : jsstring) : jsstring :=
  let importPath := remove_suffix (lit ".js") importPath in
  let importPath :=
    if GoogModule.first_is_dot importPath
    then path.join [path.dirname context; importPath]
    else importPath in
  let importPath :=
    match dist importPath with
    | Some m => remove_suffix (lit "/index") (DistPattern.rewrite m)
    | None => importPath
    end in
  GoogModule.moduleName importPath.

Definition newline : jsstring := [10%N].

Definition ANNOTATION_SUPPORT : jsstring :=
  newline ++ lit "interface DecoratorInvocation {" ++ newline
  ++ lit "  type: Function;" ++ newline
  ++ lit "  args?: any[];" ++ newline
  ++ lit "}" ++ newline.

Section GetSourceFile.

(** Diagnostics, thrown values and programs of the front end. *)
Variables Diagnostic Exn Program : Type.

(** The result of [tsickle.convertDecorators]. *)
Record Converted : Type := {
  output : jsstring;
  converted_diagnostics : option (list Diagnostic)
}.

(** [this.diagnostics] and the lines sent to [console.error]. *)
Record host_state : Type := {
  diagnostics : list Diagnostic;
  console_error : list (list jsstring)
}.

Variable delegate_readFile : jsstring -> option jsstring.
Variables this_program substituteProgram : Program.
Variable googleClosureOutput : bool.

(** [tsickle.convertDecorators(p.getTypeChecker(), p.getSourceFile(fileName))]:
    the annotation-to-literal rewrite, which returns or throws. *)
Variable convertDecorators : Program -> jsstring -> completion Converted Exn.

Definition getSourceFile (st : host_state) (fileName : jsstring)
  (languageVersion : N) : completion ParsedSource Exn * host_state :=
  let originalContent := delegate_readFile fileName in
  if is_dts fileName then
    (Normal (createSourceFile fileName originalContent languageVersion true), st)
  else
    (* the selected program is computed and left unused; the rewrite runs
       on [this.program] *)
    let program := if googleClosureOutput then substituteProgram
                   else this_program in
    match convertDecorators this_program fileName with
    | Normal converted =>
        let st1 :=
          match converted_diagnostics converted with
          | Some ds => {| diagnostics := diagnostics st ++ ds;
                          console_error := console_error st |}
          | None => st
          end in
        let newContent := output converted ++ ANNOTATION_SUPPORT in
        (Normal (createSourceFile fileName (Some newContent) languageVersion true),
         st1)
    | Throw e =>
        (Throw e,
         {| diagnostics := diagnostics st;
            console_error :=
              console_error st
              ++ [[lit "Cannot convertDecorators on file"; fileName]] |})
    end.

End GetSourceFile.

Arguments output {Diagnostic} c.
Arguments converted_diagnostics {Diagnostic} c.
Arguments diagnostics {Diagnostic} h.
Arguments console_error {Diagnostic} h.
Arguments getSourceFile {Diagnostic Exn Program} delegate_readFile this_program
  substituteProgram googleClosureOutput convertDecorators st fileName
  languageVersion.

End DecoratorDownlevelCompilerHost.

Module MetadataWriterHost.

(** [IGNORED_FILES]: [\.ngfactory\.js$|\.ngstyle\.js$] *)
Definition IGNORED_FILES (fileName : jsstring) : bool :=
  ends_with (lit ".ngfactory.js") fileName || ends_with (lit ".ngstyle.js") fileName.

(** The values [writeFile] throws itself, and those the collectors throw. *)
Inductive thrown (Exn : Type) : Type :=
| Error (message : jsstring)
| TypeError
| Raised (e : Exn).
Arguments Error {Exn} message.
Arguments TypeError {Exn}.
Arguments Raised {Exn} e.

Inductive collector : Type :=
| metadataCollector     (* new MetadataCollector({quotedNames: true}) *)
| metadataCollector1.   (* new MetadataCollector({version: 1}) *)

(** [while (collectableFile.original) collectableFile = collectableFile.original] *)
Fixpoint collectable (sourceFile : SourceFile) : SourceFile :=
  match sourceFile with
  | TransformedSource _ original => collectable original
  | OriginalSource _ => sourceFile
  end.

Section WriteFile.

Variables ModuleMetadata Exn Callback : Type.

(** [collector.getMetadata(sourceFile, strict)]: a document, [null], or an
    exception. *)
Variable getMetadata :
  collector -> SourceFile -> bool -> completion (option ModuleMetadata) Exn.
Variable JSON_stringify : list ModuleMetadata -> jsstring.

(** [!!this.ngOptions.strictMetadataEmit] *)
Variable strictMetadataEmit : bool.

(** What the host does to the outside. *)
Inductive event : Type :=
| DelegateWriteFile (fileName data : jsstring) (writeByteOrderMark : bool)
    (onError : option Callback) (sourceFiles : option (list SourceFile))
| GetMetadata (c : collector) (sourceFile : SourceFile) (strict : bool)
| WriteFileSync (path text : jsstring).

Definition non_null (ms : list (option ModuleMetadata)) : list ModuleMetadata :=
  flat_map (fun m => match m with Some d => [d] | None => [] end) ms.

(** [emitFilePath.replace(/\.js$/, '.metadata.json')] *)
Definition metadata_path (emitFilePath : jsstring) : jsstring :=
  match drop_suffix (lit ".js") emitFilePath with
  | Some stem => stem ++ lit ".metadata.json"
  | None => emitFilePath
  end.

(** [sourceFile] is [None] when [sourceFiles[0]] is [undefined]; reading
    [original] of it is a [TypeError]. *)
Definition writeMetadata (emitFilePath : jsstring)
  (sourceFile : option SourceFile) : list event * completion unit (thrown Exn) :=
  if ends_with (lit ".js") emitFilePath then
    let path := metadata_path emitFilePath in
    match sourceFile with
    | None => ([], Throw TypeError)
    | Some sf =>
        let collectableFile := collectable sf in
        let ev := [GetMetadata metadataCollector collectableFile strictMetadataEmit] in
        match getMetadata metadataCollector collectableFile strictMetadataEmit with
        | Throw e => (ev, Throw (Raised e))
        | Normal metadata =>
            let ev1 := ev ++ [GetMetadata metadataCollector1 collectableFile false] in
            match getMetadata metadataCollector1 collectableFile false with
            | Throw e => (ev1, Throw (Raised e))
            | Normal metadata1 =>
                let metadatas := non_null [metadata; metadata1] in
                match metadatas with
                | [] => (ev1, Normal tt)
                | _ :: _ =>
                    let metadataText := JSON_stringify metadatas in
                    (ev1 ++ [WriteFileSync path metadataText], Normal tt)
                end
            end
        end
    end
  else ([], Normal tt).

Definition writeFile (fileName data : jsstring) (writeByteOrderMark : bool)
  (onError : option Callback) (sourceFiles : option (list SourceFile))
  : list event * completion unit (thrown Exn) :=
  if is_dts fileName then
    ([DelegateWriteFile fileName data writeByteOrderMark onError sourceFiles],
     Normal tt)
  else if IGNORED_FILES fileName then ([], Normal tt)
  else
    match sourceFiles with
    | None =>
        ([], Throw (Error (lit "Metadata emit requires the sourceFiles are passed to WriteFileCallback. "
                           ++ lit "Update to TypeScript ^1.9.0-dev")))
    | Some sfs =>
        if Nat.ltb 1 (List.length sfs) then
          ([], Throw (Error (lit "Bundled emit with --out is not supported")))
        else writeMetadata fileName (hd_error sfs)
    end.

End WriteFile.

Arguments non_null {ModuleMetadata} ms.
Arguments writeMetadata {ModuleMetadata Exn Callback} getMetadata JSON_stringify
  strictMetadataEmit emitFilePath sourceFile.
Arguments writeFile {ModuleMetadata Exn Callback} getMetadata JSON_stringify
  strictMetadataEmit fileName data writeByteOrderMark onError sourceFiles.

Arguments DelegateWriteFile {Callback} fileName data writeByteOrderMark onError sourceFiles.
Arguments GetMetadata {Callback} c sourceFile strict.
Arguments WriteFileSync {Callback} path text.

(** The events that write a metadata sidecar, and those that forward to the
    inner host or run a collector. *)
Definition is_sidecar_write {Callback} (e : event Callback) : bool :=
  match e with WriteFileSync _ _ => true | _ => false end.
Definition is_delegate_write {Callback} (e : event Callback) : bool :=
  match e with DelegateWriteFile _ _ _ _ _ => true | _ => false end.
Definition is_collection {Callback} (e : event Callback) : bool :=
  match e with GetMetadata _ _ _ => true | _ => false end.

End MetadataWriterHost.

(** ** The code generator *)

Module CodeGenerator.

(** [GENERATED_FILES]: [\.ngfactory\.ts$|\.css\.ts$|\.css\.shim\.ts$] *)
Definition GENERATED_FILES (f : jsstring) : bool :=
  ends_with (lit ".ngfactory.ts") f || ends_with (lit ".css.ts") f
  || ends_with (lit ".css.shim.ts") f.

Definition newline : jsstring := [10%N].

Definition PREAMBLE : jsstring :=
  lit "/**" ++ newline
  ++ lit " * This file is generated by the Angular 2 template compiler." ++ newline
  ++ lit " * Do not edit." ++ newline
  ++ lit " */" ++ newline
  ++ lit " /* tslint:disable */" ++ newline
  ++ newline.

Record AngularCompilerOptions : Type := {
  basePath : jsstring;
  rootDirs : option (list jsstring);
  trace : bool;
  genDir : jsstring
}.

(** *** [calculateEmitPath] *)

(** [while (relativePath.startsWith('..' + path.sep)) relativePath = relativePath.substr(3)] *)
Fixpoint strip_parent_dirs (relativePath : jsstring) : jsstring :=
  match relativePath with
  | _ :: _ :: _ :: rest =>
      if starts_with (lit ".." ++ path.sep) relativePath
      then strip_parent_dirs rest
      else relativePath
  | _ => relativePath
  end.

Section EmitPath.

(** [process.cwd()], against which [path.relative] resolves its arguments. *)
Variable cwd : jsstring.
Variable options : AngularCompilerOptions.

(** [path.relative(eachRootDir, filePath).indexOf('.') !== 0] *)
Definition not_dot_relative (eachRootDir filePath : jsstring) : bool :=
  negb (starts_with (lit ".") (path.relative cwd eachRootDir filePath)).

(** The loop over [rootDirs || []]: the lines it sends to [console.log]
    and the root it ends with. *)
Definition choose_root (filePath : jsstring) : list jsstring * jsstring :=
  fold_left
    (fun (acc : list jsstring * jsstring) eachRootDir =>
       let (logged, root) := acc in
       let logged1 :=
         if trace options
         then logged ++ [lit "Check if " ++ filePath
                         ++ lit " is under rootDirs element " ++ eachRootDir]
         else logged in
       if not_dot_relative eachRootDir filePath
       then (logged1, eachRootDir)
       else (logged1, root))
    (match rootDirs options with Some dirs => dirs | None => [] end)
    ([], basePath options).

Definition calculateEmitPath (filePath : jsstring) : list jsstring * jsstring :=
  let (logged, root) := choose_root filePath in
  let relativePath := strip_parent_dirs (path.relative cwd root filePath) in
  (logged, path.join [genDir options; relativePath]).

End EmitPath.

(** *** The cast workaround of [codegen] *)

(** [errorRegex]: [CHAIN\.[^\.]+\.transform] at the start of [s], as the
    matched text.  The member can only be the whole run of units other than a
    dot, since a dot has to follow it. *)
Definition error_here (chain s : jsstring) : option jsstring :=
  match drop_prefix (chain ++ lit ".") s with
  | None => None
  | Some s1 =>
      let (member, s2) := span not_dot s1 in
      if is_empty member then None
      else if starts_with (lit ".transform") s2
           then Some (chain ++ lit "." ++ member ++ lit ".transform")
           else None
  end.

(** [source.match(errorRegex)] with the [g] flag: the matched texts from left
    to right, each search resuming where the last match ended; [skip] counts
    the units of the last match still to pass.  No match is [null] in the
    source and the empty list here. *)
Fixpoint match_all (chain : jsstring) (skip : nat) (s : jsstring) : list jsstring :=
  match s with
  | [] => []
  | _ :: s' =>
      match skip with
      | S k => match_all chain k s'
      | O =>
          match error_here chain s with
          | Some m => m :: match_all chain (List.length m - 1) s'
          | None => match_all chain 0 s'
          end
      end
  end.

(** The lazy group of [fixRegex] followed by its literal: the shortest run of
    units other than line terminators after which [literal] starts. *)
Fixpoint lazy_until (literal s : jsstring) : option jsstring :=
  if starts_with literal s then Some []
  else match s with
       | c :: s' =>
           if any_but_newline c
           then match lazy_until literal s' with
                | Some t => Some (c :: t)
                | None => None
                end
           else None
       | [] => None
       end.

(** [fixRegex.exec(source)]: the first group of the leftmost match of
    [<], a lazy group, [>CHAIN]. *)
Fixpoint cast_exec (chain s : jsstring) : option jsstring :=
  match s with
  | [] => None
  | c :: s' =>
      match (if unit_eqb c (ch "<") then lazy_until (lit ">" ++ chain) s'
             else None) with
      | Some t => Some t
      | None => cast_exec chain s'
      end
  end.

(** The replacement text of [String.prototype.replace] with a string pattern:
    [$$], [$&], [$`] and [$'] are expanded; a string pattern has no groups, so
    [$1] and the like stay as they are. *)
Fixpoint expand (matched before after replacement : jsstring) : jsstring :=
  match replacement with
  | [] => []
  | c :: r =>
      if unit_eqb c (ch "$") then
        match r with
        | d :: r' =>
            if unit_eqb d (ch "$") then ch "$" :: expand matched before after r'
            else if unit_eqb d (ch "&") then matched ++ expand matched before after r'
            else if unit_eqb d (ch "`") then before ++ expand matched before after r'
            else if unit_eqb d (ch "'") then after ++ expand matched before after r'
            else c :: expand matched before after r
        | [] => [c]
        end
      else c :: expand matched before after r
  end.

(** [source.replace(pattern, replacement)] for a string [pattern]: the first
    occurrence only. *)
Definition replace (source pattern replacement : jsstring) : jsstring :=
  match find_sub pattern source with
  | Some (before, after) =>
      before ++ expand pattern before after replacement ++ after
  | None => source
  end.

(** One of the two blocks: [chain] is [this.parent] with [skipped = 11], then
    [this.parent.parent] with [skipped = 18].  The replacement is built with
    the literal [>this.parent)] in both. *)
Definition fix_chain (chain : jsstring) (skipped : nat) (source : jsstring)
  : jsstring :=
  let errorMatches := match_all chain 0 source in
  match errorMatches with
  | [] => source
  | _ :: _ =>
      match cast_exec chain source with
      | Some fixMatch1 =>
          fold_left
            (fun source errorMatch =>
               replace source errorMatch
                 (lit "(<" ++ fixMatch1 ++ lit ">this.parent)"
                  ++ substr_from skipped errorMatch))
            errorMatches source
      | None => source
      end
  end.

Definition fix_source (source : jsstring) : jsstring :=
  fix_chain (lit "this.parent.parent") 18
    (fix_chain (lit "this.parent") 11 source).

(** *** [readFileMetadata] and [codegen] *)

(** A thrown [Error] object. *)
Record JsError : Type := {
  message : jsstring;
  stack : jsstring
}.

(** What is thrown, and what a promise is rejected with: an [Error] object,
    [null] or [undefined], or any other value, whose [stack] is
    [undefined]. *)
Inductive thrown_value : Type :=
| ErrorObject (e : JsError)
| Nullish
| OtherValue.

(** A promise once settled. *)
Inductive settled (A : Type) : Type :=
| Fulfilled (a : A)
| Rejected (reason : thrown_value).
Arguments Fulfilled {A} a.
Arguments Rejected {A} reason.

(** [Promise.all] over promises listed in the order they settle: rejected with
    the reason of the first one to reject, fulfilled once all are. *)
Fixpoint Promise_all {A : Type} (ps : list (settled A)) : settled (list A) :=
  match ps with
  | [] => Fulfilled []
  | Rejected e :: _ => Rejected e
  | Fulfilled a :: ps' =>
      match Promise_all ps' with
      | Fulfilled l => Fulfilled (a :: l)
      | Rejected e => Rejected e
      end
  end.

(** [p.catch(onRejected)]: what [onRejected] sends to [console.error] ([None]
    for [undefined]) and the promise returned. *)
Definition Promise_catch {A : Type} (p : settled A)
  (onRejected : thrown_value -> list (option jsstring) * completion unit thrown_value)
  : list (option jsstring) * settled (option A) :=
  match p with
  | Fulfilled a => ([], Fulfilled (Some a))
  | Rejected e =>
      match onRejected e with
      | (lines, Normal _) => (lines, Fulfilled None)
      | (lines, Throw e') => (lines, Rejected e')
      end
  end.

(** [l.map(f)] for a callback that may throw: the results of the calls made
    before the first one that throws, and what that one threw. *)
Fixpoint map_until_throw {A B : Type} (f : A -> completion B thrown_value)
  (l : list A) : list B * option thrown_value :=
  match l with
  | [] => ([], None)
  | a :: l' =>
      match f a with
      | Throw e => ([], Some e)
      | Normal b =>
          let (bs, thrown) := map_until_throw f l' in (b :: bs, thrown)
      end
  end.

Inductive annotation : Type :=
| NgModuleMetadata
| ComponentMetadata
| OtherAnnotation.

Record GeneratedModule : Type := {
  moduleUrl : jsstring;
  source : jsstring
}.

(** What [codegen] and its then-callbacks do to the outside. *)
Inductive event : Type :=
| ConsoleLog (line : jsstring)
| HostWriteFile (fileName data : jsstring) (writeByteOrderMark : bool)
    (sourceFiles : list (option SourceFile)).

Section Codegen.

Variables StaticSymbol AnalyzedModules : Type.

Record FileMetadata : Type := {
  fileUrl : jsstring;
  components : list StaticSymbol;
  ngModules : list StaticSymbol
}.

Variable cwd : jsstring.
Variable options : AngularCompilerOptions.

(** The program and the reflector host. *)
Variable program_getSourceFiles : list jsstring.   (* their [fileName]s *)
Variable program_getSourceFile : jsstring -> option SourceFile.
Variable getCanonicalFileName : jsstring -> jsstring.
Variable findDeclaration : jsstring -> jsstring -> jsstring -> StaticSymbol.

(** [staticReflector.getModuleMetadata(path)]: [None] when there is none;
    else its [metadata] property, [None] when falsy, as the keys in order,
    each with whether its entry is an [__symbolic: 'error'] record. *)
Variable getModuleMetadata : jsstring -> option (option (list (jsstring * bool))).
Variable annotations : StaticSymbol -> list annotation.

(** The three reflector calls above may also throw.  [reflection_throws path]
    is [Some e] when one of the calls [readFileMetadata] makes for [path]
    throws [e], which then is how [readFileMetadata] is left; it is [None]
    when they all return, with the values the three functions give. *)
Variable reflection_throws : jsstring -> option thrown_value.

(** The offline compiler.  [analyzeModules] returns or throws; [compile]
    throws, or returns a promise, given here settled. *)
Variable analyzeModules :
  list StaticSymbol -> completion AnalyzedModules thrown_value.
Variable compile :
  jsstring -> AnalyzedModules -> list StaticSymbol -> list StaticSymbol ->
  completion (settled (list GeneratedModule)) thrown_value.

(** [this.host.writeFile]: returns ([None]) or throws. *)
Variable host_writeFile :
  jsstring -> jsstring -> bool -> list (option SourceFile) -> option thrown_value.

(** The [TypeError] the engine raises when [stack] is read on [null] or
    [undefined]. *)
Variable cannot_read_stack : JsError.

(** The order in which the event loop settles the promises [compile]
    returned, each with the file it was started for. *)
Variable settle_order :
  list (FileMetadata * settled (list GeneratedModule)) ->
  list (FileMetadata * settled (list GeneratedModule)).

Definition classify (result : FileMetadata) (staticType : StaticSymbol)
  (a : annotation) : FileMetadata :=
  match a with
  | NgModuleMetadata =>
      {| fileUrl := fileUrl result; components := components result;
         ngModules := ngModules result ++ [staticType] |}
  | ComponentMetadata =>
      {| fileUrl := fileUrl result; components := components result ++ [staticType];
         ngModules := ngModules result |}
  | OtherAnnotation => result
  end.

(** [readFileMetadata] when the reflector calls return. *)
Definition readFileMetadata (absSourcePath : jsstring)
  : list jsstring * FileMetadata :=
  let result := {| fileUrl := absSourcePath; components := []; ngModules := [] |} in
  match getModuleMetadata absSourcePath with
  | None => ([lit "WARNING: no metadata found for " ++ absSourcePath], result)
  | Some None => ([], result)
  | Some (Some symbols) =>
      ([],
       fold_left
         (fun result (entry : jsstring * bool) =>
            let (symbol, is_error) := entry in
            if is_error then result
            else
              let staticType := findDeclaration absSourcePath symbol absSourcePath in
              fold_left (fun r a => classify r staticType a)
                        (annotations staticType) result)
         symbols result)
  end.

(** [this.readFileMetadata(filePath)] as [codegen] calls it: left by the
    exception of a reflector call, or returning. *)
Definition read (filePath : jsstring)
  : completion (list jsstring * FileMetadata) thrown_value :=
  match reflection_throws filePath with
  | Some e => Throw e
  | None => Normal (readFileMetadata filePath)
  end.

(** The [forEach] of the then-callback: it stops at the first write that
    throws. *)
Fixpoint write_generated (fileMeta : FileMetadata)
  (generatedModules : list GeneratedModule)
  : list event * completion unit thrown_value :=
  match generatedModules with
  | [] => ([], Normal tt)
  | generatedModule :: rest =>
      let sourceFile := program_getSourceFile (fileUrl fileMeta) in
      let (logged, emitPath) :=
        calculateEmitPath cwd options (moduleUrl generatedModule) in
      let source := fix_source (source generatedModule) in
      let call := HostWriteFile emitPath (PREAMBLE ++ source) false [sourceFile] in
      match host_writeFile emitPath (PREAMBLE ++ source) false [sourceFile] with
      | Some e => (map ConsoleLog logged ++ [call], Throw e)
      | None =>
          let (events, c) := write_generated fileMeta rest in
          (map ConsoleLog logged ++ call :: events, c)
      end
  end.

(** [this.compiler.compile(fileMeta.fileUrl, ...)] for one file: it throws,
    or the file is started, with the promise returned. *)
Definition start (analyzedNgModules : AnalyzedModules) (fileMeta : FileMetadata)
  : completion (FileMetadata * settled (list GeneratedModule)) thrown_value :=
  match compile (fileUrl fileMeta) analyzedNgModules (components fileMeta)
                (ngModules fileMeta) with
  | Throw e => Throw e
  | Normal generated => Normal (fileMeta, generated)
  end.

(** The task of a started file: the promise [.then(...)] makes of the one
    [compile] returned, and what its callback does. *)
Definition generate (started : FileMetadata * settled (list GeneratedModule))
  : list event * settled unit :=
  let (fileMeta, generated) := started in
  match generated with
  | Rejected e => ([], Rejected e)
  | Fulfilled generatedModules =>
      match write_generated fileMeta generatedModules with
      | (events, Normal _) => (events, Fulfilled tt)
      | (events, Throw e) => (events, Rejected e)
      end
  end.

(** [(e) => { console.error(e.stack); }] *)
Definition log_stack (e : thrown_value)
  : list (option jsstring) * completion unit thrown_value :=
  match e with
  | ErrorObject error => ([Some (stack error)], Normal tt)
  | OtherValue => ([None], Normal tt)
  | Nullish => ([], Throw (ErrorObject cannot_read_stack))
  end.

(** A call of [codegen]: it throws, or returns a promise. *)
Record codegen_run : Type := {
  events : list event;          (* of the synchronous part, then of the
                                   then-callbacks in the order they ran *)
  console_error : list (option jsstring);  (* of the [catch] handler *)
  returned : completion (settled (option (list unit))) thrown_value
}.

Definition filePaths : list jsstring :=
  filter (fun f => negb (GENERATED_FILES f))
         (map getCanonicalFileName program_getSourceFiles).

(** [fileMetas] when no reflector call throws. *)
Definition fileMetas : list (list jsstring * FileMetadata) :=
  map readFileMetadata filePaths.

(** The three maps of [codegen] run one call after the other, outside any
    promise: an exception of [readFileMetadata], [analyzeModules] or
    [compile] leaves [codegen] itself, and what comes after is not run.
    The files [compile] had returned a promise for by then keep their
    then-callbacks, which run as those promises settle. *)
Definition codegen : codegen_run :=
  let (read_metas, thrown) := map_until_throw read filePaths in
  let logged := map ConsoleLog (flat_map fst read_metas) in
  match thrown with
  | Some e => {| events := logged; console_error := []; returned := Throw e |}
  | None =>
      let metas := map snd read_metas in
      let ngModules := flat_map ngModules metas in
      match analyzeModules ngModules with
      | Throw e =>
          {| events := logged; console_error := []; returned := Throw e |}
      | Normal analyzedNgModules =>
          let (started, thrown) :=
            map_until_throw (start analyzedNgModules) metas in
          let tasks := map generate (settle_order started) in
          match thrown with
          | Some e =>
              {| events := logged ++ flat_map fst tasks;
                 console_error := [];
                 returned := Throw e |}
          | None =>
              let (lines, p) :=
                Promise_catch (Promise_all (map snd tasks)) log_stack in
              {| events := logged ++ flat_map fst tasks;
                 console_error := lines;
                 returned := Normal p |}
          end
      end
  end.

End Codegen.

Arguments fileUrl {StaticSymbol} f.
Arguments components {StaticSymbol} f.
Arguments ngModules {StaticSymbol} f.
Arguments readFileMetadata {StaticSymbol} findDeclaration getModuleMetadata
  annotations absSourcePath.
Arguments read {StaticSymbol} findDeclaration getModuleMetadata annotations
  reflection_throws filePath.
Arguments write_generated {StaticSymbol} cwd options program_getSourceFile
  host_writeFile fileMeta generatedModules.
Arguments start {StaticSymbol AnalyzedModules} compile analyzedNgModules fileMeta.
Arguments generate {StaticSymbol} cwd options program_getSourceFile
  host_writeFile started.
Arguments fileMetas {StaticSymbol} program_getSourceFiles getCanonicalFileName
  findDeclaration getModuleMetadata annotations.
Arguments codegen {StaticSymbol AnalyzedModules} cwd options
  program_getSourceFiles program_getSourceFile getCanonicalFileName
  findDeclaration getModuleMetadata annotations reflection_throws analyzeModules
  compile host_writeFile cannot_read_stack settle_order.

End CodeGenerator.

(** ** What the cast workaround is meant to do, in the words of its
    description

    The definitions of this module follow the description of the workaround,
    not the code; the code is compared with them in Part II. *)

Module CastSpec.

(** [s] starts with an occurrence of [CHAIN.<member>.transform]. *)
Definition occurrence_at (chain s : jsstring) : Prop :=
  exists member rest,
    s = chain ++ lit "." ++ member ++ lit ".transform" ++ rest
    /\ member <> [] /\ forallb not_dot member = true.

(** [s] holds such an occurrence somewhere. *)
Definition occurs (chain s : jsstring) : Prop :=
  exists before after, s = before ++ after /\ occurrence_at chain after.

(** [s] holds a cast pattern [<T>CHAIN] somewhere, on one line. *)
Definition cast_occurs (chain s : jsstring) : Prop :=
  exists before T after,
    s = before ++ lit "<" ++ T ++ lit ">" ++ chain ++ after
    /\ forallb any_but_newline T = true.

(** Reading the text from left to right, every occurrence of
    [CHAIN.<member>.transform] is replaced by [(<T>TARGET).<member>.transform],
    and every other unit is kept.  The description asks for [TARGET] to be
    [CHAIN], the cast applied once to the chain. *)
Inductive rewritten (chain target T : jsstring) : jsstring -> jsstring -> Prop :=
| rewritten_end : rewritten chain target T [] []
| rewritten_occurrence (member rest rest' : jsstring) :
    member <> [] -> forallb not_dot member = true ->
    rewritten chain target T rest rest' ->
    rewritten chain target T
      (chain ++ lit "." ++ member ++ lit ".transform" ++ rest)
      (lit "(<" ++ T ++ lit ">" ++ target ++ lit ")." ++ member
       ++ lit ".transform" ++ rest')
| rewritten_unit (c : code_unit) (s s' : jsstring) :
    ~ occurrence_at chain (c :: s) ->
    rewritten chain target T s s' ->
    rewritten chain target T (c :: s) (c :: s').

End CastSpec.

(** ** [TsickleCompilerHost]

    The host of the Closure pass.  [getSourceFile] hands a declaration file
    back as the old program has it and annotates every other file;
    [this.diagnostics] is assigned, not appended to. *)

Module TsickleCompilerHost.

Section GetSourceFile.

Variables Diagnostic Exn ProgramSource : Type.

(** The result of [tsickle.annotate], without the externs, which are not
    read. *)
Record Annotated : Type := {
  output : jsstring;
  annotated_diagnostics : list Diagnostic
}.

(** What [getSourceFile] returns: the old program's own source file
    ([None] for [undefined]), or a freshly parsed one. *)
Inductive result : Type :=
| ProgramFile (sourceFile : option ProgramSource)
| Parsed (p : ParsedSource).

Variable oldProgram_getSourceFile : jsstring -> option ProgramSource.

(** [tsickle.annotate(this.oldProgram, sourceFile, {untyped: true})] *)
Variable annotate : option ProgramSource -> completion Annotated Exn.

(** The state is [this.diagnostics]. *)
Definition getSourceFile (this_diagnostics : list Diagnostic)
  (fileName : jsstring) (languageVersion : N)
  : completion result Exn * list Diagnostic :=
  let sourceFile := oldProgram_getSourceFile fileName in
  let isDefinitions := is_dts fileName in
  if isDefinitions then (Normal (ProgramFile sourceFile), this_diagnostics)
  else
    match annotate sourceFile with
    | Normal a =>
        (Normal (Parsed (createSourceFile fileName (Some (output a))
                           languageVersion true)),
         annotated_diagnostics a)
    | Throw e => (Throw e, this_diagnostics)
    end.

End GetSourceFile.

Arguments output {Diagnostic} a.
Arguments annotated_diagnostics {Diagnostic} a.
Arguments ProgramFile {ProgramSource} sourceFile.
Arguments Parsed {ProgramSource} p.
Arguments getSourceFile {Diagnostic Exn ProgramSource} oldProgram_getSourceFile
  annotate this_diagnostics fileName languageVersion.

End TsickleCompilerHost.

(** ** [main]: the host handed to tsickle, and the command line *)

Module Main.

(** [\.ts|\.d\.ts|\.js|\.jsx|\.tsx] *)
Definition extensions : list jsstring :=
  [lit ".ts"; lit ".d.ts"; lit ".js"; lit ".jsx"; lit ".tsx"].

(** The pattern of [pathToModuleName] tried at one position: an optional
    [/index] and an extension up to the end of the text, or [/index] up to
    the end. *)
Definition index_or_extension (s : jsstring) : bool :=
  let extension s := existsb (str_eqb s) extensions in
  match drop_prefix (lit "/index") s with
  | Some rest => extension rest || extension s || is_empty rest
  | None => extension s
  end.

(** [importPath.replace(PATTERN, '')]: the match is looked for from the left,
    and what it matches runs to the end of the text. *)
Fixpoint strip_index_or_extension (importPath : jsstring) : jsstring :=
  if index_or_extension importPath then []
  else match importPath with
       | [] => []
       | c :: rest => c :: strip_index_or_extension rest
       end.

Inductive thrown : Type := TypeError.

Section TsickleHost.

(** [process.cwd()], and the values [main] computes before it builds the
    host; [outputProjectName] is [parsed.options.outDir], [None] when the
    configuration names no output directory. *)
Variable cwd : jsstring.
Variables basePath projectDir googModuleProjectName moduleIdBasePath : jsstring.
Variable outputProjectName : option jsstring.

(** [path.resolve(basePath, importPath)]: an absolute [importPath] stands
    alone, and an empty argument is passed over. *)
Definition resolve_from (base p : jsstring) : jsstring :=
  if starts_with path.sep p then path.resolve cwd p
  else if is_empty p then path.resolve cwd base
  else if is_empty base then path.resolve cwd p
  else path.resolve cwd (base ++ path.sep ++ p).

Definition pathToModuleName (context importPath : jsstring)
  : completion jsstring thrown :=
  if is_empty googModuleProjectName then Normal []
  else
    let importPath := strip_index_or_extension importPath in
    let isRelativePath := GoogModule.first_is_dot importPath in
    let importPath :=
      if isRelativePath then path.join [path.dirname context; importPath]
      else importPath in
    let renamed :=
      if is_empty context || isRelativePath then
        let absolutePath := resolve_from basePath importPath in
        match find_sub projectDir absolutePath with
        | Some (_, relativeToProject) =>
            Normal (googModuleProjectName ++ relativeToProject)
        | None =>
            (* [indexOf(undefined)] looks for the text [undefined], and
               [undefined.length] is a [TypeError] *)
            match outputProjectName with
            | Some outDir =>
                match find_sub outDir absolutePath with
                | Some (_, relativeToProject) =>
                    Normal (googModuleProjectName ++ relativeToProject)
                | None => Normal importPath
                end
            | None =>
                match find_sub (lit "undefined") absolutePath with
                | Some _ => Throw TypeError
                | None => Normal importPath
                end
            end
        end
      else Normal importPath in
    match renamed with
    | Normal importPath => Normal (GoogModule.moduleName importPath)
    | Throw e => Throw e
    end.

(** [fileName.substr(moduleIdBasePath.length + 1)] under the base path. *)
Definition fileNameToModuleId (fileName : jsstring) : jsstring :=
  if starts_with moduleIdBasePath fileName
  then substr_from (List.length moduleIdBasePath + 1) fileName
  else fileName.

End TsickleHost.

(** The command line: the arguments of [ngc] alone are taken out before
    TypeScript parses the rest. *)
Definition ngcOnlyArgs : list jsstring :=
  [lit "--moduleIdBasePath"; lit "--googModuleProjectName"].

(** [tsArgs.indexOf(argName)], [None] for [-1]. *)
Fixpoint indexOf (argName : jsstring) (tsArgs : list jsstring) : option nat :=
  match tsArgs with
  | [] => None
  | a :: rest =>
      if str_eqb a argName then Some 0
      else match indexOf argName rest with
           | Some i => Some (S i)
           | None => None
           end
  end.

(** [tsArgs.splice(argIndex, 2)] *)
Definition splice2 (argIndex : nat) (tsArgs : list jsstring) : list jsstring :=
  firstn argIndex tsArgs ++ skipn (argIndex + 2) tsArgs.

Definition tsArgs (args : list jsstring) : list jsstring :=
  fold_left
    (fun tsArgs argName =>
       match indexOf argName tsArgs with
       | Some argIndex => splice2 argIndex tsArgs
       | None => tsArgs
       end)
    ngcOnlyArgs args.

End Main.

(** ** Counters as text

    [n.toString()], and [n] in a concatenation, for a counter [n]: its
    decimal digits.  (A counter is a double and counts exactly below
    [2^53].) *)
Definition Number_toString (n : nat) : jsstring :=
  lit (DecimalString.NilEmpty.string_of_uint (Nat.to_uint n)).

(** ** The animation renderer

    [AnimationRenderer] sends the properties and listeners whose name starts
    with [@] to the animation engine, under its namespace, and everything
    else to the renderer it wraps. *)

Module AnimationRenderer.

Section Renderer.

Variables Node Value Callback : Type.

(** What is passed as an element or a target: [null], a string, or a node. *)
Inductive any : Type :=
| Null
| Text (s : jsstring)
| Element (n : Node).

Variables document_body document window : Node.

Definition resolveElementFromTarget (target : any) : any :=
  match target with
  | Text s =>
      if str_eqb s (lit "body") then Element document_body
      else if str_eqb s (lit "document") then Element document
      else if str_eqb s (lit "window") then Element window
      else target
  | _ => target
  end.

(** [s.indexOf(c)] for one unit, [-1] when there is none. *)
Fixpoint indexOf (c : code_unit) (s : jsstring) : Z :=
  match s with
  | [] => (-1)%Z
  | x :: s' =>
      if unit_eqb x c then 0%Z
      else let i := indexOf c s' in
           if Z.ltb i 0 then (-1)%Z else (i + 1)%Z
  end.

(** [substring(0, dotIndex)] takes a negative end for 0. *)
Definition parseTriggerCallbackName (triggerName : jsstring)
  : jsstring * jsstring :=
  let dotIndex := indexOf (ch ".") triggerName in
  let trigger := firstn (Z.to_nat dotIndex) triggerName in
  let phase := skipn (Z.to_nat (dotIndex + 1)) triggerName in
  (trigger, phase).

(** The calls a renderer makes.  The callback the engine is given wraps the
    listener's: it hands it to [scheduleListenerCallback]. *)
Inductive call : Type :=
| engine_setProperty (namespaceId : jsstring) (el : any) (name : jsstring)
    (value : Value)
| delegate_setProperty (el : any) (name : jsstring) (value : Value)
| engine_listen (namespaceId : jsstring) (element : any) (name phase : jsstring)
    (callback : Callback)
| delegate_listen (target : any) (eventName : jsstring) (callback : Callback).

Variable namespaceId : jsstring.

Definition setProperty (el : any) (name : jsstring) (value : Value) : call :=
  if starts_with (lit "@") name then
    let name := substr_from 1 name in
    engine_setProperty namespaceId el name value
  else delegate_setProperty el name value.

Definition listen (target : any) (eventName : jsstring) (callback : Callback)
  : call :=
  if starts_with (lit "@") eventName then
    let element := resolveElementFromTarget target in
    let name := substr_from 1 eventName in
    let (name, phase) :=
      if negb (starts_with (lit "@") name)   (* transition-specific *)
      then parseTriggerCallbackName name
      else (name, []) in
    engine_listen namespaceId element name phase callback
  else delegate_listen target eventName callback.

End Renderer.

Arguments Null {Node}.
Arguments Text {Node} s.
Arguments Element {Node} n.
Arguments engine_setProperty {Node Value Callback} namespaceId el name value.
Arguments delegate_setProperty {Node Value Callback} el name value.
Arguments engine_listen {Node Value Callback} namespaceId element name phase callback.
Arguments delegate_listen {Node Value Callback} target eventName callback.
Arguments resolveElementFromTarget {Node} document_body document window target.
Arguments setProperty {Node Value Callback} namespaceId el name value.
Arguments listen {Node Value Callback} document_body document window namespaceId
  target eventName callback.

End AnimationRenderer.

(** ** The factory of animation renderers *)

Module AnimationRendererFactory.

Section Factory.

Variables Host Delegate Trigger : Type.

(** A renderer type: its [id], and [data['animation']] when [data] is there
    and holds a truthy [animation] ([None] otherwise). *)
Record RendererType2 : Type := {
  type_id : jsstring;
  data_animation : option (list Trigger)
}.

(** [trigger.name] *)
Variable trigger_name : Trigger -> jsstring.

(** [this.delegate.createRenderer(hostElement, type)], and the identity of
    the renderers it returns, by which the cache is keyed. *)
Variable delegate_createRenderer :
  option Host -> option RendererType2 -> Delegate.
Variable same_delegate : Delegate -> Delegate -> bool.

Inductive renderer : Type :=
| BaseAnimationRenderer (namespaceId : jsstring) (delegate : Delegate)
| AnimationRenderer (namespaceId : jsstring) (delegate : Delegate).

Inductive engine_call : Type :=
| register (namespaceId : jsstring) (hostElement : Host)
| registerTrigger (componentId namespaceId : jsstring) (hostElement : Host)
    (name : jsstring) (trigger : Trigger).

Record factory : Type := {
  _currentId : nat;
  _rendererCache : list (Delegate * renderer)
}.

Definition new_factory : factory :=
  {| _currentId := 0; _rendererCache := [] |}.

(** [this._rendererCache.get(delegate)] *)
Fixpoint cache_get (cache : list (Delegate * renderer)) (delegate : Delegate)
  : option renderer :=
  match cache with
  | [] => None
  | (d, r) :: rest => if same_delegate d delegate then Some r
                      else cache_get rest delegate
  end.

Definition base_renderer (this : factory) (delegate : Delegate)
  : list engine_call * renderer * factory :=
  let EMPTY_NAMESPACE_ID : jsstring := [] in
  match cache_get (_rendererCache this) delegate with
  | Some renderer => ([], renderer, this)
  | None =>
      let renderer := BaseAnimationRenderer EMPTY_NAMESPACE_ID delegate in
      ([], renderer,
       {| _currentId := _currentId this;
          _rendererCache := (delegate, renderer) :: _rendererCache this |})
  end.

Definition createRenderer (this : factory) (hostElement : option Host)
  (type : option RendererType2) : list engine_call * renderer * factory :=
  let delegate := delegate_createRenderer hostElement type in
  match hostElement, type with
  | Some host, Some ty =>
      match data_animation ty with
      | Some animationTriggers =>
          let componentId := type_id ty in
          let namespaceId :=
            type_id ty ++ lit "-" ++ Number_toString (_currentId this) in
          (register namespaceId host
             :: map (fun trigger =>
                       registerTrigger componentId namespaceId host
                         (trigger_name trigger) trigger)
                    animationTriggers,
           AnimationRenderer namespaceId delegate,
           {| _currentId := S (_currentId this);
              _rendererCache := _rendererCache this |})
      | None => base_renderer this delegate
      end
  | _, _ => base_renderer this delegate
  end.

End Factory.

Arguments type_id {Trigger} r.
Arguments data_animation {Trigger} r.
Arguments BaseAnimationRenderer {Delegate} namespaceId delegate.
Arguments AnimationRenderer {Delegate} namespaceId delegate.
Arguments register {Host Trigger} namespaceId hostElement.
Arguments registerTrigger {Host Trigger} componentId namespaceId hostElement
  name trigger.
Arguments _currentId {Delegate} f.
Arguments _rendererCache {Delegate} f.
Arguments new_factory {Delegate}.
Arguments createRenderer {Host Delegate Trigger} trigger_name
  delegate_createRenderer same_delegate this hostElement type.

End AnimationRendererFactory.

(** ** The animation builder and its players *)

Module BrowserAnimationBuilder.

Import AnimationRenderer.

Section Builder.

Variables Node Arg Callback : Type.
Variables document_body document window : Node.

(** The namespace of the renderer the builder was given. *)
Variable namespaceId : jsstring.

Definition issueAnimationCommand (element : any Node) (id command : jsstring)
  (args : list Arg) : call Node (list Arg) Callback :=
  setProperty namespaceId element (lit "@@" ++ id ++ lit ":" ++ command) args.

(** [Array.isArray(animation) ? {type: 2, animation} : animation] *)
Variable sequence : list Arg -> Arg.

Inductive animation : Type :=
| Steps (steps : list Arg)
| Metadata (entry : Arg).

(** [build]: the state is [_nextAnimationId]; the factory returned is given
    by its id. *)
Definition build (_nextAnimationId : nat) (a : animation)
  : call Node (list Arg) Callback * jsstring * nat :=
  let id := Number_toString _nextAnimationId in
  let entry := match a with Steps steps => sequence steps | Metadata e => e end in
  (issueAnimationCommand Null id (lit "register") [entry], id,
   S _nextAnimationId).

Record RendererAnimationPlayer : Type := {
  id : jsstring;
  element : any Node;
  _started : bool
}.

(** [factory.create(element, options)]: the constructor of the player sends
    [create]; [empty] is the [{}] that stands for missing options. *)
Variable empty : Arg.

Definition create (id : jsstring) (element : any Node) (options : option Arg)
  : call Node (list Arg) Callback * RendererAnimationPlayer :=
  let options := match options with Some o => o | None => empty end in
  (issueAnimationCommand element id (lit "create") [options],
   {| id := id; element := element; _started := false |}).

(** The methods of a player that send a command. *)
Inductive method : Type :=
| init | play | pause | restart | finish | destroy | reset
| setPosition (p : Arg).

Definition command (m : method) : jsstring * list Arg :=
  match m with
  | init => (lit "init", [])
  | play => (lit "play", [])
  | pause => (lit "pause", [])
  | restart => (lit "restart", [])
  | finish => (lit "finish", [])
  | destroy => (lit "destroy", [])
  | reset => (lit "reset", [])
  | setPosition p => (lit "setPosition", [p])
  end.

Definition invoke (player : RendererAnimationPlayer) (m : method)
  : call Node (list Arg) Callback * RendererAnimationPlayer :=
  let (name, args) := command m in
  (issueAnimationCommand (element player) (id player) name args,
   match m with
   | play => {| id := id player; element := element player; _started := true |}
   | _ => player
   end).

Definition hasStarted (player : RendererAnimationPlayer) : bool :=
  _started player.

(** [onDone], [onStart] and [onDestroy], by the name of their event. *)
Definition _listen (player : RendererAnimationPlayer) (eventName : jsstring)
  (callback : Callback) : call Node (list Arg) Callback :=
  listen document_body document window namespaceId (element player)
    (lit "@@" ++ id player ++ lit ":" ++ eventName) callback.

End Builder.

Arguments Steps {Arg} steps.
Arguments Metadata {Arg} entry.
Arguments id {Node} r.
Arguments element {Node} r.
Arguments _started {Node} r.
Arguments hasStarted {Node} player.
Arguments init {Arg}.
Arguments play {Arg}.
Arguments pause {Arg}.
Arguments restart {Arg}.
Arguments finish {Arg}.
Arguments destroy {Arg}.
Arguments reset {Arg}.
Arguments setPosition {Arg} p.
Arguments command {Arg} m.
Arguments issueAnimationCommand {Node Arg Callback} namespaceId element id
  command args.
Arguments build {Node Arg Callback} namespaceId sequence _nextAnimationId a.
Arguments create {Node Arg Callback} namespaceId empty id element options.
Arguments invoke {Node Arg Callback} namespaceId player m.
Arguments _listen {Node Arg Callback} document_body document window namespaceId
  player eventName callback.

End BrowserAnimationBuilder.

(** ** The helpers of the end-to-end tests *)

Module E2eUtil.

Section OpenBrowser.

(** The values of parameters, the text of one in a concatenation, and a
    boolean as a value. *)
Variable Value : Type.
Variable to_text : Value -> jsstring.
Variable Boolean : bool -> Value.

Record param : Type := {
  name : jsstring;
  param_value : Value
}.

Record config : Type := {
  url : jsstring;
  params : option (list param);
  ignoreBrowserSynchronization : bool
}.

(** What [openBrowser] does to the browser. *)
Inductive action : Type :=
| set_ignoreSynchronization
| get (url : jsstring)
| sleep (ms : nat).

(** [cmdArgs.bundles], as [readCommandLine] left it, and [encodeURI]. *)
Variable cmdArgs_bundles : bool.
Variable encodeURI : jsstring -> jsstring.

(** The parameters of the query: those of the configuration, and the flag
    of the command line after them when none is named [bundles]. *)
Definition query_params (c : config) : list param :=
  let params := match params c with Some ps => ps | None => [] end in
  if negb (existsb (fun param => str_eqb (name param) (lit "bundles")) params)
  then params ++ [{| name := lit "bundles"; param_value := Boolean cmdArgs_bundles |}]
  else params.

Definition openBrowser (c : config) : list action :=
  let urlParams :=
    map (fun param => name param ++ lit "=" ++ to_text (param_value param))
        (query_params c) in
  let url := encodeURI (url c ++ lit "?" ++ join_with (lit "&") urlParams) in
  (if ignoreBrowserSynchronization c then [set_ignoreSynchronization] else [])
  ++ [get url]
  ++ (if ignoreBrowserSynchronization c then [sleep 500] else []).

End OpenBrowser.

Arguments name {Value} p.
Arguments param_value {Value} p.
Arguments url {Value} c.
Arguments params {Value} c.
Arguments ignoreBrowserSynchronization {Value} c.
Arguments query_params {Value} Boolean cmdArgs_bundles c.
Arguments openBrowser {Value} to_text Boolean cmdArgs_bundles encodeURI c.

End E2eUtil.

(** ** Auxiliary definitions

    Names for intermediate results of the code, used to state the lemmas of
    Part II. *)

(** What the two namers compute once the extension is gone. *)
Definition resolved_tsickle (context stripped : jsstring) : jsstring :=
  let importPath :=
    if GoogModule.first_is_dot stripped
    then path.join [path.dirname context; stripped] else stripped in
  match TsickleHost.dist importPath with
  | Some m => remove_suffix (lit "/index") (DistPattern.rewrite m)
  | None => importPath
  end.

Definition resolved_downlevel (context stripped : jsstring) : jsstring :=
  let importPath :=
    if GoogModule.first_is_dot stripped
    then path.join [path.dirname context; stripped] else stripped in
  match DecoratorDownlevelCompilerHost.dist importPath with
  | Some m => remove_suffix (lit "/index") (DistPattern.rewrite m)
  | None => importPath
  end.

(** No unit of [s] is a dollar sign, the one unit the replacement text of
    [String.prototype.replace] treats specially. *)
Definition no_dollar (s : jsstring) : bool :=
  forallb (fun c => negb (unit_eqb c (ch "$"))) s.

(** The units that, after a dollar sign, make a pattern of the replacement
    text when the pattern searched is a string: the four of [expand]. *)
Definition is_dollar_pattern (d : code_unit) : bool :=
  unit_eqb d (ch "$") || unit_eqb d (ch "&") || unit_eqb d (ch "`")
  || unit_eqb d (ch "'").

(** [s] holds none of these patterns: no dollar sign in it is followed by
    one of the four units. *)
Fixpoint no_dollar_pattern (s : jsstring) : bool :=
  match s with
  | [] => true
  | c :: r =>
      (if unit_eqb c (ch "$")
       then match r with
            | d :: _ => negb (is_dollar_pattern d)
            | [] => true
            end
       else true)
      && no_dollar_pattern r
  end.

(** The steps of one block of the cast workaround, for a chain and the text
    [T] of the cast found. *)
Module CastWorkaround.

(** No match of the block's pattern starts inside [L] when [X] follows it. *)
Definition quiet (chain L X : jsstring) : Prop :=
  forall a d, L = a ++ d -> d <> [] -> CodeGenerator.error_here chain (d ++ X) = None.

(** The text put in the place of a match. *)
Definition replacement (T member : jsstring) : jsstring :=
  lit "(<" ++ T ++ lit ">this.parent)." ++ member ++ lit ".transform".

(** One step of the [forEach]. *)
Definition step (chain T source errorMatch : jsstring) : jsstring :=
  CodeGenerator.replace source errorMatch
    (lit "(<" ++ T ++ lit ">this.parent)"
     ++ substr_from (List.length chain) errorMatch).

End CastWorkaround.

(** The annotations [readFileMetadata] tells apart. *)
Definition is_module (a : CodeGenerator.annotation) : bool :=
  match a with CodeGenerator.NgModuleMetadata => true | _ => false end.
Definition is_component (a : CodeGenerator.annotation) : bool :=
  match a with CodeGenerator.ComponentMetadata => true | _ => false end.

(** The declarations of the symbols of a file that carry an annotation of
    one kind, once for each such annotation and in the order of the keys;
    symbols that record an error are passed over. *)
Definition annotated_with {StaticSymbol : Type}
  (findDeclaration : jsstring -> jsstring -> jsstring -> StaticSymbol)
  (annotations : StaticSymbol -> list CodeGenerator.annotation)
  (which : CodeGenerator.annotation -> bool) (absSourcePath : jsstring)
  (symbols : list (jsstring * bool)) : list StaticSymbol :=
  flat_map
    (fun entry : jsstring * bool =>
       if snd entry then []
       else
         let staticType := findDeclaration absSourcePath (fst entry) absSourcePath in
         map (fun _ => staticType) (filter which (annotations staticType)))
    symbols.

(** The texts the pattern of [pathToModuleName] matches up to the end. *)
Definition index_or_extension_forms : list jsstring :=
  [lit "/index"; lit "/index.ts"; lit "/index.d.ts"; lit "/index.js";
   lit "/index.jsx"; lit "/index.tsx";
   lit ".ts"; lit ".d.ts"; lit ".js"; lit ".jsx"; lit ".tsx"].

(** Calls of [build] on one builder, one after the other: the command each
    one sends and the id of the factory it returns. *)
Fixpoint builds {Node Arg Callback : Type} (namespaceId : jsstring)
  (sequence : list Arg -> Arg) (_nextAnimationId : nat)
  (animations : list (BrowserAnimationBuilder.animation Arg))
  : list (AnimationRenderer.call Node (list Arg) Callback * jsstring) :=
  match animations with
  | [] => []
  | a :: rest =>
      let '(sent, id, next) :=
        BrowserAnimationBuilder.build namespaceId sequence _nextAnimationId a in
      (sent, id) :: builds namespaceId sequence next rest
  end.

(** Calls of [createRenderer] on one factory, one after the other: what each
    one asks of the engine and the renderer it returns. *)
Fixpoint createRenderers {Host Delegate Trigger : Type}
  (trigger_name : Trigger -> jsstring)
  (delegate_createRenderer :
     option Host -> option (AnimationRendererFactory.RendererType2 Trigger) ->
     Delegate)
  (same_delegate : Delegate -> Delegate -> bool)
  (this : AnimationRendererFactory.factory Delegate)
  (requests :
     list (option Host * option (AnimationRendererFactory.RendererType2 Trigger)))
  : list (list (AnimationRendererFactory.engine_call Host Trigger)
          * AnimationRendererFactory.renderer Delegate) :=
  match requests with
  | [] => []
  | (hostElement, type) :: rest =>
      let '(calls, renderer, this') :=
        AnimationRendererFactory.createRenderer trigger_name
          delegate_createRenderer same_delegate this hostElement type in
      (calls, renderer)
        :: createRenderers trigger_name delegate_createRenderer same_delegate
             this' rest
  end.

(** The namespaces of the animation renderers among some renderers. *)
Definition animation_namespaces {Delegate : Type}
  (renderers : list (AnimationRendererFactory.renderer Delegate))
  : list jsstring :=
  flat_map
    (fun r =>
       match r with
       | AnimationRendererFactory.AnimationRenderer namespaceId _ => [namespaceId]
       | AnimationRendererFactory.BaseAnimationRenderer _ _ => []
       end)
    renderers.

(** The namespaces some calls register with the engine. *)
Definition registered_namespaces {Host Trigger : Type}
  (calls : list (AnimationRendererFactory.engine_call Host Trigger))
  : list jsstring :=
  flat_map
    (fun c =>
       match c with
       | AnimationRendererFactory.register namespaceId _ => [namespaceId]
       | AnimationRendererFactory.registerTrigger _ _ _ _ _ => []
       end)
    calls.

(** A segment of a path that names something: not empty, without a slash,
    and neither [.] nor [..]. *)
Definition plain_segment (seg : jsstring) : bool :=
  negb (is_empty seg) && forallb not_slash seg
  && negb (path.is_dot seg) && negb (path.is_dotdot seg).

(** The start of a relative specifier: [.], or [..] a number of times. *)
Definition leading_dots (ups : nat) : list jsstring :=
  match ups with
  | O => [lit "."]
  | S _ => repeat (lit "..") ups
  end.

(** ** Sample inputs

    Small worlds on which the theorems of Part II are instantiated. *)

(** A collector that finds one document, written as a number, and a
    serializer. *)
Definition sample_getMetadata (c : MetadataWriterHost.collector) (sf : SourceFile)
  (strict : bool) : completion (option nat) unit :=
  match c with
  | MetadataWriterHost.metadataCollector => Normal (Some 3)
  | MetadataWriterHost.metadataCollector1 => Normal (Some 1)
  end.

Definition sample_stringify (ms : list nat) : jsstring :=
  flat_map (fun m => lit "v" ++ [N.of_nat m + ch "0"]%N) ms.

(** A rewrite that fails on [bad.ts] and a host that reads every file as
    [class A {}]. *)
Definition sample_convertDecorators (p : unit) (fileName : jsstring)
  : completion (DecoratorDownlevelCompilerHost.Converted nat) nat :=
  if str_eqb fileName (lit "bad.ts") then Throw 7
  else Normal {| DecoratorDownlevelCompilerHost.output := lit "class A {}";
                 DecoratorDownlevelCompilerHost.converted_diagnostics := None |}.

Definition sample_readFile (fileName : jsstring) : option jsstring :=
  Some (lit "class A {}").

Definition sample_state : DecoratorDownlevelCompilerHost.host_state nat :=
  {| DecoratorDownlevelCompilerHost.diagnostics := [];
     DecoratorDownlevelCompilerHost.console_error := [] |}.

Definition sample_options : CodeGenerator.AngularCompilerOptions :=
  {| CodeGenerator.basePath := lit "/proj";
     CodeGenerator.rootDirs := Some [lit "/proj/src"];
     CodeGenerator.trace := false;
     CodeGenerator.genDir := lit "/proj/gen" |}.

(** A program of two files with one component each, and a compiler that
    rejects the files listed in [failing].  The tasks settle in the order of
    the files. *)
Definition sample_compile (failing : list jsstring) (url : jsstring)
  (analyzed : nat) (components ngModules : list jsstring)
  : completion (CodeGenerator.settled (list CodeGenerator.GeneratedModule))
      CodeGenerator.thrown_value :=
  if existsb (str_eqb url) failing
  then Normal
         (CodeGenerator.Rejected
            (CodeGenerator.ErrorObject
               {| CodeGenerator.message := lit "Cannot compile " ++ url;
                  CodeGenerator.stack := lit "Error: Cannot compile " ++ url |}))
  else Normal
         (CodeGenerator.Fulfilled
            [{| CodeGenerator.moduleUrl :=
                  remove_suffix (lit ".ts") url ++ lit ".ngfactory.ts";
                CodeGenerator.source := lit "export const x = 1;" |}]).

(** A compiler that throws, instead of returning a promise, for the files
    listed in [failing]. *)
Definition sample_compile_throwing (failing : list jsstring) (url : jsstring)
  (analyzed : nat) (components ngModules : list jsstring)
  : completion (CodeGenerator.settled (list CodeGenerator.GeneratedModule))
      CodeGenerator.thrown_value :=
  if existsb (str_eqb url) failing
  then Throw
         (CodeGenerator.ErrorObject
            {| CodeGenerator.message := lit "Resource file not found: " ++ url;
               CodeGenerator.stack := lit "Error: Resource file not found: " ++ url |})
  else sample_compile [] url analyzed components ngModules.

(** A compiler whose promise is rejected with [undefined] for the files
    listed in [failing]. *)
Definition sample_compile_rejecting_undefined (failing : list jsstring)
  (url : jsstring) (analyzed : nat) (components ngModules : list jsstring)
  : completion (CodeGenerator.settled (list CodeGenerator.GeneratedModule))
      CodeGenerator.thrown_value :=
  if existsb (str_eqb url) failing
  then Normal (CodeGenerator.Rejected CodeGenerator.Nullish)
  else sample_compile [] url analyzed components ngModules.

Definition sample_cannot_read_stack : CodeGenerator.JsError :=
  {| CodeGenerator.message := lit "Cannot read property 'stack' of undefined";
     CodeGenerator.stack := lit "TypeError: Cannot read property 'stack' of undefined" |}.

Definition sample_codegen_with
  (compile :
     jsstring -> nat -> list jsstring -> list jsstring ->
     completion (CodeGenerator.settled (list CodeGenerator.GeneratedModule))
       CodeGenerator.thrown_value)
  : CodeGenerator.codegen_run :=
  CodeGenerator.codegen (lit "/") sample_options
    [lit "/proj/src/a.ts"; lit "/proj/src/b.ts"]
    (fun f => Some (OriginalSource f))
    (fun f => f)
    (fun _ symbol _ => symbol)
    (fun _ => Some (Some [(lit "AppComponent", false)]))
    (fun _ => [CodeGenerator.ComponentMetadata])
    (fun _ => None)
    (fun l => Normal (List.length l))
    compile
    (fun _ _ _ _ => None)
    sample_cannot_read_stack
    (fun l => l).

Definition sample_codegen (failing : list jsstring) : CodeGenerator.codegen_run :=
  sample_codegen_with (sample_compile failing).

Definition sample_meta (url : jsstring) : CodeGenerator.FileMetadata jsstring :=
  {| CodeGenerator.fileUrl := url;
     CodeGenerator.components := [lit "AppComponent"];
     CodeGenerator.ngModules := [] |}.

(** A host whose write of one file fails. *)
Definition sample_throwing_writeFile (fileName data : jsstring) (bom : bool)
  (sourceFiles : list (option SourceFile)) : option CodeGenerator.thrown_value :=
  if str_eqb fileName (lit "/proj/gen/b.ngfactory.ts")
  then Some (CodeGenerator.ErrorObject
               {| CodeGenerator.message := lit "EACCES";
                  CodeGenerator.stack := lit "Error: EACCES" |})
  else None.

(* ================================================================== *)
(** * Part II: properties *)
(* ================================================================== *)

(** ** Strings *)

Lemma unit_eqb_eq (a b : code_unit) : unit_eqb a b = true <-> a = b.
Proof. apply N.eqb_eq. Qed.

Lemma unit_eqb_refl (a : code_unit) : unit_eqb a a = true.
Proof. apply N.eqb_refl. Qed.

Lemma drop_prefix_spec (p s r : jsstring) :
  drop_prefix p s = Some r -> s = p ++ r.
Proof.
  revert s; induction p as [|x p IH]; intros s H; simpl in *.
  - now inversion H.
  - destruct s as [|y s]; [discriminate|].
    destruct (unit_eqb x y) eqn:E; [|discriminate].
    apply unit_eqb_eq in E; subst y.
    now rewrite (IH _ H).
Qed.

Lemma drop_prefix_app (p r : jsstring) : drop_prefix p (p ++ r) = Some r.
Proof.
  induction p as [|x p IH]; simpl; [reflexivity|].
  now rewrite unit_eqb_refl.
Qed.

Lemma drop_suffix_spec (p s r : jsstring) :
  drop_suffix p s = Some r -> s = r ++ p.
Proof.
  unfold drop_suffix; intros H.
  destruct (drop_prefix (rev p) (rev s)) as [q|] eqn:E; [|discriminate].
  inversion H; subst r; clear H.
  apply drop_prefix_spec in E.
  rewrite <- (rev_involutive s), E, rev_app_distr, rev_involutive.
  reflexivity.
Qed.

Lemma drop_suffix_app (p r : jsstring) : drop_suffix p (r ++ p) = Some r.
Proof.
  unfold drop_suffix.
  now rewrite rev_app_distr, drop_prefix_app, rev_involutive.
Qed.

(** [remove_suffix] keeps a prefix of its argument. *)
Lemma remove_suffix_prefix (p s : jsstring) :
  exists t, s = remove_suffix p s ++ t.
Proof.
  unfold remove_suffix.
  destruct (drop_suffix p s) as [r|] eqn:E.
  - exists p. now apply drop_suffix_spec.
  - exists []. now rewrite app_nil_r.
Qed.

Lemma is_ident_start_part (c : code_unit) :
  is_ident_start c = true -> is_ident_part c = true.
Proof.
  unfold is_ident_start, is_ident_part; intros H.
  apply orb_true_iff in H; destruct H as [H|H].
  - apply orb_true_iff in H; destruct H as [H|H]; rewrite H.
    + reflexivity.
    + now rewrite !orb_true_r.
  - rewrite H. now rewrite !orb_true_r.
Qed.

(** ** The module namer *)

Lemma replace_unsupported_allowed (s : jsstring) :
  forallb is_ident_part (GoogModule.replace_unsupported s) = true.
Proof.
  induction s as [|c s IH]; simpl; [reflexivity|].
  rewrite IH, andb_true_r.
  destruct (is_ident_part c) eqn:E; [exact E | reflexivity].
Qed.

Lemma moduleName_nil : GoogModule.moduleName [] = [].
Proof. reflexivity. Qed.

Lemma moduleName_identifier (s : jsstring) :
  s <> [] -> matches_identifier (GoogModule.moduleName s) = true.
Proof.
  destruct s as [|c s]; [congruence|]; intros _.
  unfold GoogModule.moduleName; simpl.
  rewrite replace_unsupported_allowed, andb_true_r.
  set (c1 := if unit_eqb c _ then _ else c).
  destruct (is_ident_start c1) eqn:E.
  - now rewrite (is_ident_start_part _ E).
  - reflexivity.
Qed.

Lemma normalize_nonempty (p : jsstring) : path.normalize p <> [].
Proof.
  unfold path.normalize.
  destruct p as [|c0 p']; [discriminate|].
  set (p1 := path.normalizeString (c0 :: p') (negb (unit_eqb c0 (ch "/")))).
  destruct (unit_eqb c0 (ch "/")); simpl.
  - discriminate.
  - rewrite andb_true_r.
    destruct p1 as [|x p1]; simpl;
      match goal with |- (if ?b then _ else _) <> [] => destruct b end;
      discriminate.
Qed.

Lemma join_nonempty (args : list jsstring) : path.join args <> [].
Proof.
  unfold path.join.
  destruct (filter (fun a => negb (is_empty a)) args).
  - discriminate.
  - apply normalize_nonempty.
Qed.

(** The package-qualified form keeps its [@], so dropping a trailing
    [/index] cannot empty it. *)
Lemma rewrite_index_nonempty (m : DistPattern.dist_match) :
  remove_suffix (lit "/index") (DistPattern.rewrite m) <> [].
Proof.
  unfold remove_suffix.
  destruct (drop_suffix (lit "/index") (DistPattern.rewrite m)) as [r|] eqn:E.
  - apply drop_suffix_spec in E. intros ->. simpl in E.
    assert (H : In (ch "@") (DistPattern.rewrite m)).
    { unfold DistPattern.rewrite. apply in_or_app; right. now left. }
    rewrite E in H. simpl in H.
    repeat (destruct H as [H|H]; [discriminate H|]). exact H.
  - unfold DistPattern.rewrite. destruct (DistPattern.before m); discriminate.
Qed.

Lemma exec_nil (head tail : jsstring) :
  head <> [] -> DistPattern.exec head tail [] = None.
Proof.
  intros H; simpl. unfold DistPattern.match_here.
  destruct head; [congruence | reflexivity].
Qed.

Lemma resolved_tsickle_nonempty (context stripped : jsstring) :
  stripped <> [] -> resolved_tsickle context stripped <> [].
Proof.
  intros H; unfold resolved_tsickle.
  set (importPath := if GoogModule.first_is_dot stripped then _ else _).
  assert (Hi : importPath <> []).
  { subst importPath. destruct (GoogModule.first_is_dot stripped);
      [apply join_nonempty | exact H]. }
  destruct (TsickleHost.dist importPath); [apply rewrite_index_nonempty | exact Hi].
Qed.

Lemma resolved_downlevel_nonempty (context stripped : jsstring) :
  stripped <> [] -> resolved_downlevel context stripped <> [].
Proof.
  intros H; unfold resolved_downlevel.
  set (importPath := if GoogModule.first_is_dot stripped then _ else _).
  assert (Hi : importPath <> []).
  { subst importPath. destruct (GoogModule.first_is_dot stripped);
      [apply join_nonempty | exact H]. }
  destruct (DecoratorDownlevelCompilerHost.dist importPath);
    [apply rewrite_index_nonempty | exact Hi].
Qed.

Lemma tsickle_unfold (context importPath : jsstring) :
  TsickleHost.pathToGoogModuleName context importPath
  = GoogModule.moduleName
      (resolved_tsickle context (remove_suffix (lit ".js") importPath)).
Proof. reflexivity. Qed.

Lemma downlevel_unfold (context importPath : jsstring) :
  DecoratorDownlevelCompilerHost.pathToGoogModuleName context importPath
  = GoogModule.moduleName
      (resolved_downlevel context (remove_suffix (lit ".js") importPath)).
Proof. reflexivity. Qed.

(** C1, as the claim states it, fails: the specifier [.js] is empty once the
    extension is stripped, and both namers return the empty string for it,
    which is no identifier. *)
Lemma namer_empty_specifier :
  TsickleHost.pathToGoogModuleName (lit "some-file") (lit ".js") = []
  /\ DecoratorDownlevelCompilerHost.pathToGoogModuleName (lit "some-file") (lit ".js") = []
  /\ matches_identifier
       (TsickleHost.pathToGoogModuleName (lit "some-file") (lit ".js")) = false
  /\ matches_identifier
       (DecoratorDownlevelCompilerHost.pathToGoogModuleName (lit "some-file") (lit ".js"))
     = false.
Proof. repeat split; vm_compute; reflexivity. Qed.

(** C1 (amended): both namers are functions of their two arguments, total and
    deterministic; whenever the import specifier is not empty once a trailing
    [.js] is stripped the result matches [[A-Za-z_$][A-Za-z0-9._$]*], and when
    it is empty the result is the empty string. *)
Theorem namer_total_identifier (context importPath : jsstring) :
  (remove_suffix (lit ".js") importPath <> [] ->
     matches_identifier (TsickleHost.pathToGoogModuleName context importPath) = true
     /\ matches_identifier
          (DecoratorDownlevelCompilerHost.pathToGoogModuleName context importPath) = true)
  /\ (remove_suffix (lit ".js") importPath = [] ->
        TsickleHost.pathToGoogModuleName context importPath = []
        /\ DecoratorDownlevelCompilerHost.pathToGoogModuleName context importPath = [])
  /\ (forall context' importPath',
        context' = context -> importPath' = importPath ->
        TsickleHost.pathToGoogModuleName context' importPath'
        = TsickleHost.pathToGoogModuleName context importPath
        /\ DecoratorDownlevelCompilerHost.pathToGoogModuleName context' importPath'
           = DecoratorDownlevelCompilerHost.pathToGoogModuleName context importPath).
Proof.
  rewrite tsickle_unfold, downlevel_unfold.
  split; [|split].
  - intros H; split; apply moduleName_identifier.
    + now apply resolved_tsickle_nonempty.
    + now apply resolved_downlevel_nonempty.
  - intros ->. split; reflexivity.
  - intros c' i' -> ->. rewrite tsickle_unfold, downlevel_unfold. split; reflexivity.
Qed.

Lemma namer_total_identifier_witness :
  matches_identifier
    (TsickleHost.pathToGoogModuleName (lit "a/some-file") (lit "../lib/other_file.js"))
  = true
  /\ matches_identifier
       (DecoratorDownlevelCompilerHost.pathToGoogModuleName
          (lit "a/some-file") (lit "../lib/other_file.js")) = true.
Proof.
  apply (proj1 (namer_total_identifier (lit "a/some-file") (lit "../lib/other_file.js"))).
  vm_compute. discriminate.
Defined.

(** C2: what the code returns on the inputs of the claim.  The separators
    become dots, not dollars, and an underscore is not doubled; the second
    namer does not even recognise [packages-dist]. *)
Theorem namer_examples :
  TsickleHost.pathToGoogModuleName
    (lit "some-file") (lit "dist/packages-dist/core/esm/place/testing")
  = lit "_angular.core.place.testing"
  /\ TsickleHost.pathToGoogModuleName (lit "some-file") (lit "./other_file")
     = lit "other_file"
  /\ DecoratorDownlevelCompilerHost.pathToGoogModuleName
       (lit "some-file") (lit "dist/packages-dist/core/esm/place/testing")
     = lit "dist.packages_dist.core.esm.place.testing"
  /\ DecoratorDownlevelCompilerHost.pathToGoogModuleName
       (lit "some-file") (lit "./other_file")
     = lit "other_file".
Proof. repeat split; vm_compute; reflexivity. Qed.

Lemma first_is_dot_stripped (importPath : jsstring) :
  starts_with (lit ".") importPath = false ->
  GoogModule.first_is_dot (remove_suffix (lit ".js") importPath) = false.
Proof.
  intros H.
  destruct (remove_suffix_prefix (lit ".js") importPath) as [t Ht].
  destruct (remove_suffix (lit ".js") importPath) as [|c r]; [reflexivity|].
  unfold GoogModule.first_is_dot.
  destruct (unit_eqb c (ch ".")) eqn:E; [|reflexivity].
  apply unit_eqb_eq in E; subst c.
  rewrite Ht in H. cbv in H. discriminate H.
Qed.

(** C10: for an import specifier that does not start with a dot, the result
    of either namer does not depend on the context path. *)
Theorem namer_context_independent (c1 c2 importPath : jsstring) :
  starts_with (lit ".") importPath = false ->
  TsickleHost.pathToGoogModuleName c1 importPath
  = TsickleHost.pathToGoogModuleName c2 importPath
  /\ DecoratorDownlevelCompilerHost.pathToGoogModuleName c1 importPath
     = DecoratorDownlevelCompilerHost.pathToGoogModuleName c2 importPath.
Proof.
  intros H. apply first_is_dot_stripped in H.
  rewrite !tsickle_unfold, !downlevel_unfold.
  unfold resolved_tsickle, resolved_downlevel.
  rewrite H. split; reflexivity.
Qed.

Lemma namer_context_independent_witness :
  TsickleHost.pathToGoogModuleName (lit "a/b/some-file")
    (lit "dist/packages-dist/core/esm/place/index")
  = TsickleHost.pathToGoogModuleName (lit "other/place.ts")
      (lit "dist/packages-dist/core/esm/place/index")
  /\ DecoratorDownlevelCompilerHost.pathToGoogModuleName (lit "a/b/some-file")
       (lit "dist/packages-dist/core/esm/place/index")
     = DecoratorDownlevelCompilerHost.pathToGoogModuleName (lit "other/place.ts")
         (lit "dist/packages-dist/core/esm/place/index").
Proof.
  apply (namer_context_independent (lit "a/b/some-file") (lit "other/place.ts")
           (lit "dist/packages-dist/core/esm/place/index")).
  vm_compute. reflexivity.
Defined.

(** ** The metadata-writing host *)

Lemma js_is_not_dts (fileName : jsstring) :
  ends_with (lit ".js") fileName = true -> is_dts fileName = false.
Proof.
  unfold ends_with at 1; intros H.
  destruct (drop_suffix (lit ".js") fileName) as [stem|] eqn:E; [|discriminate].
  apply drop_suffix_spec in E; subst fileName.
  unfold is_dts, ends_with, drop_suffix.
  rewrite rev_app_distr. reflexivity.
Qed.

Section MetadataWriterHostProperties.

Import MetadataWriterHost.

Variables ModuleMetadata Exn Callback : Type.
Variable getMetadata :
  collector -> SourceFile -> bool -> completion (option ModuleMetadata) Exn.
Variable JSON_stringify : list ModuleMetadata -> jsstring.
Variable strict : bool.

Let writeFile := writeFile (Callback := Callback) getMetadata JSON_stringify strict.

(** [writeMetadata] never calls the inner host. *)
Lemma writeMetadata_no_delegate (emitFilePath : jsstring) (sf : option SourceFile) :
  existsb is_delegate_write
    (fst (writeMetadata (Callback := Callback) getMetadata JSON_stringify strict
            emitFilePath sf)) = false.
Proof.
  unfold writeMetadata.
  destruct (ends_with (lit ".js") emitFilePath); [|reflexivity].
  destruct sf as [sf|]; [|reflexivity].
  destruct (getMetadata metadataCollector (collectable sf) strict) as [m|e];
    [|reflexivity].
  destruct (getMetadata metadataCollector1 (collectable sf) false) as [m1|e];
    [|reflexivity].
  destruct (non_null [m; m1]); reflexivity.
Qed.

(** C3 (amended): a write of a [.js] unit is never forwarded to the inner
    host.  When the name matches [IGNORED_FILES] nothing happens at all;
    otherwise, with one source unit attached and both collectors returning,
    the unit's metadata is collected and, when a collector yields a
    document, the documents are serialized and written next to the unit,
    at its name with [.js] replaced by [.metadata.json]. *)
Theorem writeFile_js_sidecar (fileName data : jsstring) (bom : bool)
  (onError : option Callback) (sourceFiles : option (list SourceFile)) :
  ends_with (lit ".js") fileName = true ->
  existsb is_delegate_write (fst (writeFile fileName data bom onError sourceFiles))
  = false
  /\ (IGNORED_FILES fileName = true ->
      writeFile fileName data bom onError sourceFiles = ([], Normal tt))
  /\ (IGNORED_FILES fileName = false ->
      forall sf m m1,
        sourceFiles = Some [sf] ->
        getMetadata metadataCollector (collectable sf) strict = Normal m ->
        getMetadata metadataCollector1 (collectable sf) false = Normal m1 ->
        writeFile fileName data bom onError sourceFiles
        = ([GetMetadata metadataCollector (collectable sf) strict;
            GetMetadata metadataCollector1 (collectable sf) false]
           ++ match non_null [m; m1] with
              | [] => []
              | metadatas =>
                  [WriteFileSync
                     (remove_suffix (lit ".js") fileName ++ lit ".metadata.json")
                     (JSON_stringify metadatas)]
              end,
           Normal tt)).
Proof.
  intros Hjs. pose proof (js_is_not_dts _ Hjs) as Hd.
  subst writeFile. unfold MetadataWriterHost.writeFile. rewrite Hd.
  split; [|split].
  - destruct (IGNORED_FILES fileName); [reflexivity|].
    destruct sourceFiles as [sfs|]; [|reflexivity].
    destruct (Nat.ltb 1 (List.length sfs)); [reflexivity|].
    apply writeMetadata_no_delegate.
  - intros ->. reflexivity.
  - intros -> sf m m1 -> Hm Hm1.
    change (Nat.ltb 1 (List.length [sf])) with false. cbv iota.
    change (hd_error [sf]) with (Some sf).
    unfold writeMetadata. rewrite Hjs, Hm, Hm1.
    unfold metadata_path, remove_suffix.
    unfold ends_with in Hjs.
    destruct (drop_suffix (lit ".js") fileName) as [stem|]; [|discriminate].
    destruct (non_null [m; m1]); reflexivity.
Qed.

(** C4: on a file that is neither a declaration file nor an ignored one, a
    missing list of source units, or a list of more than one, makes
    [writeFile] throw an [Error] at once: nothing is collected and no
    sidecar is written. *)
Theorem writeFile_needs_one_source (fileName data : jsstring) (bom : bool)
  (onError : option Callback) (sourceFiles : option (list SourceFile)) :
  is_dts fileName = false ->
  IGNORED_FILES fileName = false ->
  (sourceFiles = None
   \/ exists sfs, sourceFiles = Some sfs /\ 1 < List.length sfs) ->
  exists message,
    writeFile fileName data bom onError sourceFiles = ([], Throw (Error message)).
Proof.
  intros Hd Hi H. subst writeFile. unfold MetadataWriterHost.writeFile.
  rewrite Hd, Hi.
  destruct H as [->|[sfs [-> Hlen]]].
  - eexists; reflexivity.
  - apply Nat.ltb_lt in Hlen. rewrite Hlen. eexists; reflexivity.
Qed.

(** C9: a write of a declaration file is forwarded to the inner host with
    its five arguments as they came, and [writeFile] returns: no collector
    runs and no sidecar is written. *)
Theorem writeFile_dts_forwarded (fileName data : jsstring) (bom : bool)
  (onError : option Callback) (sourceFiles : option (list SourceFile)) :
  is_dts fileName = true ->
  writeFile fileName data bom onError sourceFiles
  = ([DelegateWriteFile fileName data bom onError sourceFiles], Normal tt).
Proof.
  intros Hd. subst writeFile. unfold MetadataWriterHost.writeFile.
  now rewrite Hd.
Qed.

End MetadataWriterHostProperties.

(** C3, as the claim states it, fails: the write of [a.js] with its one source
    unit runs the collectors and writes [a.metadata.json], and no call of the
    inner host comes first, or at all. *)
Lemma writeFile_js_not_forwarded :
  MetadataWriterHost.writeFile (Callback := unit) sample_getMetadata
    sample_stringify false (lit "a.js") (lit "var a;") false None
    (Some [OriginalSource (lit "a.ts")])
  = ([MetadataWriterHost.GetMetadata MetadataWriterHost.metadataCollector
        (OriginalSource (lit "a.ts")) false;
      MetadataWriterHost.GetMetadata MetadataWriterHost.metadataCollector1
        (OriginalSource (lit "a.ts")) false;
      MetadataWriterHost.WriteFileSync (lit "a.metadata.json") (lit "v3v1")],
     Normal tt)
  /\ existsb MetadataWriterHost.is_delegate_write
       (fst (MetadataWriterHost.writeFile (Callback := unit) sample_getMetadata
               sample_stringify false (lit "a.js") (lit "var a;") false None
               (Some [OriginalSource (lit "a.ts")]))) = false.
Proof. split; vm_compute; reflexivity. Qed.

Lemma writeFile_js_sidecar_witness :
  MetadataWriterHost.writeFile (Callback := unit) sample_getMetadata
    sample_stringify true (lit "out/a.js") (lit "var a;") false None
    (Some [TransformedSource (lit "a.ts") (OriginalSource (lit "a.ts"))])
  = ([MetadataWriterHost.GetMetadata MetadataWriterHost.metadataCollector
        (OriginalSource (lit "a.ts")) true;
      MetadataWriterHost.GetMetadata MetadataWriterHost.metadataCollector1
        (OriginalSource (lit "a.ts")) false;
      MetadataWriterHost.WriteFileSync (lit "out/a.metadata.json") (lit "v3v1")],
     Normal tt).
Proof.
  assert (Hjs : ends_with (lit ".js") (lit "out/a.js") = true)
    by (vm_compute; reflexivity).
  destruct (writeFile_js_sidecar nat unit unit sample_getMetadata sample_stringify
              true (lit "out/a.js") (lit "var a;") false None
              (Some [TransformedSource (lit "a.ts") (OriginalSource (lit "a.ts"))])
              Hjs) as [_ [_ H]].
  exact (H eq_refl (TransformedSource (lit "a.ts") (OriginalSource (lit "a.ts")))
           (Some 3) (Some 1) eq_refl eq_refl eq_refl).
Defined.

Lemma writeFile_needs_one_source_witness :
  exists message,
    MetadataWriterHost.writeFile (Callback := unit) sample_getMetadata
      sample_stringify false (lit "bundle.js") (lit "var a;") false None
      (Some [OriginalSource (lit "a.ts"); OriginalSource (lit "b.ts")])
    = ([], Throw (MetadataWriterHost.Error message)).
Proof.
  apply (writeFile_needs_one_source nat unit unit sample_getMetadata sample_stringify false
           (lit "bundle.js") (lit "var a;") false None
           (Some [OriginalSource (lit "a.ts"); OriginalSource (lit "b.ts")])).
  - vm_compute; reflexivity.
  - vm_compute; reflexivity.
  - right. eexists. split; [reflexivity | simpl; lia].
Defined.

Lemma writeFile_dts_forwarded_witness :
  MetadataWriterHost.writeFile (Callback := unit) sample_getMetadata
    sample_stringify false (lit "a.d.ts") (lit "export declare var a;") false
    (Some tt) (Some [OriginalSource (lit "a.ts")])
  = ([MetadataWriterHost.DelegateWriteFile (lit "a.d.ts")
        (lit "export declare var a;") false (Some tt)
        (Some [OriginalSource (lit "a.ts")])],
     Normal tt).
Proof.
  apply (writeFile_dts_forwarded nat unit unit sample_getMetadata sample_stringify false
           (lit "a.d.ts") (lit "export declare var a;") false (Some tt)
           (Some [OriginalSource (lit "a.ts")])).
  vm_compute; reflexivity.
Defined.

(** ** The annotation conversion host *)

Section GetSourceFileProperties.

Import DecoratorDownlevelCompilerHost.

Variables Diagnostic Exn Program : Type.
Variable delegate_readFile : jsstring -> option jsstring.
Variables this_program substituteProgram : Program.
Variable googleClosureOutput : bool.
Variable convertDecorators :
  Program -> jsstring -> completion (Converted Diagnostic) Exn.

Let getSourceFile :=
  getSourceFile delegate_readFile this_program substituteProgram
    googleClosureOutput convertDecorators.

(** C8: on a file that is not a declaration file, an exception of the
    rewrite leaves [getSourceFile] as that same exception, after one line
    on [console.error] and with the diagnostics untouched; on a declaration
    file the text read from the inner host is parsed as it is, whatever the
    rewrite would do, and the state of the host does not change. *)
Theorem getSourceFile_rethrows (st : host_state Diagnostic) (fileName : jsstring)
  (languageVersion : N) :
  (is_dts fileName = false ->
   forall e, convertDecorators this_program fileName = Throw e ->
     getSourceFile st fileName languageVersion
     = (Throw e,
        {| diagnostics := diagnostics st;
           console_error :=
             console_error st
             ++ [[lit "Cannot convertDecorators on file"; fileName]] |}))
  /\ (is_dts fileName = true ->
      getSourceFile st fileName languageVersion
      = (Normal (createSourceFile fileName (delegate_readFile fileName)
                   languageVersion true),
         st)).
Proof.
  subst getSourceFile. unfold DecoratorDownlevelCompilerHost.getSourceFile.
  split.
  - intros Hd e He. now rewrite Hd, He.
  - intros Hd. now rewrite Hd.
Qed.

(** When the rewrite returns, its output is followed by the support
    declaration. *)
Lemma getSourceFile_converted (st : host_state Diagnostic) (fileName : jsstring)
  (languageVersion : N) (converted : Converted Diagnostic) :
  is_dts fileName = false ->
  convertDecorators this_program fileName = Normal converted ->
  fst (getSourceFile st fileName languageVersion)
  = Normal (createSourceFile fileName
              (Some (output converted ++ ANNOTATION_SUPPORT))
              languageVersion true).
Proof.
  intros Hd Hc. subst getSourceFile.
  unfold DecoratorDownlevelCompilerHost.getSourceFile.
  now rewrite Hd, Hc.
Qed.

End GetSourceFileProperties.

Lemma getSourceFile_rethrows_witness :
  DecoratorDownlevelCompilerHost.getSourceFile sample_readFile tt tt false
    sample_convertDecorators sample_state (lit "bad.ts") 1%N
  = (Throw 7,
     {| DecoratorDownlevelCompilerHost.diagnostics := [];
        DecoratorDownlevelCompilerHost.console_error :=
          [[lit "Cannot convertDecorators on file"; lit "bad.ts"]] |})
  /\ DecoratorDownlevelCompilerHost.getSourceFile sample_readFile tt tt false
       sample_convertDecorators sample_state (lit "lib.d.ts") 1%N
     = (Normal (createSourceFile (lit "lib.d.ts") (Some (lit "class A {}")) 1%N true),
        sample_state).
Proof.
  destruct (getSourceFile_rethrows nat nat unit sample_readFile tt tt false
              sample_convertDecorators sample_state (lit "bad.ts") 1%N) as [H _].
  destruct (getSourceFile_rethrows nat nat unit sample_readFile tt tt false
              sample_convertDecorators sample_state (lit "lib.d.ts") 1%N) as [_ H'].
  split.
  - exact (H eq_refl 7 eq_refl).
  - exact (H' eq_refl).
Defined.

(** ** The code generator: emit paths *)

Lemma last_nonempty_default (A : Type) (x : A) (l : list A) (d d' : A) :
  last (x :: l) d = last (x :: l) d'.
Proof.
  revert x; induction l as [|y l IH]; intros x; [reflexivity|].
  change (last (y :: l) d = last (y :: l) d'). apply IH.
Qed.

Section EmitPathProperties.

Import CodeGenerator.

Variable cwd : jsstring.
Variable options : AngularCompilerOptions.

Let dirs : list jsstring :=
  match rootDirs options with Some dirs => dirs | None => [] end.

Lemma choose_root_fold (filePath : jsstring) (l : list jsstring)
  (logged : list jsstring) (root : jsstring) :
  snd (fold_left
         (fun (acc : list jsstring * jsstring) eachRootDir =>
            let (logged, root) := acc in
            let logged1 :=
              if trace options
              then logged ++ [lit "Check if " ++ filePath
                              ++ lit " is under rootDirs element " ++ eachRootDir]
              else logged in
            if not_dot_relative cwd eachRootDir filePath
            then (logged1, eachRootDir)
            else (logged1, root))
         l (logged, root))
  = last (filter (fun d => not_dot_relative cwd d filePath) l) root.
Proof.
  revert logged root; induction l as [|d l IH]; intros logged root; simpl.
  - reflexivity.
  - destruct (not_dot_relative cwd d filePath) eqn:E; rewrite IH.
    + simpl. destruct (filter _ l) as [|j l0]; [reflexivity|].
      apply last_nonempty_default.
    + reflexivity.
Qed.

(** The root [calculateEmitPath] ends with is the last entry of [rootDirs]
    from which the relative path does not start with a dot, and [basePath]
    when there is none; the emit path is [genDir] joined with the relative
    path from that root, its leading [../] removed. *)
Lemma calculateEmitPath_root (filePath : jsstring) :
  snd (calculateEmitPath cwd options filePath)
  = path.join
      [genDir options;
       strip_parent_dirs
         (path.relative cwd
            (last (filter (fun d => not_dot_relative cwd d filePath) dirs)
                  (basePath options))
            filePath)].
Proof.
  assert (H : snd (choose_root cwd options filePath)
              = last (filter (fun d => not_dot_relative cwd d filePath) dirs)
                     (basePath options))
    by apply choose_root_fold.
  unfold calculateEmitPath.
  destruct (choose_root cwd options filePath) as [logged root].
  simpl in H. subst root. reflexivity.
Qed.

End EmitPathProperties.

(** C7: the emit path of a module under a root directory, in a directory
    whose name starts with a dot.  The path relative to the root
    [/proj/src] has no parent-directory segment, yet the root is passed over
    for [basePath] and the output lands under [gen/src].  A sibling
    directory without the dot is placed as the claim says. *)
Theorem calculateEmitPath_dot_directory :
  path.relative (lit "/") (lit "/proj/src") (lit "/proj/src/.tmp/app.ngfactory.ts")
  = lit ".tmp/app.ngfactory.ts"
  /\ CodeGenerator.calculateEmitPath (lit "/") sample_options
       (lit "/proj/src/.tmp/app.ngfactory.ts")
     = ([], lit "/proj/gen/src/.tmp/app.ngfactory.ts")
  /\ CodeGenerator.calculateEmitPath (lit "/") sample_options
       (lit "/proj/src/tmp/app.ngfactory.ts")
     = ([], lit "/proj/gen/tmp/app.ngfactory.ts").
Proof. repeat split; vm_compute; reflexivity. Qed.

(** ** The code generator: failures of single files *)

Lemma Promise_all_fulfilled (A : Type) (ps : list (CodeGenerator.settled A)) :
  (forall p, In p ps -> exists a, p = CodeGenerator.Fulfilled a) ->
  exists l, CodeGenerator.Promise_all ps = CodeGenerator.Fulfilled l.
Proof.
  induction ps as [|p ps IH]; intros H; simpl.
  - now exists [].
  - destruct (H p (or_introl eq_refl)) as [a ->].
    destruct IH as [l ->]; [intros q Hq; apply H; now right|].
    now exists (a :: l).
Qed.

Lemma Promise_all_first_rejection (A : Type)
  (before after : list (CodeGenerator.settled A))
  (e : CodeGenerator.thrown_value) :
  (forall p, In p before -> exists a, p = CodeGenerator.Fulfilled a) ->
  CodeGenerator.Promise_all (before ++ CodeGenerator.Rejected e :: after)
  = CodeGenerator.Rejected e.
Proof.
  induction before as [|p before IH]; intros H; simpl.
  - reflexivity.
  - destruct (H p (or_introl eq_refl)) as [a ->].
    rewrite IH; [reflexivity|]. intros q Hq; apply H; now right.
Qed.

Lemma map_until_throw_all (A B : Type)
  (f : A -> completion B CodeGenerator.thrown_value) (g : A -> B) (l : list A) :
  (forall a, In a l -> f a = Normal (g a)) ->
  CodeGenerator.map_until_throw f l = (map g l, None).
Proof.
  induction l as [|a l IH]; intros H; [reflexivity|].
  cbn [CodeGenerator.map_until_throw map].
  rewrite (H a (or_introl eq_refl)), IH; [reflexivity|].
  intros x Hx. apply H. now right.
Qed.

Lemma map_until_throw_in (A B : Type)
  (f : A -> completion B CodeGenerator.thrown_value) (l : list A) :
  forall bs thrown, CodeGenerator.map_until_throw f l = (bs, thrown) ->
  forall b, In b bs -> exists a, In a l /\ f a = Normal b.
Proof.
  induction l as [|a l IH]; intros bs thrown H b Hb;
    cbn [CodeGenerator.map_until_throw] in H.
  - injection H as <- _. destruct Hb.
  - destruct (f a) as [b0|e] eqn:E.
    + destruct (CodeGenerator.map_until_throw f l) as [bs' thrown'].
      injection H as <- _. destruct Hb as [<- | Hb].
      * exists a. split; [now left | exact E].
      * destruct (IH bs' thrown' eq_refl b Hb) as [x [Hx Hfx]].
        exists x. split; [now right | exact Hfx].
    + injection H as <- _. destruct Hb.
Qed.

Section CodegenProperties.

Import CodeGenerator.

Variables StaticSymbol AnalyzedModules : Type.
Variable cwd : jsstring.
Variable options : AngularCompilerOptions.
Variable program_getSourceFiles : list jsstring.
Variable program_getSourceFile : jsstring -> option SourceFile.
Variable getCanonicalFileName : jsstring -> jsstring.
Variable findDeclaration : jsstring -> jsstring -> jsstring -> StaticSymbol.
Variable getModuleMetadata : jsstring -> option (option (list (jsstring * bool))).
Variable annotations : StaticSymbol -> list annotation.
Variable reflection_throws : jsstring -> option thrown_value.
Variable analyzeModules :
  list StaticSymbol -> completion AnalyzedModules thrown_value.
Variable compile :
  jsstring -> AnalyzedModules -> list StaticSymbol -> list StaticSymbol ->
  completion (settled (list GeneratedModule)) thrown_value.
Variable host_writeFile :
  jsstring -> jsstring -> bool -> list (option SourceFile) -> option thrown_value.
Variable cannot_read_stack : JsError.
Variable settle_order :
  list (FileMetadata StaticSymbol * settled (list GeneratedModule)) ->
  list (FileMetadata StaticSymbol * settled (list GeneratedModule)).

(** Every promise settles, in some order. *)
Hypothesis settle_order_perm : forall l, Permutation (settle_order l) l.

Let run : codegen_run :=
  codegen cwd options program_getSourceFiles program_getSourceFile
    getCanonicalFileName findDeclaration getModuleMetadata annotations
    reflection_throws analyzeModules compile host_writeFile cannot_read_stack
    settle_order.

Let metas : list (FileMetadata StaticSymbol) :=
  map snd (fileMetas program_getSourceFiles getCanonicalFileName findDeclaration
             getModuleMetadata annotations).

(** The calls [codegen] makes outside any promise return: the reflector
    calls for every file, [analyzeModules], and [compile] for every file,
    with a promise. *)
Hypothesis reflection_returns :
  forall f, In f (filePaths program_getSourceFiles getCanonicalFileName) ->
    reflection_throws f = None.
Variable analyzed : AnalyzedModules.
Hypothesis analyzeModules_returns :
  analyzeModules (flat_map ngModules metas) = Normal analyzed.
Variable promise_of : FileMetadata StaticSymbol -> settled (list GeneratedModule).
Hypothesis compile_returns :
  forall fileMeta, In fileMeta metas ->
    compile (fileUrl fileMeta) analyzed (components fileMeta) (ngModules fileMeta)
    = Normal (promise_of fileMeta).

(** The files with their promises, and the task of one of them. *)
Let started : list (FileMetadata StaticSymbol * settled (list GeneratedModule)) :=
  map (fun fileMeta => (fileMeta, promise_of fileMeta)) metas.

Let task (t : FileMetadata StaticSymbol * settled (list GeneratedModule))
  : list event * settled unit :=
  generate cwd options program_getSourceFile host_writeFile t.

(** The call of [host.writeFile] for one generated module of a file. *)
Let written (fileMeta : FileMetadata StaticSymbol) (generatedModule : GeneratedModule)
  : event :=
  HostWriteFile
    (snd (calculateEmitPath cwd options (moduleUrl generatedModule)))
    (PREAMBLE ++ fix_source (source generatedModule)) false
    [program_getSourceFile (fileUrl fileMeta)].

Lemma write_generated_all (fileMeta : FileMetadata StaticSymbol)
  (generatedModules : list GeneratedModule) :
  snd (write_generated cwd options program_getSourceFile host_writeFile fileMeta
         generatedModules) = Normal tt ->
  forall generatedModule, In generatedModule generatedModules ->
    In (written fileMeta generatedModule)
       (fst (write_generated cwd options program_getSourceFile host_writeFile
               fileMeta generatedModules)).
Proof.
  induction generatedModules as [|g gs IH]; intros H gm Hin; [destruct Hin|].
  revert H. subst written. cbn [write_generated].
  destruct (calculateEmitPath cwd options (moduleUrl g)) as [logged emitPath] eqn:E.
  destruct (host_writeFile emitPath (PREAMBLE ++ fix_source (source g)) false
              [program_getSourceFile (fileUrl fileMeta)]) as [e|];
    [intros H; discriminate H|].
  destruct (write_generated cwd options program_getSourceFile host_writeFile
              fileMeta gs) as [evs c] eqn:W.
  cbn [fst snd] in *. intros H. apply in_or_app; right.
  destruct Hin as [<-|Hin].
  - left. now rewrite E.
  - right. now apply IH.
Qed.

(** With the calls outside the promises returning, [codegen] gets as far as
    [Promise.all]. *)
Lemma run_unfold :
  events run
  = map ConsoleLog
      (flat_map fst (fileMetas program_getSourceFiles getCanonicalFileName
                       findDeclaration getModuleMetadata annotations))
    ++ flat_map fst (map task (settle_order started))
  /\ console_error run
     = fst (Promise_catch (Promise_all (map snd (map task (settle_order started))))
              (log_stack cannot_read_stack))
  /\ returned run
     = Normal
         (snd (Promise_catch
                 (Promise_all (map snd (map task (settle_order started))))
                 (log_stack cannot_read_stack))).
Proof.
  subst run. unfold codegen.
  rewrite (map_until_throw_all _ _
             (read findDeclaration getModuleMetadata annotations reflection_throws)
             (readFileMetadata findDeclaration getModuleMetadata annotations)).
  2:{ intros f Hf. unfold read. now rewrite (reflection_returns f Hf). }
  change (map (readFileMetadata findDeclaration getModuleMetadata annotations)
            (filePaths program_getSourceFiles getCanonicalFileName))
    with (fileMetas program_getSourceFiles getCanonicalFileName findDeclaration
            getModuleMetadata annotations).
  fold metas. rewrite analyzeModules_returns.
  rewrite (map_until_throw_all _ _ (start compile analyzed)
             (fun fileMeta => (fileMeta, promise_of fileMeta))).
  2:{ intros fm Hfm. unfold start. now rewrite (compile_returns fm Hfm). }
  fold started.
  change (generate cwd options program_getSourceFile host_writeFile) with task.
  destruct (Promise_catch _ _) as [lines p]. repeat split; reflexivity.
Qed.

Lemma task_events_in_run
  (t : FileMetadata StaticSymbol * settled (list GeneratedModule)) (ev : event) :
  In t started -> In ev (fst (task t)) -> In ev (events run).
Proof.
  intros Hin Hev. destruct run_unfold as (-> & _).
  apply in_or_app; right.
  apply in_flat_map. exists (task t). split; [|exact Hev].
  apply in_map.
  apply (Permutation_in _ (Permutation_sym (settle_order_perm _))).
  exact Hin.
Qed.

(** C5 (amended): when the calls [codegen] makes outside any promise return,
    it returns a promise; a file whose task succeeds has every one of its
    generated modules written, whatever happens to the other files; the
    first task to fail, in the order the promises settle, has the stack of
    its reason sent to [console.error] and nothing else is sent there, the
    promise being fulfilled, unless the reason is [null] or [undefined],
    when nothing is sent and the promise is rejected with the
    [TypeError] of reading [stack]; without a failure nothing is sent and
    the promise is fulfilled. *)
Theorem codegen_best_effort :
  (exists p, returned run = Normal p)
  /\ (forall fileMeta generatedModules,
        In fileMeta metas ->
        promise_of fileMeta = Fulfilled generatedModules ->
        snd (task (fileMeta, promise_of fileMeta)) = Fulfilled tt ->
        forall generatedModule, In generatedModule generatedModules ->
          In (written fileMeta generatedModule) (events run))
  /\ (forall before failed after e,
        settle_order started = before ++ failed :: after ->
        (forall earlier, In earlier before -> snd (task earlier) = Fulfilled tt) ->
        snd (task failed) = Rejected e ->
        match e with
        | ErrorObject error =>
            console_error run = [Some (stack error)]
            /\ returned run = Normal (Fulfilled None)
        | OtherValue =>
            console_error run = [None]
            /\ returned run = Normal (Fulfilled None)
        | Nullish =>
            console_error run = []
            /\ returned run = Normal (Rejected (ErrorObject cannot_read_stack))
        end)
  /\ ((forall t, In t started -> snd (task t) = Fulfilled tt) ->
      console_error run = []
      /\ exists l, returned run = Normal (Fulfilled (Some l))).
Proof.
  destruct run_unfold as (_ & Hc & Hp).
  split; [|split; [|split]].
  - rewrite Hp. eexists. reflexivity.
  - intros fm gms Hin Hpromise Hok gm Hgm.
    apply (task_events_in_run (fm, promise_of fm)).
    { subst started. apply in_map_iff. now exists fm. }
    revert Hok. subst task. unfold generate. cbv beta. rewrite Hpromise.
    pose proof (write_generated_all fm gms) as Hall.
    destruct (write_generated cwd options program_getSourceFile host_writeFile
                fm gms) as [evs c].
    destruct c as [[]|e]; [|discriminate]. intros _.
    now apply Hall.
  - intros before failed after e Hsplit Hbefore Hfail.
    assert (Hall : Promise_all (map snd (map task (settle_order started)))
                   = Rejected e).
    { rewrite Hsplit, !map_app. cbn [map]. rewrite Hfail.
      apply Promise_all_first_rejection.
      intros p Hp'. apply in_map_iff in Hp'. destruct Hp' as [q [<- Hq]].
      apply in_map_iff in Hq. destruct Hq as [t [<- Ht]].
      exists tt. now apply Hbefore. }
    rewrite Hc, Hp, Hall. destruct e; split; reflexivity.
  - intros Hall. rewrite Hc, Hp.
    destruct (Promise_all_fulfilled unit (map snd (map task (settle_order started))))
      as [l ->].
    + intros p Hp'. apply in_map_iff in Hp'. destruct Hp' as [q [<- Hq]].
      apply in_map_iff in Hq. destruct Hq as [t [<- Ht]].
      exists tt. apply Hall.
      apply (Permutation_in _ (settle_order_perm _)). exact Ht.
    + split; [reflexivity | now exists l].
Qed.

End CodegenProperties.

(** C5, as the claim states it, fails, in three ways.  When the tasks of
    both files fail, the one of [a.ts] first, the failure of [b.ts] is a
    failure of a single file's task and reaches no log.  When [compile]
    throws for [a.ts] instead of returning a promise, [codegen] is left by
    that exception: nothing is logged, no promise is returned, and [b.ts],
    whose compilation would succeed, is neither compiled nor written.  And
    when the promise of [a.ts] is rejected with [undefined], nothing is
    logged and the promise of [codegen] is rejected. *)
Lemma codegen_not_best_effort :
  (sample_compile [lit "/proj/src/a.ts"; lit "/proj/src/b.ts"]
     (lit "/proj/src/b.ts") 0 [lit "AppComponent"] []
   = Normal
       (CodeGenerator.Rejected
          (CodeGenerator.ErrorObject
             {| CodeGenerator.message := lit "Cannot compile /proj/src/b.ts";
                CodeGenerator.stack := lit "Error: Cannot compile /proj/src/b.ts" |}))
   /\ CodeGenerator.console_error
        (sample_codegen [lit "/proj/src/a.ts"; lit "/proj/src/b.ts"])
      = [Some (lit "Error: Cannot compile /proj/src/a.ts")])
  /\ (sample_compile_throwing [lit "/proj/src/a.ts"]
        (lit "/proj/src/b.ts") 0 [lit "AppComponent"] []
      = Normal
          (CodeGenerator.Fulfilled
             [{| CodeGenerator.moduleUrl := lit "/proj/src/b.ngfactory.ts";
                 CodeGenerator.source := lit "export const x = 1;" |}])
      /\ sample_codegen_with (sample_compile_throwing [lit "/proj/src/a.ts"])
         = {| CodeGenerator.events := [];
              CodeGenerator.console_error := [];
              CodeGenerator.returned :=
                Throw
                  (CodeGenerator.ErrorObject
                     {| CodeGenerator.message :=
                          lit "Resource file not found: /proj/src/a.ts";
                        CodeGenerator.stack :=
                          lit "Error: Resource file not found: /proj/src/a.ts" |}) |})
  /\ (CodeGenerator.console_error
        (sample_codegen_with (sample_compile_rejecting_undefined [lit "/proj/src/a.ts"]))
      = []
      /\ CodeGenerator.returned
           (sample_codegen_with
              (sample_compile_rejecting_undefined [lit "/proj/src/a.ts"]))
         = Normal
             (CodeGenerator.Rejected
                (CodeGenerator.ErrorObject sample_cannot_read_stack))).
Proof. repeat split; vm_compute; reflexivity. Qed.

Lemma codegen_best_effort_witness :
  (CodeGenerator.console_error (sample_codegen [lit "/proj/src/a.ts"])
   = [Some (lit "Error: Cannot compile /proj/src/a.ts")]
   /\ CodeGenerator.returned (sample_codegen [lit "/proj/src/a.ts"])
      = Normal (CodeGenerator.Fulfilled None))
  /\ In (CodeGenerator.HostWriteFile (lit "/proj/gen/b.ngfactory.ts")
           (CodeGenerator.PREAMBLE ++ lit "export const x = 1;") false
           [Some (OriginalSource (lit "/proj/src/b.ts"))])
        (CodeGenerator.events (sample_codegen [lit "/proj/src/a.ts"])).
Proof.
  pose (promise_of :=
          fun fileMeta : CodeGenerator.FileMetadata jsstring =>
            if str_eqb (CodeGenerator.fileUrl fileMeta) (lit "/proj/src/a.ts")
            then CodeGenerator.Rejected
                   (CodeGenerator.ErrorObject
                      {| CodeGenerator.message := lit "Cannot compile /proj/src/a.ts";
                         CodeGenerator.stack :=
                           lit "Error: Cannot compile /proj/src/a.ts" |})
            else CodeGenerator.Fulfilled
                   [{| CodeGenerator.moduleUrl :=
                         remove_suffix (lit ".ts") (CodeGenerator.fileUrl fileMeta)
                         ++ lit ".ngfactory.ts";
                       CodeGenerator.source := lit "export const x = 1;" |}]).
  assert (Hcompile :
            forall fileMeta,
              In fileMeta
                 (map snd
                    (CodeGenerator.fileMetas
                       [lit "/proj/src/a.ts"; lit "/proj/src/b.ts"] (fun f => f)
                       (fun _ symbol _ => symbol)
                       (fun _ => Some (Some [(lit "AppComponent", false)]))
                       (fun _ => [CodeGenerator.ComponentMetadata]))) ->
              sample_compile [lit "/proj/src/a.ts"] (CodeGenerator.fileUrl fileMeta) 0
                (CodeGenerator.components fileMeta) (CodeGenerator.ngModules fileMeta)
              = Normal (promise_of fileMeta)).
  { intros fileMeta [<- | [<- | []]]; vm_compute; reflexivity. }
  destruct (codegen_best_effort jsstring nat (lit "/") sample_options
              [lit "/proj/src/a.ts"; lit "/proj/src/b.ts"]
              (fun f => Some (OriginalSource f))
              (fun f => f)
              (fun _ symbol _ => symbol)
              (fun _ => Some (Some [(lit "AppComponent", false)]))
              (fun _ => [CodeGenerator.ComponentMetadata])
              (fun _ => None)
              (fun l => Normal (List.length l))
              (sample_compile [lit "/proj/src/a.ts"])
              (fun _ _ _ _ => None)
              sample_cannot_read_stack
              (fun l => l)
              (fun l => Permutation_refl l)
              (fun _ _ => eq_refl)
              0 eq_refl promise_of Hcompile) as [_ [Hwritten [Hfirst _]]].
  split.
  - exact (Hfirst [] (sample_meta (lit "/proj/src/a.ts"),
                      promise_of (sample_meta (lit "/proj/src/a.ts")))
             [(sample_meta (lit "/proj/src/b.ts"),
               promise_of (sample_meta (lit "/proj/src/b.ts")))]
             (CodeGenerator.ErrorObject
                {| CodeGenerator.message := lit "Cannot compile /proj/src/a.ts";
                   CodeGenerator.stack := lit "Error: Cannot compile /proj/src/a.ts" |})
             eq_refl (fun _ (H : False) => match H with end) eq_refl).
  - exact (Hwritten (sample_meta (lit "/proj/src/b.ts"))
             [{| CodeGenerator.moduleUrl := lit "/proj/src/b.ngfactory.ts";
                 CodeGenerator.source := lit "export const x = 1;" |}]
             (or_intror (or_introl eq_refl)) eq_refl eq_refl
             {| CodeGenerator.moduleUrl := lit "/proj/src/b.ngfactory.ts";
                CodeGenerator.source := lit "export const x = 1;" |}
             (or_introl eq_refl)).
Defined.

(** ** The code generator: the cast workaround *)

Lemma span_spec (p : code_unit -> bool) (s a b : jsstring) :
  span p s = (a, b) ->
  s = a ++ b /\ forallb p a = true
  /\ match b with [] => True | c :: _ => p c = false end.
Proof.
  revert a b; induction s as [|c s IH]; intros a b H; simpl in H.
  - inversion H; subst. repeat split.
  - destruct (p c) eqn:E.
    + destruct (span p s) as [a' b'] eqn:S. inversion H; subst.
      destruct (IH a' b eq_refl) as [-> [Ha Hb]].
      repeat split; [simpl; now rewrite E, Ha | exact Hb].
    + inversion H; subst. repeat split. exact E.
Qed.

Lemma span_all (p : code_unit -> bool) (a b : jsstring) :
  forallb p a = true ->
  span p (a ++ b) = (a ++ fst (span p b), snd (span p b)).
Proof.
  induction a as [|c a IH]; intros H; simpl in *.
  - now destruct (span p b).
  - apply andb_true_iff in H; destruct H as [Hc Ha].
    rewrite Hc, (IH Ha). reflexivity.
Qed.

Lemma span_stop (p : code_unit -> bool) (a : jsstring) (c : code_unit)
  (b : jsstring) :
  forallb p a = true -> p c = false -> span p (a ++ c :: b) = (a, c :: b).
Proof.
  intros Ha Hc. rewrite (span_all _ _ _ Ha). simpl. rewrite Hc. simpl.
  now rewrite app_nil_r.
Qed.

(** A stop inside the first part is a stop of the whole. *)
Lemma span_app_stop (p : code_unit -> bool) (a b : jsstring) :
  forallb p a = false ->
  span p (a ++ b) = (fst (span p a), snd (span p a) ++ b).
Proof.
  induction a as [|c a IH]; intros H; simpl in *; [discriminate|].
  destruct (p c) eqn:E; simpl in *.
  - rewrite (IH H). now destruct (span p a).
  - reflexivity.
Qed.

Lemma drop_prefix_app_cases (p d x v : jsstring) :
  drop_prefix p (d ++ x) = Some v ->
  (exists d', drop_prefix p d = Some d' /\ v = d' ++ x)
  \/ (exists p2, p = d ++ p2 /\ p2 <> [] /\ drop_prefix p2 x = Some v).
Proof.
  revert d; induction p as [|a p IH]; intros d H.
  - left. exists d. simpl in *. inversion H. now split.
  - destruct d as [|b d].
    + right. exists (a :: p). repeat split; [discriminate | exact H].
    + simpl in H. destruct (unit_eqb a b) eqn:E; [|discriminate].
      apply unit_eqb_eq in E; subst b.
      destruct (IH d H) as [[d' [Hd ->]]|[p2 [-> [Hp2 Hx]]]].
      * left. exists d'. simpl. now rewrite unit_eqb_refl.
      * right. exists p2. now repeat split.
Qed.

Lemma starts_with_app (p v : jsstring) : starts_with p (p ++ v) = true.
Proof. unfold starts_with. now rewrite drop_prefix_app. Qed.

Lemma starts_with_spec (p s : jsstring) :
  starts_with p s = true -> exists v, s = p ++ v.
Proof.
  unfold starts_with. destruct (drop_prefix p s) as [v|] eqn:E; [|discriminate].
  intros _. exists v. now apply drop_prefix_spec.
Qed.

(** A prefix found in [d ++ c :: x] that [c] cannot belong to lies in [d]. *)
Lemma starts_with_before (p d : jsstring) (c : code_unit) (x : jsstring) :
  ~ In c p -> starts_with p (d ++ c :: x) = true -> starts_with p d = true.
Proof.
  intros Hc H. unfold starts_with in *.
  destruct (drop_prefix p (d ++ c :: x)) as [v|] eqn:E; [|discriminate].
  destruct (drop_prefix_app_cases _ _ _ _ E) as [[d' [-> _]]|[p2 [-> [Hp2 Hx]]]].
  - reflexivity.
  - exfalso. destruct p2 as [|a p2]; [congruence|].
    simpl in Hx. destruct (unit_eqb a c) eqn:Eac; [|discriminate].
    apply unit_eqb_eq in Eac; subst a. apply Hc. apply in_or_app; right; now left.
Qed.

Lemma starts_with_extend (p d x : jsstring) :
  starts_with p d = true -> starts_with p (d ++ x) = true.
Proof.
  intros H. destruct (starts_with_spec _ _ H) as [v ->].
  rewrite <- app_assoc. apply starts_with_app.
Qed.

Lemma expand_no_dollar (matched before after r : jsstring) :
  no_dollar r = true -> CodeGenerator.expand matched before after r = r.
Proof.
  unfold no_dollar. induction r as [|c r IH]; intros H; simpl in *; [reflexivity|].
  apply andb_true_iff in H; destruct H as [Hc Hr].
  apply negb_true_iff in Hc. rewrite Hc. now rewrite (IH Hr).
Qed.

Lemma no_dollar_app (a b : jsstring) :
  no_dollar (a ++ b) = no_dollar a && no_dollar b.
Proof. apply forallb_app. Qed.

Lemma no_dollar_pattern_cons (c : code_unit) (r : jsstring) :
  no_dollar_pattern (c :: r)
  = (if unit_eqb c (ch "$")
     then match r with
          | d :: _ => negb (is_dollar_pattern d)
          | [] => true
          end
     else true)
    && no_dollar_pattern r.
Proof. reflexivity. Qed.

(** A replacement text without patterns is put in as it is. *)
Lemma expand_no_dollar_pattern (matched before after r : jsstring) :
  no_dollar_pattern r = true -> CodeGenerator.expand matched before after r = r.
Proof.
  induction r as [|c r IH]; intros H; [reflexivity|].
  rewrite no_dollar_pattern_cons in H. apply andb_true_iff in H.
  destruct H as [Hc Hr]. cbn [CodeGenerator.expand].
  destruct (unit_eqb c (ch "$")).
  - destruct r as [|d r']; [reflexivity|].
    apply negb_true_iff in Hc. unfold is_dollar_pattern in Hc.
    apply orb_false_iff in Hc. destruct Hc as [Hc H4].
    apply orb_false_iff in Hc. destruct Hc as [Hc H3].
    apply orb_false_iff in Hc. destruct Hc as [H1 H2].
    rewrite H1, H2, H3, H4. now rewrite (IH Hr).
  - now rewrite (IH Hr).
Qed.

Lemma no_dollar_no_pattern (s : jsstring) :
  no_dollar s = true -> no_dollar_pattern s = true.
Proof.
  unfold no_dollar. induction s as [|c s IH]; intros H; [reflexivity|].
  cbn [forallb] in H. apply andb_true_iff in H. destruct H as [Hc Hs].
  apply negb_true_iff in Hc. rewrite no_dollar_pattern_cons, Hc. now apply IH.
Qed.

(** What follows a text without patterns, and starts with no unit of a
    pattern, adds none. *)
Lemma no_dollar_pattern_app (a b : jsstring) :
  no_dollar_pattern a = true -> no_dollar_pattern b = true ->
  match b with d :: _ => is_dollar_pattern d = false | [] => True end ->
  no_dollar_pattern (a ++ b) = true.
Proof.
  intros Ha Hb Hhead. induction a as [|c a IH]; [exact Hb|].
  rewrite no_dollar_pattern_cons in Ha. apply andb_true_iff in Ha.
  destruct Ha as [Hc Ha]. cbn [app]. rewrite no_dollar_pattern_cons.
  rewrite (IH Ha), andb_true_r.
  destruct (unit_eqb c (ch "$")); [|reflexivity].
  destruct a as [|d a]; [|exact Hc].
  cbn [app]. destruct b as [|d b]; [reflexivity|]. now rewrite Hhead.
Qed.

(** A text without a dollar sign changes nothing before another. *)
Lemma no_dollar_pattern_after (a b : jsstring) :
  no_dollar a = true -> no_dollar_pattern (a ++ b) = no_dollar_pattern b.
Proof.
  unfold no_dollar. induction a as [|c a IH]; intros H; [reflexivity|].
  cbn [forallb] in H. apply andb_true_iff in H. destruct H as [Hc Ha].
  apply negb_true_iff in Hc. cbn [app].
  rewrite no_dollar_pattern_cons, Hc. now apply IH.
Qed.

Lemma no_dollar_pattern_suffix (a b : jsstring) :
  no_dollar_pattern (a ++ b) = true -> no_dollar_pattern b = true.
Proof.
  induction a as [|c a IH]; intros H; [exact H|].
  cbn [app] in H. rewrite no_dollar_pattern_cons in H.
  apply andb_true_iff in H. destruct H as [_ H]. now apply IH.
Qed.

(** The first occurrence of [m] in [D ++ m ++ rest] is the one shown when
    [m] starts nowhere in [D]. *)
Lemma find_sub_unfold (pat s : jsstring) :
  find_sub pat s
  = match drop_prefix pat s with
    | Some rest => Some ([], rest)
    | None =>
        match s with
        | [] => None
        | c :: s' =>
            match find_sub pat s' with
            | Some (before, rest) => Some (c :: before, rest)
            | None => None
            end
        end
    end.
Proof. destruct s; reflexivity. Qed.

Lemma find_sub_first (m D rest : jsstring) :
  (forall a d, D = a ++ d -> d <> [] -> starts_with m (d ++ m ++ rest) = false) ->
  find_sub m (D ++ m ++ rest) = Some (D, rest).
Proof.
  induction D as [|c D IH]; intros H.
  - rewrite find_sub_unfold. simpl. now rewrite drop_prefix_app.
  - assert (H0 : starts_with m ((c :: D) ++ m ++ rest) = false)
      by (apply (H [] (c :: D)); [reflexivity | discriminate]).
    unfold starts_with in H0.
    rewrite find_sub_unfold.
    destruct (drop_prefix m ((c :: D) ++ m ++ rest)); [discriminate|].
    change (match find_sub m (D ++ m ++ rest) with
            | Some (before, rest0) => Some (c :: before, rest0)
            | None => None
            end = Some (c :: D, rest)).
    rewrite IH; [reflexivity|].
    intros a d -> Hd. apply (H (c :: a) d); [reflexivity | exact Hd].
Qed.

Section CastWorkaround.

Import CodeGenerator CastSpec.

Variable chain : jsstring.

Lemma error_here_spec (s m : jsstring) :
  error_here chain s = Some m ->
  exists member rest,
    s = chain ++ lit "." ++ member ++ lit ".transform" ++ rest
    /\ member <> [] /\ forallb not_dot member = true
    /\ m = chain ++ lit "." ++ member ++ lit ".transform".
Proof.
  unfold error_here. intros H.
  destruct (drop_prefix (chain ++ lit ".") s) as [s1|] eqn:E1; [|discriminate].
  destruct (span not_dot s1) as [member s2] eqn:E2.
  destruct (is_empty member) eqn:E3; [discriminate|].
  destruct (starts_with (lit ".transform") s2) eqn:E4; [|discriminate].
  inversion H; subst m; clear H.
  apply drop_prefix_spec in E1.
  destruct (span_spec _ _ _ _ E2) as [-> [Hm _]].
  destruct (starts_with_spec _ _ E4) as [rest ->].
  exists member, rest. repeat split.
  - rewrite E1, <- !app_assoc. reflexivity.
  - intros ->. discriminate.
  - exact Hm.
Qed.

Lemma error_here_complete (member rest : jsstring) :
  member <> [] -> forallb not_dot member = true ->
  error_here chain (chain ++ lit "." ++ member ++ lit ".transform" ++ rest)
  = Some (chain ++ lit "." ++ member ++ lit ".transform").
Proof.
  intros Hne Hm. unfold error_here.
  rewrite (app_assoc chain (lit ".")), drop_prefix_app.
  change (lit ".transform" ++ rest) with (ch "." :: lit "transform" ++ rest).
  rewrite (span_stop not_dot member (ch ".") _ Hm eq_refl).
  destruct member; [congruence|]. reflexivity.
Qed.

Lemma error_here_occurrence (s : jsstring) :
  occurrence_at chain s <-> error_here chain s <> None.
Proof.
  split.
  - intros [member [rest [-> [Hne Hm]]]].
    now rewrite (error_here_complete _ rest Hne Hm).
  - intros H. destruct (error_here chain s) as [m|] eqn:E; [|congruence].
    destruct (error_here_spec _ _ E) as [member [rest [-> [Hne [Hm _]]]]].
    now exists member, rest.
Qed.

(** A text that starts with a matched text is matched again, as that text. *)
Lemma error_here_again (s m x : jsstring) :
  error_here chain s = Some m -> error_here chain (m ++ x) = Some m.
Proof.
  intros H. destruct (error_here_spec _ _ H) as [member [rest [_ [Hne [Hm ->]]]]].
  rewrite <- !app_assoc. now apply error_here_complete.
Qed.

Lemma match_all_skip (a s : jsstring) :
  match_all chain (List.length a) (a ++ s) = match_all chain 0 s.
Proof. induction a as [|c a IH]; [reflexivity | exact IH]. Qed.

Lemma match_all_miss (c : code_unit) (s : jsstring) :
  error_here chain (c :: s) = None ->
  match_all chain 0 (c :: s) = match_all chain 0 s.
Proof. intros H. simpl. now rewrite H. Qed.

Lemma match_all_hit (m rest : jsstring) :
  error_here chain (m ++ rest) = Some m ->
  match_all chain 0 (m ++ rest) = m :: match_all chain 0 rest.
Proof.
  intros H. destruct m as [|c m].
  - destruct (error_here_spec _ _ H) as [member [r [_ [_ [_ Hm]]]]].
    destruct chain; discriminate Hm.
  - change ((c :: m) ++ rest) with (c :: m ++ rest) in *.
    cbn [match_all]. rewrite H.
    change (List.length (c :: m) - 1) with (List.length m - 0).
    now rewrite Nat.sub_0_r, match_all_skip.
Qed.

End CastWorkaround.

Lemma skipn_length_app (A : Type) (a d : list A) : skipn (List.length a) (a ++ d) = d.
Proof. induction a as [|x a IH]; [reflexivity | exact IH]. Qed.

Lemma drop_prefix_extend (p d d' x : jsstring) :
  drop_prefix p d = Some d' -> drop_prefix p (d ++ x) = Some (d' ++ x).
Proof.
  intros H. apply drop_prefix_spec in H. subst d.
  rewrite <- app_assoc. apply drop_prefix_app.
Qed.

Lemma find_sub_none (p s : jsstring) :
  find_sub p s = None -> forall a b, s <> a ++ p ++ b.
Proof.
  intros H a; revert s H; induction a as [|c a IH]; intros s H b E; subst s.
  - rewrite find_sub_unfold in H. simpl in H.
    now rewrite drop_prefix_app in H.
  - rewrite find_sub_unfold in H.
    destruct (drop_prefix p ((c :: a) ++ p ++ b)); [discriminate|].
    cbn [app] in H.
    destruct (find_sub p (a ++ p ++ b)) as [[x y]|] eqn:F; [discriminate|].
    exact (IH _ F b eq_refl).
Qed.

Section Rewriting.

Import CodeGenerator CastSpec.

Variables chain T : jsstring.

(** What the proofs use of the chain; [this.parent] and
    [this.parent.parent] both have it, by evaluation. *)
Hypothesis chain_no_paren : ~ In (ch "(") (chain ++ lit ".").
Hypothesis chain_no_gt : ~ In (ch ">") (chain ++ lit ".").
Hypothesis chain_first_dot :
  forall v, starts_with (lit ".transform")
              (snd (span not_dot (chain ++ lit "." ++ v))) = false.
Hypothesis chain_quiet_open :
  forall k X, k < 2 -> error_here chain (skipn k (lit "(<") ++ X) = None.
Hypothesis chain_quiet_close :
  forall k X, k < 14 ->
    error_here chain (skipn k (lit ">this.parent).") ++ X) = None.
Hypothesis chain_quiet_transform :
  forall k X, k < 10 -> error_here chain (skipn k (lit ".transform") ++ X) = None.

(** What they use of the text of the cast. *)
Hypothesis T_no_transform : find_sub (lit ".transform") T = None.
Hypothesis T_no_dollar_pattern : no_dollar_pattern T = true.

Let quiet := CastWorkaround.quiet chain.
Let replacement := CastWorkaround.replacement T.
Let step := CastWorkaround.step chain T.

Lemma quiet_app (L1 L2 X : jsstring) :
  quiet L1 (L2 ++ X) -> quiet L2 X -> quiet (L1 ++ L2) X.
Proof.
  intros H1 H2 a d E Hd.
  apply app_eq_app in E. destruct E as [l [[-> ->]|[-> ->]]].
  - destruct l as [|x l].
    + apply (H2 [] L2); [reflexivity | exact Hd].
    + rewrite <- app_assoc. apply (H1 a (x :: l)); [reflexivity | discriminate].
  - apply (H2 l d); [reflexivity | exact Hd].
Qed.

Lemma quiet_of_index (L X : jsstring) :
  (forall k, k < List.length L -> error_here chain (skipn k L ++ X) = None) ->
  quiet L X.
Proof.
  intros H a d -> Hd.
  specialize (H (List.length a)). rewrite skipn_length_app in H. apply H.
  rewrite length_app. destruct d; [congruence | simpl; lia].
Qed.

(** A match that starts in [d] and is still there when the text after [d]
    is replaced by one its literals cannot reach into. *)
Lemma hit_change (d X : jsstring) (c0 : code_unit) (tl : jsstring) :
  ~ In c0 (chain ++ lit ".") -> ~ In c0 (lit ".transform") ->
  starts_with (lit ".transform") (snd (span not_dot (c0 :: tl))) = false ->
  error_here chain (d ++ c0 :: tl) <> None ->
  error_here chain (d ++ X) <> None.
Proof.
  intros Hc Ht Hs. unfold error_here.
  destruct (drop_prefix (chain ++ lit ".") (d ++ c0 :: tl)) as [v|] eqn:E1;
    [|congruence].
  destruct (drop_prefix_app_cases _ _ _ _ E1) as [[d' [Hd ->]]|[p2 [Hp [Hp2 Hx]]]].
  - rewrite (drop_prefix_extend _ _ _ X Hd).
    destruct (forallb not_dot d') eqn:Fd.
    + rewrite (span_all _ _ (c0 :: tl) Fd).
      destruct (is_empty (d' ++ fst (span not_dot (c0 :: tl)))); [congruence|].
      rewrite Hs. congruence.
    + rewrite !(span_app_stop _ _ _ Fd).
      destruct (is_empty (fst (span not_dot d'))); [congruence|].
      destruct (starts_with (lit ".transform") (snd (span not_dot d') ++ c0 :: tl))
        eqn:S; [|congruence].
      apply starts_with_before in S; [|exact Ht].
      rewrite (starts_with_extend _ _ X S). congruence.
  - exfalso. destruct p2 as [|a p2]; [congruence|].
    simpl in Hx. destruct (unit_eqb a c0) eqn:Eac; [|discriminate].
    apply unit_eqb_eq in Eac; subst a. apply Hc. rewrite Hp.
    apply in_or_app; right; now left.
Qed.

Lemma no_transform_tail (c : code_unit) (t : jsstring) :
  (forall a b, c :: t <> a ++ lit ".transform" ++ b) ->
  forall a b, t <> a ++ lit ".transform" ++ b.
Proof. intros H a b ->. exact (H (c :: a) b eq_refl). Qed.

(** After the first dot of [t ++ >this.parent). ...] no [transform] comes,
    when [t] holds no [.transform]. *)
Lemma first_dot_after (t Z : jsstring) :
  (forall a b, t <> a ++ lit ".transform" ++ b) ->
  starts_with (lit ".transform")
    (snd (span not_dot (t ++ lit ">this.parent)." ++ Z))) = false.
Proof.
  induction t as [|c t IH]; intros H.
  - reflexivity.
  - change ((c :: t) ++ lit ">this.parent)." ++ Z)
      with (c :: t ++ lit ">this.parent)." ++ Z).
    cbn [span]. destruct (not_dot c) eqn:E.
    + destruct (span not_dot (t ++ lit ">this.parent)." ++ Z)) as [a b] eqn:S.
      cbn [snd] in *. apply IH. exact (no_transform_tail _ _ H).
    + cbn [snd].
      destruct (starts_with (lit ".transform") (c :: t ++ lit ">this.parent)." ++ Z))
        eqn:S; [|reflexivity].
      exfalso.
      change (c :: t ++ lit ">this.parent)." ++ Z)
        with ((c :: t) ++ ch ">" :: lit "this.parent)." ++ Z) in S.
      apply starts_with_before in S.
      * destruct (starts_with_spec _ _ S) as [v Hv].
        exact (H [] v Hv).
      * cbv. intuition discriminate.
Qed.

Lemma quiet_cast (X : jsstring) : quiet T (lit ">this.parent)." ++ X).
Proof.
  intros a d -> Hd.
  destruct (error_here chain (d ++ lit ">this.parent)." ++ X)) as [m|] eqn:E;
    [|reflexivity].
  exfalso.
  assert (H : error_here chain (d ++ []) <> None).
  { apply (hit_change d [] (ch ">") (lit "this.parent)." ++ X)).
    - exact chain_no_gt.
    - cbv. intuition discriminate.
    - reflexivity.
    - change (ch ">" :: lit "this.parent)." ++ X) with (lit ">this.parent)." ++ X).
      rewrite E. discriminate. }
  rewrite app_nil_r in H.
  apply error_here_occurrence in H.
  destruct H as [member [rest [-> _]]].
  apply (find_sub_none _ _ T_no_transform (a ++ chain ++ lit "." ++ member) rest).
  now rewrite <- !app_assoc.
Qed.


Lemma quiet_member (member X : jsstring) :
  forallb not_dot member = true -> quiet member (lit ".transform" ++ X).
Proof.
  intros Hm a d -> Hd.
  rewrite forallb_app in Hm. apply andb_true_iff in Hm. destruct Hm as [_ Hdot].
  unfold error_here.
  destruct (drop_prefix (chain ++ lit ".") (d ++ lit ".transform" ++ X))
    as [v|] eqn:E; [|reflexivity].
  exfalso. apply drop_prefix_spec in E.
  pose proof (chain_first_dot v) as F.
  rewrite app_assoc, <- E in F.
  change (lit ".transform" ++ X) with (ch "." :: lit "transform" ++ X) in F.
  rewrite (span_stop not_dot d (ch ".") _ Hdot eq_refl) in F.
  discriminate F.
Qed.

Lemma quiet_replacement (member X : jsstring) :
  forallb not_dot member = true -> quiet (replacement member) X.
Proof.
  intros Hm. unfold replacement, CastWorkaround.replacement.
  apply quiet_app.
  - apply quiet_of_index. intros k Hk. now apply chain_quiet_open.
  - apply quiet_app.
    + rewrite <- !app_assoc. apply quiet_cast.
    + apply quiet_app.
      * apply quiet_of_index. intros k Hk. now apply chain_quiet_close.
      * apply quiet_app.
        -- now apply quiet_member.
        -- apply quiet_of_index. intros k Hk. now apply chain_quiet_transform.
Qed.

(** Putting the replacement after [D] starts no match inside [D]. *)
Lemma quiet_before_replacement (D X member rest : jsstring) :
  quiet D X -> quiet D (replacement member ++ rest).
Proof.
  intros H a d E Hd.
  destruct (error_here chain (d ++ replacement member ++ rest)) as [m|] eqn:Em;
    [|reflexivity].
  exfalso. apply (hit_change d X (ch "(")
                    (lit "<" ++ T ++ lit ">this.parent)." ++ member
                     ++ lit ".transform" ++ rest)).
  - exact chain_no_paren.
  - cbv. intuition discriminate.
  - change (ch "(" :: lit "<" ++ T ++ lit ">this.parent)." ++ member
            ++ lit ".transform" ++ rest)
      with (lit "(<" ++ T ++ lit ">this.parent)." ++ member
            ++ lit ".transform" ++ rest).
    rewrite (span_all not_dot (lit "(<") _ eq_refl). cbn [snd].
    apply first_dot_after. now apply find_sub_none.
  - change (ch "(" :: lit "<" ++ T ++ lit ">this.parent)." ++ member
            ++ lit ".transform" ++ rest)
      with (lit "(<" ++ (T ++ lit ">this.parent)." ++ member
            ++ lit ".transform" ++ rest)).
    unfold replacement, CastWorkaround.replacement in Em. rewrite <- !app_assoc in Em.
    rewrite Em. discriminate.
  - exact (H a d E Hd).
Qed.

Lemma step_at_match (D member rest : jsstring) :
  member <> [] -> forallb not_dot member = true ->
  no_dollar_pattern (chain ++ lit "." ++ member ++ lit ".transform") = true ->
  quiet D ((chain ++ lit "." ++ member ++ lit ".transform") ++ rest) ->
  step (D ++ (chain ++ lit "." ++ member ++ lit ".transform") ++ rest)
       (chain ++ lit "." ++ member ++ lit ".transform")
  = (D ++ replacement member) ++ rest.
Proof.
  intros Hne Hm Hdollar Hq. unfold step, CastWorkaround.step, replace.
  set (m := chain ++ lit "." ++ member ++ lit ".transform") in *.
  rewrite find_sub_first.
  - assert (Hs : substr_from (List.length chain) m
                 = lit "." ++ member ++ lit ".transform")
      by apply skipn_length_app.
    rewrite Hs, expand_no_dollar_pattern.
    + unfold replacement, CastWorkaround.replacement. rewrite <- !app_assoc. reflexivity.
    + rewrite (no_dollar_pattern_after (lit "(<")) by reflexivity.
      apply no_dollar_pattern_app; [exact T_no_dollar_pattern| |exact eq_refl].
      rewrite (no_dollar_pattern_after (lit ">this.parent)")) by reflexivity.
      subst m. exact (no_dollar_pattern_suffix chain _ Hdollar).
  - intros a d E Hd.
    destruct (starts_with m (d ++ m ++ rest)) eqn:S; [|reflexivity].
    exfalso. destruct (starts_with_spec _ _ S) as [v Hv].
    pose proof (Hq a d E Hd) as Hnone. rewrite Hv in Hnone.
    subst m. rewrite <- !app_assoc in Hnone.
    rewrite (error_here_complete chain member v Hne Hm) in Hnone. discriminate.
Qed.

Lemma fold_rewrites (n : nat) :
  forall s D, List.length s <= n -> quiet D s ->
    forallb no_dollar_pattern (match_all chain 0 s) = true ->
    exists out,
      fold_left step (match_all chain 0 s) (D ++ s) = D ++ out
      /\ rewritten chain (lit "this.parent") T s out.
Proof.
  induction n as [|n IH]; intros s D Hlen Hq Hdollar.
  - destruct s; [|simpl in Hlen; lia].
    exists []. split; [reflexivity | constructor].
  - destruct s as [|c s].
    + exists []. split; [reflexivity | constructor].
    + destruct (error_here chain (c :: s)) as [m|] eqn:E.
      * destruct (error_here_spec _ _ _ E) as [member [rest [Hs [Hne [Hm ->]]]]].
        set (m := chain ++ lit "." ++ member ++ lit ".transform") in *.
        assert (Hs' : c :: s = m ++ rest)
          by (rewrite Hs; subst m; now rewrite <- !app_assoc).
        rewrite Hs' in *.
        rewrite (match_all_hit chain m rest E) in Hdollar.
        cbn [forallb] in Hdollar. apply andb_true_iff in Hdollar.
        destruct Hdollar as [Hdm Hdr].
        rewrite (match_all_hit chain m rest E). cbn [fold_left].
        subst m. rewrite (step_at_match D member rest Hne Hm Hdm Hq).
        destruct (IH rest (D ++ replacement member)) as [out [Hf Hr]].
        -- rewrite length_app in Hlen.
           assert (0 < List.length (chain ++ lit "." ++ member ++ lit ".transform")).
           { rewrite !length_app. destruct member; [congruence | simpl; lia]. }
           lia.
        -- apply quiet_app.
           ++ now apply (quiet_before_replacement D _ member rest Hq).
           ++ now apply quiet_replacement.
        -- exact Hdr.
        -- exists (replacement member ++ out). split.
           ++ rewrite Hf. now rewrite <- app_assoc.
           ++ rewrite <- !app_assoc. unfold replacement, CastWorkaround.replacement.
              rewrite <- !app_assoc.
              change (lit ">this.parent)." ++ member ++ lit ".transform" ++ out)
                with (lit ">" ++ lit "this.parent" ++ lit ")." ++ member
                      ++ lit ".transform" ++ out).
              now constructor.
      * rewrite (match_all_miss chain c s E).
        destruct (IH s (D ++ [c])) as [out [Hf Hr]].
        -- simpl in Hlen. lia.
        -- apply quiet_app.
           ++ exact Hq.
           ++ intros a d Ea Hd. destruct a as [|x a].
              ** simpl in Ea. subst d. exact E.
              ** destruct a; destruct d; try discriminate Ea; congruence.
        -- now rewrite (match_all_miss chain c s E) in Hdollar.
        -- exists (c :: out). split.
           ++ rewrite <- !app_assoc in Hf. exact Hf.
           ++ constructor; [|exact Hr].
              intros Ho. apply error_here_occurrence in Ho. congruence.
Qed.

(** The block of [codegen] for [chain], once a cast is found: every match is
    replaced, from left to right. *)
Lemma fix_chain_rewrites (src : jsstring) :
  cast_exec chain src = Some T ->
  forallb no_dollar_pattern (match_all chain 0 src) = true ->
  rewritten chain (lit "this.parent") T src
    (fix_chain chain (List.length chain) src).
Proof.
  intros Hc Hd.
  destruct (fold_rewrites (List.length src) src [] (le_n _)) as [out [Hf Hr]].
  - intros a d E Hnil. destruct a; simpl in E; [subst d; congruence | discriminate].
  - exact Hd.
  - assert (Hfix : fix_chain chain (List.length chain) src
                   = fold_left step (match_all chain 0 src) src).
    { unfold fix_chain. rewrite Hc.
      destruct (match_all chain 0 src); reflexivity. }
    rewrite Hfix. simpl in Hf. rewrite Hf. exact Hr.
Qed.

End Rewriting.

Section CastWorkaroundSound.

Import CodeGenerator CastSpec.

Variable chain : jsstring.

Lemma match_all_occurs (s : jsstring) :
  forall skip m, In m (match_all chain skip s) -> occurs chain s.
Proof.
  induction s as [|c s IH]; intros skip m H; [destruct H|].
  assert (Hlater : forall k, In m (match_all chain k s) -> occurs chain (c :: s)).
  { intros k Hk. destruct (IH k m Hk) as [before [after [-> Ho]]].
    now exists (c :: before), after. }
  cbn [match_all] in H. destruct skip as [|k]; [|exact (Hlater _ H)].
  destruct (error_here chain (c :: s)) as [m0|] eqn:E; [|exact (Hlater _ H)].
  destruct H as [_|H]; [|exact (Hlater _ H)].
  exists [], (c :: s). split; [reflexivity|].
  apply error_here_occurrence. congruence.
Qed.

Lemma lazy_until_unfold (literal s : jsstring) :
  lazy_until literal s
  = if starts_with literal s then Some []
    else match s with
         | c :: s' =>
             if any_but_newline c
             then match lazy_until literal s' with
                  | Some t => Some (c :: t)
                  | None => None
                  end
             else None
         | [] => None
         end.
Proof. destruct s; reflexivity. Qed.

Lemma lazy_until_spec (literal s t : jsstring) :
  lazy_until literal s = Some t ->
  exists after, s = t ++ literal ++ after /\ forallb any_but_newline t = true.
Proof.
  revert t; induction s as [|c s IH]; intros t H; rewrite lazy_until_unfold in H.
  - destruct (starts_with literal []) eqn:S; [|discriminate].
    inversion H; subst t. destruct (starts_with_spec _ _ S) as [v Hv].
    exists v. now split.
  - destruct (starts_with literal (c :: s)) eqn:S.
    + inversion H; subst t. destruct (starts_with_spec _ _ S) as [v Hv].
      exists v. now split.
    + destruct (any_but_newline c) eqn:N; [|discriminate].
      destruct (lazy_until literal s) as [t'|] eqn:L; [|discriminate].
      inversion H; subst t.
      destruct (IH t' eq_refl) as [after [-> Ht]].
      exists after. split; [reflexivity | simpl; now rewrite N, Ht].
Qed.

Lemma cast_exec_shape (s T : jsstring) :
  cast_exec chain s = Some T ->
  exists before after,
    s = before ++ lit "<" ++ T ++ lit ">" ++ chain ++ after
    /\ forallb any_but_newline T = true.
Proof.
  induction s as [|c s IH]; intros H; [discriminate|].
  cbn [cast_exec] in H.
  destruct (unit_eqb c (ch "<")) eqn:E.
  - destruct (lazy_until (lit ">" ++ chain) s) as [t|] eqn:L.
    + apply unit_eqb_eq in E; subst c. inversion H; subst t.
      destruct (lazy_until_spec _ _ _ L) as [after [-> Ht]].
      exists [], after. split; [|exact Ht].
      now rewrite <- !app_assoc.
    + destruct (IH H) as [before [after [-> Ht]]].
      now exists (c :: before), after.
  - destruct (IH H) as [before [after [-> Ht]]].
    now exists (c :: before), after.
Qed.

Lemma cast_exec_spec (s T : jsstring) :
  cast_exec chain s = Some T -> cast_occurs chain s.
Proof.
  intros H. destruct (cast_exec_shape _ _ H) as [before [after [Hs Ht]]].
  now exists before, T, after.
Qed.

Lemma cast_exec_no_dollar (s T : jsstring) :
  cast_exec chain s = Some T -> no_dollar s = true -> no_dollar T = true.
Proof.
  intros H Hs. destruct (cast_exec_shape _ _ H) as [before [after [-> _]]].
  rewrite !no_dollar_app in Hs.
  repeat (apply andb_true_iff in Hs; destruct Hs as [? Hs]).
  assumption.
Qed.

(** In a text without a dollar sign no match holds one. *)
Lemma match_all_no_dollar (s : jsstring) :
  no_dollar s = true ->
  forall skip, forallb no_dollar_pattern (match_all chain skip s) = true.
Proof.
  induction s as [|c s IH]; intros Hs skip; [reflexivity|].
  assert (Hs' : no_dollar s = true).
  { unfold no_dollar in *. cbn [forallb] in Hs.
    apply andb_true_iff in Hs. tauto. }
  cbn [match_all]. destruct skip as [|k]; [|exact (IH Hs' k)].
  destruct (error_here chain (c :: s)) as [m|] eqn:E; [|exact (IH Hs' 0)].
  cbn [forallb]. rewrite (IH Hs' _), andb_true_r.
  destruct (error_here_spec _ _ _ E) as [member [rest [Hcs [_ [_ Hm]]]]].
  apply no_dollar_no_pattern. rewrite Hcs in Hs. rewrite Hm.
  rewrite !no_dollar_app in Hs. rewrite !no_dollar_app.
  repeat (apply andb_true_iff in Hs; destruct Hs as [? Hs]).
  repeat (apply andb_true_iff; split); assumption.
Qed.

(** A block leaves alone a text in which its pattern does not occur, and
    one that holds no cast pattern. *)
Lemma fix_chain_unchanged (skipped : nat) (src : jsstring) :
  ~ occurs chain src \/ ~ cast_occurs chain src ->
  fix_chain chain skipped src = src.
Proof.
  intros H. unfold fix_chain.
  destruct (match_all chain 0 src) as [|m ms] eqn:M; [reflexivity|].
  destruct (cast_exec chain src) as [T|] eqn:C; [|reflexivity].
  exfalso. destruct H as [H|H]; apply H.
  - apply (match_all_occurs src 0 m). rewrite M. now left.
  - exact (cast_exec_spec _ _ C).
Qed.

End CastWorkaroundSound.

Ltac by_cases_below k :=
  repeat (destruct k as [|k]; [reflexivity|]); exfalso; simpl in *; lia.

(** The one-level block: every match becomes the cast of [this.parent]
    followed by the member and [.transform]. *)
Lemma fix_chain_one_level (src T : jsstring) :
  CodeGenerator.cast_exec (lit "this.parent") src = Some T ->
  find_sub (lit ".transform") T = None ->
  no_dollar_pattern T = true ->
  forallb no_dollar_pattern
    (CodeGenerator.match_all (lit "this.parent") 0 src) = true ->
  CastSpec.rewritten (lit "this.parent") (lit "this.parent") T src
    (CodeGenerator.fix_chain (lit "this.parent") 11 src).
Proof.
  intros Hc Ht Hd Hs.
  apply (fix_chain_rewrites (lit "this.parent") T); try assumption.
  - cbv. intuition discriminate.
  - cbv. intuition discriminate.
  - intros v. reflexivity.
  - intros k X Hk. by_cases_below k.
  - intros k X Hk. by_cases_below k.
  - intros k X Hk. by_cases_below k.
Qed.

(** X16: the two-level block does the same with [this.parent.parent], and the
    cast it writes is again one of [this.parent]. *)
Lemma fix_chain_two_level (src T : jsstring) :
  CodeGenerator.cast_exec (lit "this.parent.parent") src = Some T ->
  find_sub (lit ".transform") T = None ->
  no_dollar src = true ->
  CastSpec.rewritten (lit "this.parent.parent") (lit "this.parent") T src
    (CodeGenerator.fix_chain (lit "this.parent.parent") 18 src).
Proof.
  intros Hc Ht Hs.
  pose proof (no_dollar_no_pattern _ (cast_exec_no_dollar _ _ _ Hc Hs)) as Hd.
  pose proof (match_all_no_dollar (lit "this.parent.parent") src Hs 0) as Hm.
  apply (fix_chain_rewrites (lit "this.parent.parent") T); try assumption.
  - cbv. intuition discriminate.
  - cbv. intuition discriminate.
  - intros v. reflexivity.
  - intros k X Hk. by_cases_below k.
  - intros k X Hk. by_cases_below k.
  - intros k X Hk. by_cases_below k.
Qed.

Lemma write_generated_first (StaticSymbol : Type) (cwd : jsstring)
  (options : CodeGenerator.AngularCompilerOptions)
  (program_getSourceFile : jsstring -> option SourceFile)
  (host_writeFile :
     jsstring -> jsstring -> bool -> list (option SourceFile) ->
     option CodeGenerator.thrown_value)
  (fileMeta : CodeGenerator.FileMetadata StaticSymbol)
  (generatedModule : CodeGenerator.GeneratedModule)
  (rest : list CodeGenerator.GeneratedModule) :
  In (CodeGenerator.HostWriteFile
        (snd (CodeGenerator.calculateEmitPath cwd options
                (CodeGenerator.moduleUrl generatedModule)))
        (CodeGenerator.PREAMBLE
         ++ CodeGenerator.fix_source (CodeGenerator.source generatedModule))
        false [program_getSourceFile (CodeGenerator.fileUrl fileMeta)])
     (fst (CodeGenerator.write_generated cwd options program_getSourceFile
             host_writeFile fileMeta (generatedModule :: rest))).
Proof.
  cbn [CodeGenerator.write_generated].
  destruct (CodeGenerator.calculateEmitPath cwd options
              (CodeGenerator.moduleUrl generatedModule)) as [logged emitPath].
  destruct (host_writeFile emitPath _ false _) as [e|].
  - cbn [fst snd]. apply in_or_app; right. now left.
  - destruct (CodeGenerator.write_generated cwd options program_getSourceFile
                host_writeFile fileMeta rest) as [evs c].
    cbn [fst snd]. apply in_or_app; right. now left.
Qed.

(** C6, as the claim states it, fails, in three ways.  In the first text the
    one occurrence of the pattern starts the text, so that no cast pattern
    precedes it, and the two-level pattern does not occur; the text is
    rewritten all the same, with the cast found after the occurrence.  In
    the second text a cast pattern precedes the one occurrence, and the type
    of the cast and the member both hold two dollar signs in a row; the text
    put in their place holds one dollar sign in each, so that what is written
    is the cast of neither that type nor that member.  In the third text the
    type of the cast holds an occurrence itself: the two replacements both
    land inside the cast, and the occurrence that follows the cast is
    written as it was. *)
Lemma cast_not_as_described :
  (CodeGenerator.match_all (lit "this.parent") 0
     (lit "this.parent._pipe_p.transform(x); (<View_A0>this.parent).ctx")
   = [lit "this.parent._pipe_p.transform"]
   /\ starts_with (lit "this.parent._pipe_p.transform")
        (lit "this.parent._pipe_p.transform(x); (<View_A0>this.parent).ctx") = true
   /\ CodeGenerator.match_all (lit "this.parent.parent") 0
        (lit "this.parent._pipe_p.transform(x); (<View_A0>this.parent).ctx") = []
   /\ CodeGenerator.fix_source
        (lit "this.parent._pipe_p.transform(x); (<View_A0>this.parent).ctx")
      = lit "(<View_A0>this.parent)._pipe_p.transform(x); (<View_A0>this.parent).ctx"
   /\ CodeGenerator.fix_source
        (lit "this.parent._pipe_p.transform(x); (<View_A0>this.parent).ctx")
      <> lit "this.parent._pipe_p.transform(x); (<View_A0>this.parent).ctx")
  /\ (CodeGenerator.cast_exec (lit "this.parent")
        (lit "(<View$$0>this.parent).ctx; this.parent._pipe$$p.transform(x)")
      = Some (lit "View$$0")
      /\ CodeGenerator.match_all (lit "this.parent") 0
           (lit "(<View$$0>this.parent).ctx; this.parent._pipe$$p.transform(x)")
         = [lit "this.parent._pipe$$p.transform"]
      /\ CodeGenerator.match_all (lit "this.parent.parent") 0
           (lit "(<View$$0>this.parent).ctx; this.parent._pipe$$p.transform(x)") = []
      /\ CodeGenerator.fix_source
           (lit "(<View$$0>this.parent).ctx; this.parent._pipe$$p.transform(x)")
         = lit "(<View$$0>this.parent).ctx; (<View$0>this.parent)._pipe$p.transform(x)"
      /\ CodeGenerator.fix_source
           (lit "(<View$$0>this.parent).ctx; this.parent._pipe$$p.transform(x)")
         <> lit "(<View$$0>this.parent).ctx; (<View$$0>this.parent)._pipe$$p.transform(x)")
  /\ (CodeGenerator.cast_exec (lit "this.parent")
        (lit "(<A<this.parent.p.transform>this.parent).x; this.parent.p.transform(1)")
      = Some (lit "A<this.parent.p.transform")
      /\ CodeGenerator.match_all (lit "this.parent") 0
           (lit "(<A<this.parent.p.transform>this.parent).x; this.parent.p.transform(1)")
         = [lit "this.parent.p.transform"; lit "this.parent.p.transform"]
      /\ CodeGenerator.fix_source
           (lit "(<A<this.parent.p.transform>this.parent).x; this.parent.p.transform(1)")
         = lit "(<A<(<A<(<A<this.parent.p.transform>this.parent).p.transform>this.parent).p.transform>this.parent).x; "
           ++ lit "this.parent.p.transform(1)").
Proof.
  repeat split; try (vm_compute; reflexivity); vm_compute; discriminate.
Qed.

(** C6 (amended): what is written for a generated module is the preamble
    followed by [fix_source] of its source.  A text in which neither pattern
    occurs, or that holds no cast pattern for the patterns that occur, is
    left as it is.  When the text holds a cast pattern [<T>this.parent],
    before or after the occurrences, [T] being the text of the first one,
    when [T] holds no [.transform], and when neither [T] nor an occurrence
    matched holds a dollar sign followed by a dollar sign, an ampersand, a
    backquote or a quote, the first block replaces every occurrence of
    [this.parent.<member>.transform] by [(<T>this.parent).<member>.transform]
    and keeps every other unit, dollar signs included; that is the text
    written when the second block finds nothing to do in it. *)
Theorem cast_workaround (src : jsstring) :
  (forall (StaticSymbol : Type) cwd options program_getSourceFile host_writeFile
          (fileMeta : CodeGenerator.FileMetadata StaticSymbol) moduleUrl rest,
      In (CodeGenerator.HostWriteFile
            (snd (CodeGenerator.calculateEmitPath cwd options moduleUrl))
            (CodeGenerator.PREAMBLE ++ CodeGenerator.fix_source src)
            false [program_getSourceFile (CodeGenerator.fileUrl fileMeta)])
         (fst (CodeGenerator.write_generated cwd options program_getSourceFile
                 host_writeFile fileMeta
                 ({| CodeGenerator.moduleUrl := moduleUrl;
                     CodeGenerator.source := src |} :: rest))))
  /\ ((~ CastSpec.occurs (lit "this.parent") src
       \/ ~ CastSpec.cast_occurs (lit "this.parent") src) ->
      (~ CastSpec.occurs (lit "this.parent.parent") src
       \/ ~ CastSpec.cast_occurs (lit "this.parent.parent") src) ->
      CodeGenerator.fix_source src = src)
  /\ (forall T,
        CodeGenerator.cast_exec (lit "this.parent") src = Some T ->
        find_sub (lit ".transform") T = None ->
        no_dollar_pattern T = true ->
        forallb no_dollar_pattern
          (CodeGenerator.match_all (lit "this.parent") 0 src) = true ->
        CastSpec.rewritten (lit "this.parent") (lit "this.parent") T src
          (CodeGenerator.fix_chain (lit "this.parent") 11 src)
        /\ ((~ CastSpec.occurs (lit "this.parent.parent")
                 (CodeGenerator.fix_chain (lit "this.parent") 11 src)
             \/ ~ CastSpec.cast_occurs (lit "this.parent.parent")
                    (CodeGenerator.fix_chain (lit "this.parent") 11 src)) ->
            CodeGenerator.fix_source src
            = CodeGenerator.fix_chain (lit "this.parent") 11 src)).
Proof.
  split; [|split].
  - intros StaticSymbol cwd options getSF host_writeFile fileMeta moduleUrl rest.
    exact (write_generated_first StaticSymbol cwd options getSF host_writeFile fileMeta
             {| CodeGenerator.moduleUrl := moduleUrl;
                CodeGenerator.source := src |} rest).
  - intros H1 H2. unfold CodeGenerator.fix_source.
    rewrite (fix_chain_unchanged (lit "this.parent") 11 src H1).
    exact (fix_chain_unchanged (lit "this.parent.parent") 18 src H2).
  - intros T Hc Ht Hd Hs. split.
    + now apply fix_chain_one_level.
    + intros H2. unfold CodeGenerator.fix_source.
      exact (fix_chain_unchanged (lit "this.parent.parent") 18 _ H2).
Qed.

Lemma no_lt_no_cast (chain src : jsstring) :
  ~ In (ch "<") src -> ~ CastSpec.cast_occurs chain src.
Proof.
  intros H [before [T [after [-> _]]]]. apply H.
  apply in_or_app; right. now left.
Qed.

Lemma cast_workaround_witness :
  CodeGenerator.fix_source (lit "this.dirty = this.parent.ctx.transform(x);")
  = lit "this.dirty = this.parent.ctx.transform(x);"
  /\ CastSpec.rewritten (lit "this.parent") (lit "this.parent") (lit "View_A0")
       (lit "this.parent._pipe_p.transform($event); (<View_A0>this.parent).ctx$")
       (lit "(<View_A0>this.parent)._pipe_p.transform($event); (<View_A0>this.parent).ctx$").
Proof.
  split.
  - apply (proj1 (proj2 (cast_workaround
                           (lit "this.dirty = this.parent.ctx.transform(x);")))).
    + right. apply no_lt_no_cast. cbv. intuition discriminate.
    + right. apply no_lt_no_cast. cbv. intuition discriminate.
  - exact (proj1 (proj2 (proj2 (cast_workaround
             (lit "this.parent._pipe_p.transform($event); (<View_A0>this.parent).ctx$")))
             (lit "View_A0") eq_refl eq_refl eq_refl eq_refl)).
Defined.

(** The slip of the second block, on an example: the cast it writes is one
    of [this.parent], so that one [.parent] of the chain is lost, where the
    first block, below it, keeps the chain whole. *)
Lemma fix_source_two_level :
  CodeGenerator.fix_source
    (lit "(<View_A0>this.parent.parent).ctx; this.parent.parent._pipe_p.transform(x)")
  = lit "(<View_A0>this.parent.parent).ctx; (<View_A0>this.parent)._pipe_p.transform(x)"
  /\ CodeGenerator.fix_source
       (lit "(<View_A0>this.parent).ctx; this.parent._pipe_p.transform(x)")
     = lit "(<View_A0>this.parent).ctx; (<View_A0>this.parent)._pipe_p.transform(x)".
Proof. split; vm_compute; reflexivity. Qed.

(** ** More on the module namers *)

Lemma exec_unfold (head tail s : jsstring) :
  DistPattern.exec head tail s
  = match DistPattern.match_here head tail s with
    | Some m => Some m
    | None =>
        match s with
        | [] => None
        | c :: s' =>
            match DistPattern.exec head tail s' with
            | Some m =>
                Some {| DistPattern.before := c :: DistPattern.before m;
                        DistPattern.pkg := DistPattern.pkg m;
                        DistPattern.impt := DistPattern.impt m;
                        DistPattern.after := DistPattern.after m |}
            | None => None
            end
        end
    end.
Proof. destruct s; reflexivity. Qed.

(** A pattern whose head holds a slash matches nowhere in a text without
    slashes. *)
Lemma exec_no_slash (head tail s : jsstring) :
  In (ch "/") head -> ~ In (ch "/") s -> DistPattern.exec head tail s = None.
Proof.
  intros Hh. induction s as [|c s IH]; intros Hs; rewrite exec_unfold.
  - unfold DistPattern.match_here.
    destruct (drop_prefix head []) as [r|] eqn:E; [|reflexivity].
    apply drop_prefix_spec in E. destruct head; [destruct Hh | discriminate].
  - assert (Hm : DistPattern.match_here head tail (c :: s) = None).
    { unfold DistPattern.match_here.
      destruct (drop_prefix head (c :: s)) as [r|] eqn:E; [|reflexivity].
      exfalso. apply drop_prefix_spec in E. apply Hs. rewrite E.
      apply in_or_app. now left. }
    rewrite Hm, IH; [reflexivity|].
    intros H. apply Hs. now right.
Qed.

Lemma ident_part_not_slash (c : code_unit) :
  is_ident_part c = true -> c <> ch "/".
Proof. intros H ->. discriminate H. Qed.

Lemma identifier_units (s : jsstring) :
  matches_identifier s = true -> forallb is_ident_part s = true.
Proof.
  destruct s as [|c s]; [discriminate|]. simpl. intros H.
  apply andb_true_iff in H. destruct H as [Hc Hs].
  now rewrite (is_ident_start_part _ Hc), Hs.
Qed.

Lemma moduleName_identifier_fixed (s : jsstring) :
  matches_identifier s = true -> GoogModule.moduleName s = s.
Proof.
  intros H. pose proof (identifier_units _ H) as Hu.
  assert (H1 : GoogModule.replace_slashes s = s).
  { clear H. induction s as [|c s IH]; [reflexivity|].
    simpl in Hu. apply andb_true_iff in Hu. destruct Hu as [Hc Hs].
    unfold GoogModule.replace_slashes in *. cbn [map]. rewrite (IH Hs).
    destruct (unit_eqb c (ch "/")) eqn:E; [|reflexivity].
    apply unit_eqb_eq in E. now apply ident_part_not_slash in Hc. }
  assert (H2 : GoogModule.replace_leading s = s).
  { destruct s as [|c s]; [reflexivity|]. simpl in H.
    apply andb_true_iff in H. destruct H as [Hc _]. cbn. now rewrite Hc. }
  assert (H3 : GoogModule.replace_unsupported s = s).
  { clear H H1 H2. induction s as [|c s IH]; [reflexivity|].
    simpl in Hu. apply andb_true_iff in Hu. destruct Hu as [Hc Hs].
    unfold GoogModule.replace_unsupported in *. cbn [map].
    now rewrite Hc, (IH Hs). }
  unfold GoogModule.moduleName. now rewrite H1, H2, H3.
Qed.

Lemma remove_suffix_absent (p s : jsstring) :
  ends_with p s = false -> remove_suffix p s = s.
Proof.
  unfold ends_with, remove_suffix. now destruct (drop_suffix p s).
Qed.

Lemma remove_suffix_app (p s : jsstring) : remove_suffix p (s ++ p) = s.
Proof. unfold remove_suffix. now rewrite drop_suffix_app. Qed.

(** X1: a specifier that is already an identifier of the grammar, and does
    not end in [.js], is its own module name, whatever the context. *)
Theorem namer_identifier_fixed_point (context s : jsstring) :
  matches_identifier s = true ->
  ends_with (lit ".js") s = false ->
  TsickleHost.pathToGoogModuleName context s = s
  /\ DecoratorDownlevelCompilerHost.pathToGoogModuleName context s = s.
Proof.
  intros Hid Hjs.
  rewrite tsickle_unfold, downlevel_unfold, (remove_suffix_absent _ _ Hjs).
  pose proof (identifier_units _ Hid) as Hu.
  assert (Hdot : GoogModule.first_is_dot s = false).
  { destruct s as [|c s]; [reflexivity|]. simpl in Hid.
    apply andb_true_iff in Hid. destruct Hid as [Hc _].
    destruct (GoogModule.first_is_dot (c :: s)) eqn:E; [|reflexivity].
    cbv [GoogModule.first_is_dot] in E.
    apply unit_eqb_eq in E. subst c. discriminate Hc. }
  assert (Hslash : ~ In (ch "/") s).
  { intros Hin. rewrite forallb_forall in Hu.
    exact (ident_part_not_slash _ (Hu _ Hin) eq_refl). }
  unfold resolved_tsickle, resolved_downlevel, TsickleHost.dist,
    DecoratorDownlevelCompilerHost.dist.
  rewrite Hdot, !exec_no_slash; try assumption.
  - split; now apply moduleName_identifier_fixed.
  - cbv. tauto.
  - cbv. tauto.
Qed.

Lemma namer_identifier_fixed_point_witness :
  TsickleHost.pathToGoogModuleName (lit "a/b.ts") (lit "rxjs.Subject$1") = lit "rxjs.Subject$1"
  /\ DecoratorDownlevelCompilerHost.pathToGoogModuleName (lit "a/b.ts")
       (lit "rxjs.Subject$1") = lit "rxjs.Subject$1".
Proof.
  apply (namer_identifier_fixed_point (lit "a/b.ts") (lit "rxjs.Subject$1"));
    vm_compute; reflexivity.
Defined.

(** X2: a trailing [.js] does not count: a specifier and the same specifier
    with [.js] appended have the same module name (only one [.js] is
    stripped, so the specifier itself must not end in it). *)
Theorem namer_js_extension (context s : jsstring) :
  ends_with (lit ".js") s = false ->
  TsickleHost.pathToGoogModuleName context (s ++ lit ".js")
  = TsickleHost.pathToGoogModuleName context s
  /\ DecoratorDownlevelCompilerHost.pathToGoogModuleName context (s ++ lit ".js")
     = DecoratorDownlevelCompilerHost.pathToGoogModuleName context s.
Proof.
  intros H. rewrite !tsickle_unfold, !downlevel_unfold.
  now rewrite remove_suffix_app, (remove_suffix_absent _ _ H).
Qed.

Lemma namer_js_extension_witness :
  TsickleHost.pathToGoogModuleName (lit "src/app.ts") (lit "./util/lang.js")
  = TsickleHost.pathToGoogModuleName (lit "src/app.ts") (lit "./util/lang")
  /\ DecoratorDownlevelCompilerHost.pathToGoogModuleName (lit "src/app.ts")
       (lit "./util/lang.js")
     = DecoratorDownlevelCompilerHost.pathToGoogModuleName (lit "src/app.ts")
         (lit "./util/lang").
Proof.
  apply (namer_js_extension (lit "src/app.ts") (lit "./util/lang")).
  vm_compute; reflexivity.
Defined.

(** The pattern of a namer matches at the start of a text made of its head,
    a package name, its tail and a rest on one line. *)
Lemma exec_package (head tail pkg impt : jsstring) :
  pkg <> [] -> forallb not_slash pkg = true ->
  starts_with (lit "/") tail = true ->
  forallb any_but_newline impt = true ->
  DistPattern.exec head tail (head ++ pkg ++ tail ++ impt)
  = Some {| DistPattern.before := []; DistPattern.pkg := pkg;
            DistPattern.impt := impt; DistPattern.after := [] |}.
Proof.
  intros Hne Hp Ht Hi. rewrite exec_unfold.
  unfold DistPattern.match_here. rewrite drop_prefix_app.
  destruct (starts_with_spec _ _ Ht) as [t' ->].
  change ((lit "/" ++ t') ++ impt) with (ch "/" :: t' ++ impt).
  rewrite (span_stop not_slash pkg (ch "/") _ Hp eq_refl).
  destruct pkg as [|x pkg]; [congruence|]. cbn [is_empty].
  change (ch "/" :: t' ++ impt) with ((lit "/" ++ t') ++ impt).
  rewrite drop_prefix_app.
  pose proof (span_all any_but_newline impt [] Hi) as Hs.
  rewrite app_nil_r in Hs. rewrite Hs. cbn. now rewrite app_nil_r.
Qed.

(** X3: a specifier [dist/packages-dist/<pkg>/esm/<rest>] (for the second
    namer [dist/packages-closure/<pkg>/<rest>]) that does not end in [.js]
    is named as [@angular/<pkg>/<rest>] is, a trailing [/index] dropped. *)
Theorem namer_dist_package (context pkg impt : jsstring) :
  pkg <> [] -> forallb not_slash pkg = true ->
  forallb any_but_newline impt = true ->
  (ends_with (lit ".js") (lit "dist/packages-dist/" ++ pkg ++ lit "/esm/" ++ impt)
   = false ->
   TsickleHost.pathToGoogModuleName context
     (lit "dist/packages-dist/" ++ pkg ++ lit "/esm/" ++ impt)
   = GoogModule.moduleName
       (remove_suffix (lit "/index") (lit "@angular/" ++ pkg ++ lit "/" ++ impt)))
  /\ (ends_with (lit ".js") (lit "dist/packages-closure/" ++ pkg ++ lit "/" ++ impt)
      = false ->
      DecoratorDownlevelCompilerHost.pathToGoogModuleName context
        (lit "dist/packages-closure/" ++ pkg ++ lit "/" ++ impt)
      = GoogModule.moduleName
          (remove_suffix (lit "/index") (lit "@angular/" ++ pkg ++ lit "/" ++ impt))).
Proof.
  intros Hne Hp Hi. split; intros Hjs.
  - rewrite tsickle_unfold, (remove_suffix_absent _ _ Hjs).
    unfold resolved_tsickle, TsickleHost.dist.
    change (GoogModule.first_is_dot
              (lit "dist/packages-dist/" ++ pkg ++ lit "/esm/" ++ impt)) with false.
    cbv iota.
    rewrite (exec_package (lit "dist/packages-dist/") (lit "/esm/") pkg impt
               Hne Hp eq_refl Hi).
    unfold DistPattern.rewrite. cbn [DistPattern.before DistPattern.pkg
      DistPattern.impt DistPattern.after app]. now rewrite app_nil_r.
  - rewrite downlevel_unfold, (remove_suffix_absent _ _ Hjs).
    unfold resolved_downlevel, DecoratorDownlevelCompilerHost.dist.
    change (GoogModule.first_is_dot
              (lit "dist/packages-closure/" ++ pkg ++ lit "/" ++ impt)) with false.
    cbv iota.
    rewrite (exec_package (lit "dist/packages-closure/") (lit "/") pkg impt
               Hne Hp eq_refl Hi).
    unfold DistPattern.rewrite. cbn [DistPattern.before DistPattern.pkg
      DistPattern.impt DistPattern.after app]. now rewrite app_nil_r.
Qed.

Lemma namer_dist_package_witness :
  TsickleHost.pathToGoogModuleName (lit "some-file.ts")
    (lit "dist/packages-dist/" ++ lit "core" ++ lit "/esm/" ++ lit "place/index")
  = lit "_angular.core.place"
  /\ DecoratorDownlevelCompilerHost.pathToGoogModuleName (lit "some-file.ts")
       (lit "dist/packages-closure/" ++ lit "core" ++ lit "/" ++ lit "place/index")
     = lit "_angular.core.place".
Proof.
  destruct (namer_dist_package (lit "some-file.ts") (lit "core") (lit "place/index"))
    as [H1 H2]; try (vm_compute; reflexivity).
  - vm_compute. discriminate.
  - split; [exact (H1 eq_refl) | exact (H2 eq_refl)].
Defined.

(** ** More on [MetadataWriterHost] *)

Lemma collectable_original (sf : SourceFile) :
  exists name, MetadataWriterHost.collectable sf = OriginalSource name.
Proof.
  induction sf as [name | name original IH]; [now exists name | exact IH].
Qed.

Section MetadataWriterHostInvariants.

Import MetadataWriterHost.

Variables ModuleMetadata Exn Callback : Type.
Variable getMetadata :
  collector -> SourceFile -> bool -> completion (option ModuleMetadata) Exn.
Variable JSON_stringify : list ModuleMetadata -> jsstring.
Variable strict : bool.

Let writeFile := writeFile (Callback := Callback) getMetadata JSON_stringify strict.

(** The runs of [writeFile], one disjunct for each way through it. *)
Lemma writeFile_runs (fileName data : jsstring) (bom : bool)
  (onError : option Callback) (sourceFiles : option (list SourceFile)) :
  let r := writeFile fileName data bom onError sourceFiles in
  (is_dts fileName = true
   /\ r = ([DelegateWriteFile fileName data bom onError sourceFiles], Normal tt))
  \/ (is_dts fileName = false /\ fst r = [])
  \/ (is_dts fileName = false /\ IGNORED_FILES fileName = false
      /\ ends_with (lit ".js") fileName = true
      /\ exists sf,
          sourceFiles = Some [sf]
          /\ let cf := collectable sf in
             let first := GetMetadata metadataCollector cf strict in
             let second := GetMetadata metadataCollector1 cf false in
             (exists e, r = ([first], Throw (Raised e)))
             \/ (exists e, r = ([first; second], Throw (Raised e)))
             \/ r = ([first; second], Normal tt)
             \/ (exists d ds,
                   r = ([first; second;
                         WriteFileSync
                           (remove_suffix (lit ".js") fileName ++ lit ".metadata.json")
                           (JSON_stringify (d :: ds))],
                        Normal tt))).
Proof.
  subst writeFile. unfold MetadataWriterHost.writeFile.
  destruct (is_dts fileName) eqn:Hd; [left; now split|].
  right.
  destruct (IGNORED_FILES fileName) eqn:Hi; [left; now split|].
  destruct sourceFiles as [sfs|]; [|left; now split].
  destruct sfs as [|sf [|sf' sfs]]; cbn [List.length Nat.ltb Nat.leb hd_error].
  - unfold writeMetadata. left.
    destruct (ends_with (lit ".js") fileName); now split.
  - unfold writeMetadata.
    destruct (ends_with (lit ".js") fileName) eqn:Hjs; [|left; now split].
    right. repeat split; try reflexivity. exists sf. split; [reflexivity|].
    cbv zeta.
    destruct (getMetadata metadataCollector (collectable sf) strict) as [m|e];
      [|left; now exists e].
    right.
    destruct (getMetadata metadataCollector1 (collectable sf) false) as [m1|e];
      [|left; now exists e].
    right.
    destruct (non_null [m; m1]) as [|d ds] eqn:Hn; [now left|].
    right. exists d, ds. unfold metadata_path, remove_suffix.
    unfold ends_with in Hjs.
    destruct (drop_suffix (lit ".js") fileName); [reflexivity|discriminate].
  - left. now split.
Qed.

(** X4: the collectors only ever read the root of the [original] chain of
    the one source unit attached, never a transformed tree; the version-1
    collector is never strict, the other is as strict as the options say. *)
Theorem writeFile_collects_originals (fileName data : jsstring) (bom : bool)
  (onError : option Callback) (sourceFiles : option (list SourceFile))
  (c : collector) (collected : SourceFile) (s : bool) :
  In (GetMetadata c collected s)
     (fst (writeFile fileName data bom onError sourceFiles)) ->
  (exists name, collected = OriginalSource name)
  /\ (exists sf, sourceFiles = Some [sf] /\ collected = collectable sf)
  /\ s = match c with metadataCollector => strict | metadataCollector1 => false end.
Proof.
  intros Hin.
  assert (Hgoal : (exists sf, sourceFiles = Some [sf] /\ collected = collectable sf)
    /\ s = match c with metadataCollector => strict | metadataCollector1 => false end).
  { destruct (writeFile_runs fileName data bom onError sourceFiles)
      as [[_ Hr] | [[_ Hr] | (_ & _ & _ & sf & Hs & Hr)]].
    - rewrite Hr in Hin. destruct Hin as [H | []]. discriminate H.
    - rewrite Hr in Hin. destruct Hin.
    - cbv zeta in Hr.
      assert (Hin' : In (GetMetadata (Callback := Callback) c collected s)
                [GetMetadata metadataCollector (collectable sf) strict;
                 GetMetadata metadataCollector1 (collectable sf) false]).
      { destruct Hr as [[e Hr] | [[e Hr] | [Hr | (d & ds & Hr)]]];
          rewrite Hr in Hin; cbn [fst] in Hin.
        - destruct Hin as [H | []]. now left.
        - exact Hin.
        - exact Hin.
        - destruct Hin as [H | [H | [H | []]]];
            [now left | right; now left | discriminate H]. }
      destruct Hin' as [H | [H | []]]; inversion H; subst;
        (split; [exists sf; now split | reflexivity]). }
  destruct Hgoal as [(sf & Hs & Hc) Hstrict].
  split; [|split; [now exists sf | exact Hstrict]].
  rewrite Hc. apply collectable_original.
Qed.

(** An ignored name is a [.js] name. *)
Lemma ignored_is_js (fileName : jsstring) :
  IGNORED_FILES fileName = true -> ends_with (lit ".js") fileName = true.
Proof.
  assert (Hsuffix : forall stem,
            ends_with (lit stem ++ lit ".js") fileName = true ->
            ends_with (lit ".js") fileName = true).
  { intros stem. unfold ends_with at 1.
    destruct (drop_suffix (lit stem ++ lit ".js") fileName) as [r|] eqn:E;
      [|discriminate].
    intros _. apply drop_suffix_spec in E. subst fileName.
    rewrite app_assoc. unfold ends_with. now rewrite drop_suffix_app. }
  unfold IGNORED_FILES. intros H. apply orb_true_iff in H.
  destruct H as [H | H].
  - exact (Hsuffix ".ngfactory"%string H).
  - exact (Hsuffix ".ngstyle"%string H).
Qed.

(** X5: [writeFile] calls [writeFileSync] at most once, and only as the last
    step of a [.js] unit outside [IGNORED_FILES] with one source unit
    attached: after the two collectors have run on it, at the name of the
    unit with [.metadata.json] for [.js], with the text of at least one
    document.  When one of its own guards throws, or the read of the missing
    first source unit does, nothing has been called; when a collector
    throws, no sidecar has been written and nothing forwarded. *)
Theorem writeFile_sidecar_discipline (fileName data : jsstring) (bom : bool)
  (onError : option Callback) (sourceFiles : option (list SourceFile)) :
  let r := writeFile fileName data bom onError sourceFiles in
  List.length (filter is_sidecar_write (fst r)) <= 1
  /\ (forall p text, In (WriteFileSync p text) (fst r) ->
        is_dts fileName = false
        /\ IGNORED_FILES fileName = false
        /\ ends_with (lit ".js") fileName = true
        /\ p = remove_suffix (lit ".js") fileName ++ lit ".metadata.json"
        /\ (exists d ds, text = JSON_stringify (d :: ds))
        /\ exists sf,
            sourceFiles = Some [sf]
            /\ fst r = [GetMetadata metadataCollector (collectable sf) strict;
                        GetMetadata metadataCollector1 (collectable sf) false;
                        WriteFileSync p text])
  /\ (forall e, snd r = Throw e ->
        match e with
        | Raised _ =>
            existsb is_sidecar_write (fst r) = false
            /\ existsb is_delegate_write (fst r) = false
        | Error _ | TypeError => fst r = []
        end).
Proof.
  cbv zeta.
  destruct (writeFile_runs fileName data bom onError sourceFiles)
    as [[_ Hr] | [[_ Hr] | (Hd & Hi & Hjs & sf & Hs & Hr)]].
  - rewrite Hr. cbn. split; [lia|]. split.
    + intros p text [H | []]. discriminate H.
    + intros e H. discriminate H.
  - rewrite Hr. cbn. split; [lia|]. split.
    + intros p text [].
    + intros e _. destruct e; [reflexivity | reflexivity | now split].
  - cbv zeta in Hr.
    destruct Hr as [[e Hr] | [[e Hr] | [Hr | (d & ds & Hr)]]]; rewrite Hr; cbn;
      (split; [lia|]); split.
    + intros p text [H | []]. discriminate H.
    + intros e' H. injection H as <-. now split.
    + intros p text [H | [H | []]]; discriminate H.
    + intros e' H. injection H as <-. now split.
    + intros p text [H | [H | []]]; discriminate H.
    + intros e' H. discriminate H.
    + intros p text [H | [H | [H | []]]]; try discriminate H.
      inversion H; subst. repeat split; try assumption; try reflexivity.
      * now exists d, ds.
      * exists sf. now split.
    + intros e' H. discriminate H.
Qed.

(** X6: the inner host is called for declaration files and for nothing else,
    and collectors and sidecars are for [.js] units outside [IGNORED_FILES]
    only.  For any other output, a source map for one, nothing is called:
    the call returns when at most one source unit is attached, and is left
    by the [Error] of a guard when the source units are missing or several. *)
Theorem writeFile_forwards_only_dts (fileName data : jsstring) (bom : bool)
  (onError : option Callback) (sourceFiles : option (list SourceFile)) :
  let r := writeFile fileName data bom onError sourceFiles in
  existsb is_delegate_write (fst r) = is_dts fileName
  /\ (fst r <> [] ->
      is_dts fileName = true
      \/ (ends_with (lit ".js") fileName = true /\ IGNORED_FILES fileName = false))
  /\ (is_dts fileName = false -> ends_with (lit ".js") fileName = false ->
      r = ([],
           match sourceFiles with
           | None =>
               Throw (Error (lit "Metadata emit requires the sourceFiles are passed to WriteFileCallback. "
                             ++ lit "Update to TypeScript ^1.9.0-dev"))
           | Some sfs =>
               if Nat.ltb 1 (List.length sfs)
               then Throw (Error (lit "Bundled emit with --out is not supported"))
               else Normal tt
           end)).
Proof.
  cbv zeta. split; [|split].
  - destruct (writeFile_runs fileName data bom onError sourceFiles)
      as [[Hd Hr] | [[Hd Hr] | (Hd & Hi & Hjs & sf & Hs & Hr)]].
    + now rewrite Hr, Hd.
    + now rewrite Hr, Hd.
    + rewrite Hd. cbv zeta in Hr.
      destruct Hr as [[e Hr] | [[e Hr] | [Hr | (d & ds & Hr)]]]; now rewrite Hr.
  - destruct (writeFile_runs fileName data bom onError sourceFiles)
      as [[Hd Hr] | [[Hd Hr] | (Hd & Hi & Hjs & sf & Hs & Hr)]].
    + now left.
    + rewrite Hr. congruence.
    + right. now split.
  - intros Hd Hjs.
    assert (Hi : IGNORED_FILES fileName = false).
    { destruct (IGNORED_FILES fileName) eqn:Hi; [|reflexivity].
      apply ignored_is_js in Hi. congruence. }
    subst writeFile. unfold MetadataWriterHost.writeFile. rewrite Hd, Hi.
    destruct sourceFiles as [sfs|]; [|reflexivity].
    destruct (Nat.ltb 1 (List.length sfs)); [reflexivity|].
    unfold writeMetadata. now rewrite Hjs.
Qed.

(** X7: an empty list of source units passes both guards; on a [.js] unit
    outside [IGNORED_FILES] the read of [original] on the missing first
    element is then a [TypeError], before any collector runs. *)
Theorem writeFile_empty_sources (fileName data : jsstring) (bom : bool)
  (onError : option Callback) :
  ends_with (lit ".js") fileName = true ->
  IGNORED_FILES fileName = false ->
  writeFile fileName data bom onError (Some []) = ([], Throw TypeError).
Proof.
  intros Hjs Hi. subst writeFile. unfold MetadataWriterHost.writeFile.
  rewrite (js_is_not_dts _ Hjs), Hi. cbn [List.length Nat.ltb Nat.leb hd_error].
  unfold writeMetadata. now rewrite Hjs.
Qed.

End MetadataWriterHostInvariants.

Lemma writeFile_collects_originals_witness :
  (exists name, OriginalSource (lit "a.ts") = OriginalSource name)
  /\ (exists sf,
        Some [TransformedSource (lit "a.ts") (OriginalSource (lit "a.ts"))]
        = Some [sf]
        /\ OriginalSource (lit "a.ts") = MetadataWriterHost.collectable sf)
  /\ false = false.
Proof.
  apply (writeFile_collects_originals nat unit unit sample_getMetadata
           sample_stringify true (lit "out/a.js") (lit "var a;") false None
           (Some [TransformedSource (lit "a.ts") (OriginalSource (lit "a.ts"))])
           MetadataWriterHost.metadataCollector1 (OriginalSource (lit "a.ts")) false).
  vm_compute. right. left. reflexivity.
Defined.

Lemma writeFile_empty_sources_witness :
  MetadataWriterHost.writeFile (Callback := unit) sample_getMetadata
    sample_stringify true (lit "out/a.js") (lit "var a;") false None (Some [])
  = ([], Throw MetadataWriterHost.TypeError).
Proof.
  apply (writeFile_empty_sources nat unit unit sample_getMetadata sample_stringify
           true (lit "out/a.js") (lit "var a;") false None); vm_compute; reflexivity.
Defined.

(** ** Calls of [getSourceFile] one after the other *)

Section GetSourceFileSequences.

Import DecoratorDownlevelCompilerHost.

Variables Diagnostic Exn Program : Type.
Variable delegate_readFile : jsstring -> option jsstring.
Variables this_program substituteProgram : Program.
Variable googleClosureOutput : bool.
Variable convertDecorators :
  Program -> jsstring -> completion (Converted Diagnostic) Exn.
Variable languageVersion : N.

Let getSourceFile :=
  getSourceFile delegate_readFile this_program substituteProgram
    googleClosureOutput convertDecorators.

(** X8: over any run of calls on one host, the diagnostics of the rewrite
    pile up in the order of the calls and none is lost, and so do the lines
    on [console.error], one for each file whose rewrite threw; declaration
    files add nothing to either. *)
Theorem getSourceFile_accumulates (files : list jsstring)
  (st : host_state Diagnostic) :
  let final :=
    fold_left (fun st f => snd (getSourceFile st f languageVersion)) files st in
  diagnostics final
  = diagnostics st
    ++ flat_map
         (fun f =>
            if is_dts f then []
            else match convertDecorators this_program f with
                 | Normal converted =>
                     match converted_diagnostics converted with
                     | Some ds => ds
                     | None => []
                     end
                 | Throw _ => []
                 end)
         files
  /\ console_error final
     = console_error st
       ++ flat_map
            (fun f =>
               if is_dts f then []
               else match convertDecorators this_program f with
                    | Normal _ => []
                    | Throw _ => [[lit "Cannot convertDecorators on file"; f]]
                    end)
            files.
Proof.
  cbv zeta. revert st. induction files as [|f files IH]; intros st.
  - cbn [fold_left flat_map]. rewrite !app_nil_r. split; reflexivity.
  - cbn [fold_left flat_map]. destruct (IH (snd (getSourceFile st f languageVersion)))
      as [Hd Hc].
    rewrite Hd, Hc. clear IH Hd Hc.
    subst getSourceFile. unfold DecoratorDownlevelCompilerHost.getSourceFile.
    destruct (is_dts f); [now split|].
    destruct (convertDecorators this_program f) as [converted|e].
    + destruct (converted_diagnostics converted) as [ds|];
        cbn [snd diagnostics console_error app];
        rewrite <- ?app_assoc; split; reflexivity.
    + cbn [snd diagnostics console_error app].
      rewrite <- ?app_assoc. split; reflexivity.
Qed.

End GetSourceFileSequences.

Section TsickleCompilerHostProperties.

Import TsickleCompilerHost.

Variables Diagnostic Exn ProgramSource : Type.
Variable oldProgram_getSourceFile : jsstring -> option ProgramSource.
Variable annotate : option ProgramSource -> completion (Annotated Diagnostic) Exn.
Variable languageVersion : N.

Let getSourceFile := getSourceFile oldProgram_getSourceFile annotate.

Let calls (files : list jsstring) (d : list Diagnostic) : list Diagnostic :=
  fold_left (fun d f => snd (getSourceFile d f languageVersion)) files d.

(** X9: [TsickleCompilerHost] keeps the diagnostics of one file only: after
    a file is annotated [this.diagnostics] is what that file gave, whatever
    the calls before had left there, and calls on declaration files after
    it do not change that. *)
Theorem tsickle_diagnostics_of_last_file (before after : list jsstring)
  (f : jsstring) (a : Annotated Diagnostic) (d : list Diagnostic) :
  is_dts f = false ->
  annotate (oldProgram_getSourceFile f) = Normal a ->
  forallb is_dts after = true ->
  calls (before ++ f :: after) d = annotated_diagnostics a.
Proof.
  intros Hf Ha Hafter. subst calls. cbv beta.
  rewrite fold_left_app. cbn [fold_left].
  set (d1 := fold_left _ before d). clearbody d1.
  assert (H1 : snd (getSourceFile d1 f languageVersion) = annotated_diagnostics a).
  { subst getSourceFile. unfold TsickleCompilerHost.getSourceFile.
    cbv zeta. now rewrite Hf, Ha. }
  rewrite H1. clear H1. generalize (annotated_diagnostics a) as d2.
  induction after as [|g after IH]; intros d2; [reflexivity|].
  cbn [forallb] in Hafter. apply andb_true_iff in Hafter.
  destruct Hafter as [Hg Hafter]. cbn [fold_left].
  assert (H2 : snd (getSourceFile d2 g languageVersion) = d2).
  { subst getSourceFile. unfold TsickleCompilerHost.getSourceFile.
    cbv zeta. now rewrite Hg. }
  rewrite H2. now apply IH.
Qed.

End TsickleCompilerHostProperties.

Lemma tsickle_diagnostics_of_last_file_witness :
  fold_left
    (fun d f =>
       snd (TsickleCompilerHost.getSourceFile (Exn := unit)
              (fun f => Some f)
              (fun sf => Normal {| TsickleCompilerHost.output := lit "out";
                                   TsickleCompilerHost.annotated_diagnostics :=
                                     match sf with Some f => [List.length f] | None => [] end |})
              d f 1%N))
    ([lit "a.ts"] ++ lit "bc.ts" :: [lit "lib.d.ts"]) [7]
  = [5].
Proof.
  apply (tsickle_diagnostics_of_last_file nat unit jsstring (fun f => Some f)
           (fun sf => Normal {| TsickleCompilerHost.output := lit "out";
                                TsickleCompilerHost.annotated_diagnostics :=
                                  match sf with Some f => [List.length f] | None => [] end |})
           1%N [lit "a.ts"] [lit "lib.d.ts"] (lit "bc.ts")
           {| TsickleCompilerHost.output := lit "out";
              TsickleCompilerHost.annotated_diagnostics := [5] |} [7]);
    vm_compute; reflexivity.
Defined.

(** ** More on [CodeGenerator] *)

Section ReadFileMetadataProperties.

Import CodeGenerator.

Variable StaticSymbol : Type.
Variable findDeclaration : jsstring -> jsstring -> jsstring -> StaticSymbol.
Variable getModuleMetadata : jsstring -> option (option (list (jsstring * bool))).
Variable annotations : StaticSymbol -> list annotation.

Let readFileMetadata := readFileMetadata findDeclaration getModuleMetadata annotations.

Let annotated := annotated_with findDeclaration annotations.

Lemma classify_fold (staticType : StaticSymbol) (l : list annotation)
  (r : FileMetadata StaticSymbol) :
  let r' := fold_left (fun r a => classify _ r staticType a) l r in
  fileUrl r' = fileUrl r
  /\ ngModules r' = ngModules r ++ map (fun _ => staticType) (filter is_module l)
  /\ components r'
     = components r ++ map (fun _ => staticType) (filter is_component l).
Proof.
  cbv zeta. revert r. induction l as [|a l IH]; intros r.
  - cbn. now rewrite !app_nil_r.
  - cbn [fold_left]. destruct (IH (classify _ r staticType a)) as (H1 & H2 & H3).
    rewrite H1, H2, H3. clear IH H1 H2 H3.
    destruct a; cbn; rewrite <- ?app_assoc; repeat split; reflexivity.
Qed.

Lemma symbols_fold (absSourcePath : jsstring) (symbols : list (jsstring * bool))
  (r : FileMetadata StaticSymbol) :
  let r' :=
    fold_left
      (fun result (entry : jsstring * bool) =>
         let (symbol, is_error) := entry in
         if is_error then result
         else
           let staticType := findDeclaration absSourcePath symbol absSourcePath in
           fold_left (fun r a => classify _ r staticType a)
                     (annotations staticType) result)
      symbols r in
  fileUrl r' = fileUrl r
  /\ ngModules r' = ngModules r ++ annotated is_module absSourcePath symbols
  /\ components r' = components r ++ annotated is_component absSourcePath symbols.
Proof.
  cbv zeta. revert r. induction symbols as [|[symbol is_error] symbols IH]; intros r.
  - cbn. now rewrite !app_nil_r.
  - cbn [fold_left].
    match goal with
    | |- context [fold_left _ symbols ?r1] =>
        destruct (IH r1) as (H1 & H2 & H3); rewrite H1, H2, H3; clear IH H1 H2 H3
    end.
    subst annotated. unfold annotated_with. cbn [flat_map fst snd].
    destruct is_error; [repeat split; reflexivity|].
    cbv zeta.
    destruct (classify_fold (findDeclaration absSourcePath symbol absSourcePath)
                (annotations (findDeclaration absSourcePath symbol absSourcePath)) r)
      as (H1 & H2 & H3).
    rewrite H1, H2, H3, <- !app_assoc. repeat split; reflexivity.
Qed.

(** X10: [readFileMetadata] keeps the path it was given; it lists under
    [ngModules] (under [components]) the declarations of the file's symbols
    that carry an [NgModule] (a [Component]) annotation, once for each such
    annotation and in the order of the keys, passing over the symbols that
    record an error; and it warns exactly when the file has no metadata. *)
Theorem readFileMetadata_classifies (absSourcePath : jsstring) :
  let symbols :=
    match getModuleMetadata absSourcePath with
    | Some (Some symbols) => symbols
    | _ => []
    end in
  snd (readFileMetadata absSourcePath)
  = {| fileUrl := absSourcePath;
       components := annotated is_component absSourcePath symbols;
       ngModules := annotated is_module absSourcePath symbols |}
  /\ fst (readFileMetadata absSourcePath)
     = match getModuleMetadata absSourcePath with
       | None => [lit "WARNING: no metadata found for " ++ absSourcePath]
       | Some _ => []
       end.
Proof.
  cbv zeta. subst readFileMetadata. unfold CodeGenerator.readFileMetadata.
  destruct (getModuleMetadata absSourcePath) as [[symbols|]|];
    [|split; reflexivity|split; reflexivity].
  split; [|reflexivity]. cbn [snd].
  destruct (symbols_fold absSourcePath symbols
              {| fileUrl := absSourcePath; components := []; ngModules := [] |})
    as (H1 & H2 & H3).
  cbn [fileUrl components ngModules app] in H1, H2, H3.
  destruct (fold_left _ symbols _) as [u c m].
  cbn [fileUrl components ngModules] in H1, H2, H3. now subst.
Qed.

Lemma readFileMetadata_fileUrl (absSourcePath : jsstring) :
  fileUrl (snd (readFileMetadata absSourcePath)) = absSourcePath.
Proof.
  subst readFileMetadata. unfold CodeGenerator.readFileMetadata.
  destruct (getModuleMetadata absSourcePath) as [[symbols|]|]; try reflexivity.
  cbn [snd].
  destruct (symbols_fold absSourcePath symbols
              {| fileUrl := absSourcePath; components := []; ngModules := [] |})
    as (H1 & _). exact H1.
Qed.

End ReadFileMetadataProperties.

Lemma map_until_throw_none (A B : Type)
  (f : A -> completion B CodeGenerator.thrown_value) (g : A -> B) (l : list A) :
  (forall a b, In a l -> f a = Normal b -> b = g a) ->
  forall bs, CodeGenerator.map_until_throw f l = (bs, None) -> bs = map g l.
Proof.
  induction l as [|a l IH]; intros Hg bs H; cbn [CodeGenerator.map_until_throw] in H.
  - now injection H as <-.
  - destruct (f a) as [b|e] eqn:E; [|discriminate H].
    destruct (CodeGenerator.map_until_throw f l) as [bs' thrown'] eqn:M.
    injection H as <- ->. cbn [map].
    rewrite (Hg a b (or_introl eq_refl) E). f_equal.
    apply IH; [|reflexivity].
    intros x y Hx. apply Hg. now right.
Qed.

Section CodegenWrites.

Import CodeGenerator.

Variables StaticSymbol AnalyzedModules : Type.
Variable cwd : jsstring.
Variable options : AngularCompilerOptions.
Variable program_getSourceFiles : list jsstring.
Variable program_getSourceFile : jsstring -> option SourceFile.
Variable getCanonicalFileName : jsstring -> jsstring.
Variable findDeclaration : jsstring -> jsstring -> jsstring -> StaticSymbol.
Variable getModuleMetadata : jsstring -> option (option (list (jsstring * bool))).
Variable annotations : StaticSymbol -> list annotation.
Variable reflection_throws : jsstring -> option thrown_value.
Variable analyzeModules :
  list StaticSymbol -> completion AnalyzedModules thrown_value.
Variable compile :
  jsstring -> AnalyzedModules -> list StaticSymbol -> list StaticSymbol ->
  completion (settled (list GeneratedModule)) thrown_value.
Variable host_writeFile :
  jsstring -> jsstring -> bool -> list (option SourceFile) -> option thrown_value.
Variable cannot_read_stack : JsError.
Variable settle_order :
  list (FileMetadata StaticSymbol * settled (list GeneratedModule)) ->
  list (FileMetadata StaticSymbol * settled (list GeneratedModule)).

(** Only the tasks that were started settle. *)
Hypothesis settle_order_incl : forall l t, In t (settle_order l) -> In t l.

Let run : codegen_run :=
  codegen cwd options program_getSourceFiles program_getSourceFile
    getCanonicalFileName findDeclaration getModuleMetadata annotations
    reflection_throws analyzeModules compile host_writeFile cannot_read_stack
    settle_order.

Let metas : list (FileMetadata StaticSymbol) :=
  map snd (fileMetas program_getSourceFiles getCanonicalFileName findDeclaration
             getModuleMetadata annotations).

(** Every event of the loop over the generated modules is a line of the
    trace or the write of one of the modules. *)
Lemma write_generated_sound (fileMeta : FileMetadata StaticSymbol)
  (generatedModules : list GeneratedModule) (fileName data : jsstring)
  (bom : bool) (sourceFiles : list (option SourceFile)) :
  In (HostWriteFile fileName data bom sourceFiles)
     (fst (write_generated cwd options program_getSourceFile host_writeFile fileMeta generatedModules)) ->
  exists generatedModule,
    In generatedModule generatedModules
    /\ fileName = snd (calculateEmitPath cwd options (moduleUrl generatedModule))
    /\ data = PREAMBLE ++ fix_source (source generatedModule)
    /\ bom = false
    /\ sourceFiles = [program_getSourceFile (fileUrl fileMeta)].
Proof.
  induction generatedModules as [|g gs IH]; cbn [CodeGenerator.write_generated];
    [intros []|].
  destruct (calculateEmitPath cwd options (moduleUrl g)) as [logged emitPath] eqn:E.
  assert (Hlog : ~ In (HostWriteFile fileName data bom sourceFiles)
                     (map ConsoleLog logged)).
  { intros H. apply in_map_iff in H. destruct H as [l [H _]]. discriminate H. }
  assert (Hhere : HostWriteFile emitPath (PREAMBLE ++ fix_source (source g)) false
                    [program_getSourceFile (fileUrl fileMeta)]
                  = HostWriteFile fileName data bom sourceFiles ->
                  exists generatedModule,
                    In generatedModule (g :: gs)
                    /\ fileName
                       = snd (calculateEmitPath cwd options (moduleUrl generatedModule))
                    /\ data = PREAMBLE ++ fix_source (source generatedModule)
                    /\ bom = false
                    /\ sourceFiles = [program_getSourceFile (fileUrl fileMeta)]).
  { intros H. inversion H; subst. exists g. rewrite E.
    repeat split; try reflexivity. now left. }
  destruct (host_writeFile emitPath (PREAMBLE ++ fix_source (source g)) false
              [program_getSourceFile (fileUrl fileMeta)]) as [e|].
  - cbn [fst]. intros H. apply in_app_or in H. destruct H as [H | [H | []]];
      [now apply Hlog in H | now apply Hhere].
  - destruct (CodeGenerator.write_generated cwd options program_getSourceFile
                host_writeFile fileMeta gs) as [evs c].
    cbn [fst] in *. intros H. apply in_app_or in H.
    destruct H as [H | [H | H]];
      [now apply Hlog in H | now apply Hhere |].
    destruct (IH H) as [gm (Hin & Hrest)]. exists gm. split; [now right | exact Hrest].
Qed.

(** The events of a started task are the writes of the modules generated
    for its file, which [compile] returned in a fulfilled promise. *)
Lemma generate_sound (analyzed : AnalyzedModules)
  (started : list (FileMetadata StaticSymbol * settled (list GeneratedModule)))
  (thrown : option thrown_value)
  (fileName data : jsstring) (bom : bool) (sourceFiles : list (option SourceFile)) :
  map_until_throw (start compile analyzed) metas = (started, thrown) ->
  In (HostWriteFile fileName data bom sourceFiles)
     (flat_map fst
        (map (generate cwd options program_getSourceFile host_writeFile)
           (settle_order started))) ->
  exists f generatedModules generatedModule,
    In f program_getSourceFiles
    /\ GENERATED_FILES (getCanonicalFileName f) = false
    /\ (let fileMeta :=
          snd (readFileMetadata findDeclaration getModuleMetadata annotations
                 (getCanonicalFileName f)) in
        compile (getCanonicalFileName f) analyzed (components fileMeta)
                (ngModules fileMeta) = Normal (Fulfilled generatedModules))
    /\ In generatedModule generatedModules
    /\ fileName = snd (calculateEmitPath cwd options (moduleUrl generatedModule))
    /\ data = PREAMBLE ++ fix_source (source generatedModule)
    /\ bom = false
    /\ sourceFiles = [program_getSourceFile (getCanonicalFileName f)].
Proof.
  intros Hstarted H.
  apply in_flat_map in H. destruct H as [task [Htask Hev]].
  apply in_map_iff in Htask. destruct Htask as [t [<- Ht]].
  apply settle_order_incl in Ht.
  destruct (map_until_throw_in _ _ _ _ _ _ Hstarted t Ht) as [fm [Hfm Hstart]].
  unfold start in Hstart.
  destruct (compile (fileUrl fm) analyzed (components fm) (ngModules fm))
    as [promise|e] eqn:Hc; [|discriminate Hstart].
  injection Hstart as <-.
  subst metas. unfold fileMetas in Hfm.
  apply in_map_iff in Hfm. destruct Hfm as [[logged fm'] [Heq Hfm]].
  cbn [snd] in Heq. subst fm'.
  apply in_map_iff in Hfm. destruct Hfm as [p' [Hread Hp']].
  unfold filePaths in Hp'. apply filter_In in Hp'. destruct Hp' as [Hp' Hgen].
  apply in_map_iff in Hp'. destruct Hp' as [f [<- Hf]].
  apply negb_true_iff in Hgen.
  assert (Hfm : fm = snd (readFileMetadata findDeclaration getModuleMetadata
                            annotations (getCanonicalFileName f)))
    by now rewrite Hread.
  assert (Hurl : fileUrl fm = getCanonicalFileName f).
  { rewrite Hfm. apply readFileMetadata_fileUrl. }
  unfold generate in Hev.
  destruct promise as [gms|e]; [|destruct Hev].
  assert (Hev' : In (HostWriteFile fileName data bom sourceFiles)
                   (fst (write_generated cwd options program_getSourceFile host_writeFile fm gms))).
  { destruct (CodeGenerator.write_generated cwd options program_getSourceFile
                host_writeFile fm gms) as [evs [[]|e]]; exact Hev. }
  destruct (write_generated_sound fm gms _ _ _ _ Hev')
    as [gm (Hin & Hn & Hd & Hb & Hs)].
  exists f, gms, gm. cbv zeta. rewrite <- Hfm. rewrite Hurl in Hs, Hc.
  repeat split; assumption.
Qed.

(** X11: whatever [codegen] writes is a module the compiler generated for a
    file of the program whose canonical name is not that of a generated
    file: the metadata of every file was read and the modules analysed,
    [compile] returned for that file a promise fulfilled with the module,
    and the write goes to the module's emit path, holds the preamble and
    then the module's source after the cast workaround, asks for no byte
    order mark, and names that one file as its source. *)
Theorem codegen_writes_generated_modules (fileName data : jsstring) (bom : bool)
  (sourceFiles : list (option SourceFile)) :
  In (HostWriteFile fileName data bom sourceFiles) (events run) ->
  exists f analyzed generatedModules generatedModule,
    In f program_getSourceFiles
    /\ GENERATED_FILES (getCanonicalFileName f) = false
    /\ analyzeModules (flat_map ngModules metas) = Normal analyzed
    /\ (let fileMeta :=
          snd (readFileMetadata findDeclaration getModuleMetadata annotations
                 (getCanonicalFileName f)) in
        compile (getCanonicalFileName f) analyzed (components fileMeta)
                (ngModules fileMeta) = Normal (Fulfilled generatedModules))
    /\ In generatedModule generatedModules
    /\ fileName = snd (calculateEmitPath cwd options (moduleUrl generatedModule))
    /\ data = PREAMBLE ++ fix_source (source generatedModule)
    /\ bom = false
    /\ sourceFiles = [program_getSourceFile (getCanonicalFileName f)].
Proof.
  assert (Hlog : forall lines,
             ~ In (HostWriteFile fileName data bom sourceFiles)
                  (map ConsoleLog lines)).
  { intros lines H. apply in_map_iff in H. destruct H as [l [H _]]. discriminate H. }
  subst run. unfold codegen.
  destruct (map_until_throw
              (read findDeclaration getModuleMetadata annotations reflection_throws)
              (filePaths program_getSourceFiles getCanonicalFileName))
    as [read_metas [e|]] eqn:Hread; cbn [events];
    [intros H; now apply Hlog in H|].
  assert (Hmetas : read_metas
                   = fileMetas program_getSourceFiles getCanonicalFileName
                       findDeclaration getModuleMetadata annotations).
  { unfold fileMetas. apply (map_until_throw_none _ _ _ _ _) with (2 := Hread).
    intros a b _ H. unfold read in H.
    destruct (reflection_throws a); [discriminate H|]. now injection H as <-. }
  rewrite Hmetas. fold metas.
  destruct (analyzeModules (flat_map ngModules metas)) as [analyzed|e] eqn:Ha;
    cbn [events]; [|intros H; now apply Hlog in H].
  destruct (map_until_throw (start compile analyzed) metas)
    as [started thrown] eqn:Hstarted.
  assert (Hev : In (HostWriteFile fileName data bom sourceFiles)
                  (map ConsoleLog
                     (flat_map fst
                        (fileMetas program_getSourceFiles getCanonicalFileName
                           findDeclaration getModuleMetadata annotations))
                   ++ flat_map fst
                        (map (generate cwd options program_getSourceFile host_writeFile)
                           (settle_order started))) ->
                exists f analyzed0 generatedModules generatedModule,
                  In f program_getSourceFiles
                  /\ GENERATED_FILES (getCanonicalFileName f) = false
                  /\ @Normal AnalyzedModules thrown_value analyzed
                     = Normal analyzed0
                  /\ (let fileMeta :=
                        snd (readFileMetadata findDeclaration getModuleMetadata
                               annotations (getCanonicalFileName f)) in
                      compile (getCanonicalFileName f) analyzed0 (components fileMeta)
                              (ngModules fileMeta) = Normal (Fulfilled generatedModules))
                  /\ In generatedModule generatedModules
                  /\ fileName
                     = snd (calculateEmitPath cwd options (moduleUrl generatedModule))
                  /\ data = PREAMBLE ++ fix_source (source generatedModule)
                  /\ bom = false
                  /\ sourceFiles = [program_getSourceFile (getCanonicalFileName f)]).
  { intros H. apply in_app_or in H. destruct H as [H | H]; [now apply Hlog in H|].
    destruct (generate_sound analyzed started thrown _ _ _ _ Hstarted H)
      as [f [gms [gm (H1 & H2 & H3 & H4)]]].
    exists f, analyzed, gms, gm.
    split; [exact H1|]. split; [exact H2|]. split; [reflexivity|].
    split; [exact H3 | exact H4]. }
  destruct thrown as [e|]; [exact Hev|].
  destruct (Promise_catch _ _) as [lines p]. exact Hev.
Qed.

(** X12: the loop over the generated modules of a file stops at the first
    write that throws: the modules before it have been written, one after
    the other, the write that throws has been called, the modules after it
    are neither written nor looked at, and the loop is left by what that
    write threw. *)
Theorem write_generated_stops (fileMeta : FileMetadata StaticSymbol)
  (before after : list GeneratedModule) (generatedModule : GeneratedModule)
  (e : thrown_value) :
  (forall earlier, In earlier before ->
     host_writeFile
       (snd (calculateEmitPath cwd options (moduleUrl earlier)))
       (PREAMBLE ++ fix_source (source earlier)) false
       [program_getSourceFile (fileUrl fileMeta)] = None) ->
  host_writeFile
    (snd (calculateEmitPath cwd options (moduleUrl generatedModule)))
    (PREAMBLE ++ fix_source (source generatedModule)) false
    [program_getSourceFile (fileUrl fileMeta)] = Some e ->
  write_generated cwd options program_getSourceFile host_writeFile fileMeta
    (before ++ generatedModule :: after)
  = (flat_map
       (fun m =>
          map ConsoleLog (fst (calculateEmitPath cwd options (moduleUrl m)))
          ++ [HostWriteFile
                (snd (calculateEmitPath cwd options (moduleUrl m)))
                (PREAMBLE ++ fix_source (source m)) false
                [program_getSourceFile (fileUrl fileMeta)]])
       (before ++ [generatedModule]),
     Throw e).
Proof.
  intros Hbefore He.
  induction before as [|g gs IH]; cbn [app flat_map CodeGenerator.write_generated].
  - destruct (calculateEmitPath cwd options (moduleUrl generatedModule))
      as [logged emitPath].
    cbn [fst snd] in *. rewrite He. now rewrite app_nil_r.
  - pose proof (Hbefore g (or_introl eq_refl)) as Hg.
    destruct (calculateEmitPath cwd options (moduleUrl g)) as [logged emitPath].
    cbn [fst snd] in *. rewrite Hg.
    rewrite IH by (intros x Hx; apply Hbefore; now right).
    now rewrite <- app_assoc.
Qed.

End CodegenWrites.

Lemma codegen_writes_generated_modules_witness :
  exists f analyzed generatedModules generatedModule,
    In f [lit "/proj/src/a.ts"; lit "/proj/src/b.ts"]
    /\ CodeGenerator.GENERATED_FILES f = false
    /\ @Normal nat CodeGenerator.thrown_value
         (List.length
            (flat_map CodeGenerator.ngModules
               (map snd
                  (CodeGenerator.fileMetas [lit "/proj/src/a.ts"; lit "/proj/src/b.ts"]
                     (fun f => f) (fun _ symbol _ => symbol)
                     (fun _ => Some (Some [(lit "AppComponent", false)]))
                     (fun _ => [CodeGenerator.ComponentMetadata])))))
       = Normal analyzed
    /\ sample_compile [lit "/proj/src/a.ts"] f analyzed
         (CodeGenerator.components
            (snd (CodeGenerator.readFileMetadata (fun _ symbol _ => symbol)
                    (fun _ => Some (Some [(lit "AppComponent", false)]))
                    (fun _ => [CodeGenerator.ComponentMetadata]) f)))
         (CodeGenerator.ngModules
            (snd (CodeGenerator.readFileMetadata (fun _ symbol _ => symbol)
                    (fun _ => Some (Some [(lit "AppComponent", false)]))
                    (fun _ => [CodeGenerator.ComponentMetadata]) f)))
       = Normal (CodeGenerator.Fulfilled generatedModules)
    /\ In generatedModule generatedModules
    /\ lit "/proj/gen/b.ngfactory.ts"
       = snd (CodeGenerator.calculateEmitPath (lit "/") sample_options
                (CodeGenerator.moduleUrl generatedModule))
    /\ CodeGenerator.PREAMBLE ++ lit "export const x = 1;"
       = CodeGenerator.PREAMBLE
         ++ CodeGenerator.fix_source (CodeGenerator.source generatedModule)
    /\ false = false
    /\ [Some (OriginalSource (lit "/proj/src/b.ts"))] = [Some (OriginalSource f)].
Proof.
  apply (codegen_writes_generated_modules jsstring nat (lit "/") sample_options
           [lit "/proj/src/a.ts"; lit "/proj/src/b.ts"]
           (fun f => Some (OriginalSource f))
           (fun f => f)
           (fun _ symbol _ => symbol)
           (fun _ => Some (Some [(lit "AppComponent", false)]))
           (fun _ => [CodeGenerator.ComponentMetadata])
           (fun _ => None)
           (fun l => Normal (List.length l))
           (sample_compile [lit "/proj/src/a.ts"])
           (fun _ _ _ _ => None)
           sample_cannot_read_stack
           (fun l => l)
           (fun l m H => H)
           (lit "/proj/gen/b.ngfactory.ts")
           (CodeGenerator.PREAMBLE ++ lit "export const x = 1;") false
           [Some (OriginalSource (lit "/proj/src/b.ts"))]).
  vm_compute. left. reflexivity.
Defined.

Lemma write_generated_stops_witness :
  CodeGenerator.write_generated (lit "/") sample_options
    (fun f => Some (OriginalSource f)) sample_throwing_writeFile
    (sample_meta (lit "/proj/src/b.ts"))
    [{| CodeGenerator.moduleUrl := lit "/proj/src/b.css.ts";
        CodeGenerator.source := lit "export const styles = [];" |};
     {| CodeGenerator.moduleUrl := lit "/proj/src/b.ngfactory.ts";
        CodeGenerator.source := lit "export const x = 1;" |};
     {| CodeGenerator.moduleUrl := lit "/proj/src/b.css.shim.ts";
        CodeGenerator.source := lit "export const styles = [];" |}]
  = ([CodeGenerator.HostWriteFile (lit "/proj/gen/b.css.ts")
        (CodeGenerator.PREAMBLE ++ lit "export const styles = [];") false
        [Some (OriginalSource (lit "/proj/src/b.ts"))];
      CodeGenerator.HostWriteFile (lit "/proj/gen/b.ngfactory.ts")
        (CodeGenerator.PREAMBLE ++ lit "export const x = 1;") false
        [Some (OriginalSource (lit "/proj/src/b.ts"))]],
     Throw
       (CodeGenerator.ErrorObject
          {| CodeGenerator.message := lit "EACCES";
             CodeGenerator.stack := lit "Error: EACCES" |})).
Proof.
  apply (write_generated_stops jsstring (lit "/") sample_options
           (fun f => Some (OriginalSource f)) sample_throwing_writeFile
           (sample_meta (lit "/proj/src/b.ts"))
           [{| CodeGenerator.moduleUrl := lit "/proj/src/b.css.ts";
               CodeGenerator.source := lit "export const styles = [];" |}]
           [{| CodeGenerator.moduleUrl := lit "/proj/src/b.css.shim.ts";
               CodeGenerator.source := lit "export const styles = [];" |}]
           {| CodeGenerator.moduleUrl := lit "/proj/src/b.ngfactory.ts";
              CodeGenerator.source := lit "export const x = 1;" |}
           (CodeGenerator.ErrorObject
              {| CodeGenerator.message := lit "EACCES";
                 CodeGenerator.stack := lit "Error: EACCES" |})).
  - intros earlier [<- | []]. vm_compute. reflexivity.
  - vm_compute. reflexivity.
Defined.

Lemma strip_parent_dirs_unfold (s : jsstring) :
  CodeGenerator.strip_parent_dirs s
  = if starts_with (lit ".." ++ path.sep) s
    then CodeGenerator.strip_parent_dirs (skipn 3 s)
    else s.
Proof.
  assert (Hshort : List.length s < 3 ->
                   starts_with (lit ".." ++ path.sep) s = false).
  { intros Hlen. destruct (starts_with (lit ".." ++ path.sep) s) eqn:E;
      [|reflexivity].
    destruct (starts_with_spec _ _ E) as [rest Hs].
    apply (f_equal (@List.length code_unit)) in Hs.
    rewrite length_app in Hs. cbn in Hs. lia. }
  destruct s as [|a [|b [|c s]]]; try reflexivity;
    cbn [CodeGenerator.strip_parent_dirs]; rewrite Hshort; try reflexivity;
    cbn; lia.
Qed.

(** X13: the loop that strips [../] takes every leading [../] off the
    relative path and nothing else: the path is some number of [../]
    followed by the result, and the result starts with none. *)
Theorem strip_parent_dirs_spec (relativePath : jsstring) :
  starts_with (lit ".." ++ path.sep)
    (CodeGenerator.strip_parent_dirs relativePath) = false
  /\ exists n,
      relativePath
      = List.concat (repeat (lit ".." ++ path.sep) n)
        ++ CodeGenerator.strip_parent_dirs relativePath.
Proof.
  remember (List.length relativePath) as k eqn:Hk.
  revert relativePath Hk.
  induction k as [k IH] using lt_wf_ind. intros s Hk.
  rewrite strip_parent_dirs_unfold.
  destruct (starts_with (lit ".." ++ path.sep) s) eqn:E.
  - destruct (starts_with_spec _ _ E) as [rest Hs].
    assert (Hskip : skipn 3 s = rest) by (rewrite Hs; reflexivity).
    rewrite Hskip.
    destruct (IH (List.length rest)) with (relativePath := rest) as [H1 [n H2]].
    + subst k. rewrite Hs, length_app. cbn. lia.
    + reflexivity.
    + split; [exact H1|]. exists (S n). cbn [repeat List.concat].
      rewrite <- app_assoc, <- H2. exact Hs.
  - split; [exact E|]. now exists 0.
Qed.

Section EmitPathTrace.

Import CodeGenerator.

Variable cwd : jsstring.
Variable options : AngularCompilerOptions.

Let dirs : list jsstring :=
  match rootDirs options with Some dirs => dirs | None => [] end.

Lemma choose_root_log (filePath : jsstring) (l : list jsstring)
  (logged : list jsstring) (root : jsstring) :
  fst (fold_left
         (fun (acc : list jsstring * jsstring) eachRootDir =>
            let (logged, root) := acc in
            let logged1 :=
              if trace options
              then logged ++ [lit "Check if " ++ filePath
                              ++ lit " is under rootDirs element " ++ eachRootDir]
              else logged in
            if not_dot_relative cwd eachRootDir filePath
            then (logged1, eachRootDir)
            else (logged1, root))
         l (logged, root))
  = logged
    ++ (if trace options
        then map (fun d => lit "Check if " ++ filePath
                           ++ lit " is under rootDirs element " ++ d) l
        else []).
Proof.
  revert logged root. induction l as [|d l IH]; intros logged root.
  - cbn [fold_left fst map]. destruct (trace options); now rewrite app_nil_r.
  - cbn [fold_left map].
    destruct (not_dot_relative cwd d filePath); rewrite IH;
      destruct (trace options); rewrite <- ?app_assoc; reflexivity.
Qed.

(** X14: [calculateEmitPath] as a whole: with [trace] it logs one line for
    each entry of [rootDirs], in order, and without it nothing; either way
    the path is [genDir] joined with the path of the file relative to the
    last entry of [rootDirs] that passes the test, or to [basePath] when
    none does, every leading [../] taken off. *)
Theorem calculateEmitPath_trace (filePath : jsstring) :
  calculateEmitPath cwd options filePath
  = (if trace options
     then map (fun d => lit "Check if " ++ filePath
                        ++ lit " is under rootDirs element " ++ d) dirs
     else [],
     path.join
       [genDir options;
        strip_parent_dirs
          (path.relative cwd
             (last (filter (fun d => not_dot_relative cwd d filePath) dirs)
                   (basePath options))
             filePath)]).
Proof.
  pose proof (calculateEmitPath_root cwd options filePath) as Hroot.
  fold dirs in Hroot.
  assert (Hlog : fst (calculateEmitPath cwd options filePath)
                 = if trace options
                   then map (fun d => lit "Check if " ++ filePath
                                      ++ lit " is under rootDirs element " ++ d) dirs
                   else []).
  { unfold calculateEmitPath.
    pose proof (choose_root_log filePath dirs [] (basePath options)) as H.
    fold dirs. unfold choose_root.
    fold dirs. destruct (fold_left _ dirs _) as [logged root]. exact H. }
  destruct (calculateEmitPath cwd options filePath) as [logged p].
  cbn [fst snd] in *. now subst.
Qed.

End EmitPathTrace.

(** ** The two regular expressions of the cast workaround *)

Section CastMatchers.

Import CodeGenerator CastSpec.

Variable chain : jsstring.

Lemma match_all_complete (s : jsstring) :
  occurs chain s -> match_all chain 0 s <> [].
Proof.
  intros [before [after [-> Ho]]]. induction before as [|a before IH].
  - cbn [app]. apply error_here_occurrence in Ho.
    destruct after as [|c after].
    { exfalso. apply Ho. unfold error_here. now destruct chain. }
    cbn [match_all]. destruct (error_here chain (c :: after)); [discriminate|].
    now destruct Ho.
  - cbn [app match_all].
    destruct (error_here chain (a :: before ++ after)); [discriminate | exact IH].
Qed.

Lemma lazy_until_complete (literal T after : jsstring) :
  forallb any_but_newline T = true ->
  lazy_until literal (T ++ literal ++ after) <> None.
Proof.
  induction T as [|c T IH]; intros HT; rewrite lazy_until_unfold.
  - cbn [app]. now rewrite starts_with_app.
  - cbn [forallb] in HT. apply andb_true_iff in HT. destruct HT as [Hc HT].
    destruct (starts_with literal ((c :: T) ++ literal ++ after)); [discriminate|].
    cbn [app]. rewrite Hc. specialize (IH HT).
    destruct (lazy_until literal (T ++ literal ++ after)); [discriminate|].
    now destruct IH.
Qed.

Lemma cast_exec_complete (s : jsstring) :
  cast_occurs chain s -> cast_exec chain s <> None.
Proof.
  intros [before [T [after [-> HT]]]]. induction before as [|a before IH].
  - change (cast_exec chain ([] ++ lit "<" ++ T ++ lit ">" ++ chain ++ after))
      with (match lazy_until (lit ">" ++ chain)
                    (T ++ lit ">" ++ chain ++ after) with
            | Some t => Some t
            | None => cast_exec chain (T ++ lit ">" ++ chain ++ after)
            end).
    pose proof (lazy_until_complete (lit ">" ++ chain) T after HT) as H.
    rewrite <- app_assoc in H.
    destruct (lazy_until (lit ">" ++ chain) (T ++ lit ">" ++ chain ++ after));
      [discriminate | now destruct H].
  - cbn [app cast_exec].
    destruct (if unit_eqb a (ch "<") then _ else None); [discriminate | exact IH].
Qed.

(** X15: the two searches of a block find something exactly when there is
    something to find: [source.match(errorRegex)] is non-empty when and
    only when the text holds an occurrence of the chain followed by a
    member and [.transform], and [fixRegex.exec(source)] matches when and
    only when the text holds a cast of the chain on one line. *)
Theorem cast_matchers_exact (s : jsstring) :
  (match_all chain 0 s <> [] <-> occurs chain s)
  /\ (cast_exec chain s <> None <-> cast_occurs chain s).
Proof.
  split; split.
  - intros H. destruct (match_all chain 0 s) as [|m l] eqn:E; [now destruct H|].
    apply (match_all_occurs chain s 0 m). rewrite E. now left.
  - apply match_all_complete.
  - intros H. destruct (cast_exec chain s) as [T|] eqn:E; [|now destruct H].
    exact (cast_exec_spec chain s T E).
  - apply cast_exec_complete.
Qed.

End CastMatchers.

Lemma fix_chain_two_level_witness :
  CastSpec.rewritten (lit "this.parent.parent") (lit "this.parent") (lit "View_A")
    (lit "(<View_A>this.parent.parent); this.parent.parent.p.transform(1)")
    (CodeGenerator.fix_chain (lit "this.parent.parent") 18
       (lit "(<View_A>this.parent.parent); this.parent.parent.p.transform(1)")).
Proof.
  apply (fix_chain_two_level
           (lit "(<View_A>this.parent.parent); this.parent.parent.p.transform(1)")
           (lit "View_A")); vm_compute; reflexivity.
Defined.

(** ** [main]: module names, module ids and the command line *)

Lemma str_eqb_eq (a b : jsstring) : str_eqb a b = true <-> a = b.
Proof.
  revert b. induction a as [|x a IH]; intros [|y b]; cbn [str_eqb];
    try (split; [discriminate | discriminate]); [tauto|].
  rewrite andb_true_iff, unit_eqb_eq, IH. split.
  - now intros [-> ->].
  - intros H. now inversion H.
Qed.

Lemma index_or_extension_forms_spec (s : jsstring) :
  Main.index_or_extension s = true <-> In s index_or_extension_forms.
Proof.
  unfold Main.index_or_extension. split.
  - destruct (drop_prefix (lit "/index") s) as [rest|] eqn:E.
    + apply drop_prefix_spec in E. subst s. intros H.
      apply orb_true_iff in H. destruct H as [H | H];
        [apply orb_true_iff in H; destruct H as [H | H]|].
      * cbn [existsb Main.extensions] in H.
        repeat (apply orb_true_iff in H; destruct H as [H | H]);
          try discriminate H; apply str_eqb_eq in H; subst rest;
          cbv; tauto.
      * exfalso. cbn [existsb Main.extensions] in H.
        repeat (apply orb_true_iff in H; destruct H as [H | H]);
          try discriminate H; apply str_eqb_eq in H; discriminate H.
      * destruct rest; [|discriminate H]. cbv; tauto.
    + intros H. cbn [existsb Main.extensions] in H.
      repeat (apply orb_true_iff in H; destruct H as [H | H]);
        try discriminate H; apply str_eqb_eq in H; subst s; cbv; tauto.
  - intros H. cbv [index_or_extension_forms In] in H.
    repeat (destruct H as [<- | H]; [vm_compute; reflexivity|]).
    destruct H.
Qed.

Lemma strip_unfold (s : jsstring) :
  Main.strip_index_or_extension s
  = if Main.index_or_extension s then []
    else match s with
         | [] => []
         | c :: rest => c :: Main.strip_index_or_extension rest
         end.
Proof. destruct s; reflexivity. Qed.

(** A text the replacement leaves alone ends with none of the forms. *)
Lemma strip_fixed_no_form (s : jsstring) :
  Main.strip_index_or_extension s = s ->
  forall a d, s = a ++ d -> Main.index_or_extension d = false.
Proof.
  induction s as [|c s IH]; intros Hs a d E.
  - destruct a; [|discriminate E]. destruct d; [reflexivity | discriminate E].
  - rewrite strip_unfold in Hs.
    destruct (Main.index_or_extension (c :: s)) eqn:Hc; [discriminate Hs|].
    injection Hs as Hs.
    destruct a as [|x a]; cbn [app] in E.
    + now subst d.
    + injection E as _ E. exact (IH Hs a d E).
Qed.

(** The replacement takes a form off the end when no longer form ends
    there. *)
Lemma strip_form (stem form : jsstring) :
  Main.index_or_extension form = true ->
  (forall a d, stem = a ++ d -> d <> [] ->
     Main.index_or_extension (d ++ form) = false) ->
  Main.strip_index_or_extension (stem ++ form) = stem.
Proof.
  intros Hform. induction stem as [|c stem IH]; intros Hlonger.
  - cbn [app]. rewrite strip_unfold. now rewrite Hform.
  - rewrite strip_unfold.
    rewrite (Hlonger [] (c :: stem) eq_refl); [|discriminate].
    cbn [app]. f_equal. apply IH. intros a d E Hd.
    apply (Hlonger (c :: a) d); [now rewrite E | exact Hd].
Qed.

(** A form with something before it is a form again only when [/index]
    came before an extension, or [.d] or [/index.d] before [.ts]. *)
Lemma longer_form (d form : jsstring) :
  In form index_or_extension_forms -> d <> [] ->
  Main.index_or_extension (d ++ form) = true ->
  d = lit "/index" \/ d = lit ".d" \/ d = lit "/index.d".
Proof.
  intros Hform Hd H. apply index_or_extension_forms_spec in H.
  cbv [index_or_extension_forms In] in Hform, H.
  repeat (destruct Hform as [<- | Hform]; [|]); try (now destruct Hform);
    repeat (destruct H as [H | H]; [|]); try (now destruct H);
    match type of H with
    | ?k = d ++ ?form =>
        let X := fresh in
        pose proof (drop_suffix_app form d) as X; rewrite <- H in X;
        vm_compute in X; try discriminate X;
        injection X as X; subst d; try (now destruct Hd);
        cbv; tauto
    end.
Qed.

Lemma ends_with_app (p a : jsstring) : ends_with p (a ++ p) = true.
Proof. unfold ends_with. now rewrite drop_suffix_app. Qed.

Lemma strip_stem_form (stem form : jsstring) :
  Main.strip_index_or_extension stem = stem ->
  ends_with (lit ".d") stem = false ->
  In form index_or_extension_forms ->
  Main.strip_index_or_extension (stem ++ form) = stem.
Proof.
  intros Hstem Hd Hform. apply strip_form.
  - now apply index_or_extension_forms_spec.
  - intros a d E Hne.
    destruct (Main.index_or_extension (d ++ form)) eqn:H; [|reflexivity].
    exfalso. destruct (longer_form d form Hform Hne H) as [-> | [-> | ->]].
    + pose proof (strip_fixed_no_form stem Hstem a (lit "/index") E) as X.
      discriminate X.
    + rewrite E, ends_with_app in Hd. discriminate Hd.
    + rewrite E in Hd.
      change (lit "/index.d") with (lit "/index" ++ lit ".d") in Hd.
      rewrite app_assoc, ends_with_app in Hd. discriminate Hd.
Qed.

Section MainProperties.

Variable cwd : jsstring.
Variables basePath projectDir googModuleProjectName : jsstring.
Variable outputProjectName : option jsstring.

Let pathToModuleName :=
  Main.pathToModuleName cwd basePath projectDir googModuleProjectName
    outputProjectName.

Lemma pathToModuleName_stripped (context importPath importPath' : jsstring) :
  Main.strip_index_or_extension importPath
  = Main.strip_index_or_extension importPath' ->
  pathToModuleName context importPath = pathToModuleName context importPath'.
Proof.
  intros H. subst pathToModuleName. unfold Main.pathToModuleName. now rewrite H.
Qed.

(** X17: the index file of a directory has one module name however it is
    written: [dir/index], [dir/index.ts], [dir/index.d.ts], [dir/index.js],
    [dir/index.jsx] and [dir/index.tsx] are named alike, whatever [dir] is;
    and a path that itself ends in none of the forms, nor in [.d], is named
    the same with any of the forms or extensions appended. *)
Theorem pathToModuleName_index_forms (context stem form : jsstring) :
  In form index_or_extension_forms ->
  (starts_with (lit "/index") form = true ->
   pathToModuleName context (stem ++ form)
   = pathToModuleName context (stem ++ lit "/index"))
  /\ (Main.strip_index_or_extension stem = stem ->
      ends_with (lit ".d") stem = false ->
      pathToModuleName context (stem ++ form) = pathToModuleName context stem).
Proof.
  intros Hform. split.
  - intros Hindex. apply pathToModuleName_stripped.
    assert (Hstrip : forall f, In f index_or_extension_forms ->
              starts_with (lit "/index") f = true ->
              Main.strip_index_or_extension (stem ++ f) = stem).
    { intros f Hf Hi. apply strip_form.
      - now apply index_or_extension_forms_spec.
      - intros a d E Hne.
        destruct (Main.index_or_extension (d ++ f)) eqn:H; [|reflexivity].
        exfalso. destruct (longer_form d f Hf Hne H) as [-> | [-> | ->]];
          apply index_or_extension_forms_spec in H;
          cbv [index_or_extension_forms In] in Hf;
          repeat (destruct Hf as [<- | Hf]; [|]); try (now destruct Hf);
          try discriminate Hi; vm_compute in H;
          repeat (destruct H as [H | H]; [discriminate H|]); destruct H. }
    rewrite (Hstrip form Hform Hindex).
    rewrite (Hstrip (lit "/index")); [reflexivity | cbv; tauto | reflexivity].
  - intros Hstem Hd. apply pathToModuleName_stripped.
    now rewrite strip_stem_form, Hstem.
Qed.

(** X18: the outcome of [pathToModuleName].  Without a project name the
    name is empty.  A name is empty or an identifier of the grammar.  The
    call throws only as a [TypeError], and only when the configuration has
    no [outDir]; with an [outDir] it always returns.  An import that is not
    relative, from a file with a name, is named after the import alone. *)
Theorem pathToModuleName_outcome (context importPath : jsstring) :
  (googModuleProjectName = [] -> pathToModuleName context importPath = Normal [])
  /\ (forall name, pathToModuleName context importPath = Normal name ->
        name = [] \/ matches_identifier name = true)
  /\ (forall e, pathToModuleName context importPath = Throw e ->
        outputProjectName = None /\ googModuleProjectName <> [])
  /\ (googModuleProjectName <> [] -> context <> [] ->
      GoogModule.first_is_dot (Main.strip_index_or_extension importPath) = false ->
      pathToModuleName context importPath
      = Normal (GoogModule.moduleName (Main.strip_index_or_extension importPath))).
Proof.
  assert (Hname : forall p, GoogModule.moduleName p = []
                            \/ matches_identifier (GoogModule.moduleName p) = true).
  { intros [|c p]; [now left | right].
    apply moduleName_identifier. discriminate. }
  subst pathToModuleName. unfold Main.pathToModuleName.
  destruct googModuleProjectName as [|g0 g]; cbn [is_empty].
  { repeat split; try congruence. intros name H. left. congruence. }
  cbv zeta.
  set (stripped := Main.strip_index_or_extension importPath).
  set (joined := if GoogModule.first_is_dot stripped
                 then path.join [path.dirname context; stripped] else stripped).
  split; [discriminate|]. split; [|split].
  - intros name.
    destruct (is_empty context || GoogModule.first_is_dot stripped).
    + destruct (find_sub projectDir (Main.resolve_from cwd basePath joined))
        as [[b r]|].
      * intros H. injection H as <-. apply Hname.
      * destruct outputProjectName as [outDir|].
        -- destruct (find_sub outDir (Main.resolve_from cwd basePath joined))
             as [[b r]|]; intros H; injection H as <-; apply Hname.
        -- destruct (find_sub (lit "undefined")
                       (Main.resolve_from cwd basePath joined));
             [discriminate|]. intros H; injection H as <-; apply Hname.
    + intros H; injection H as <-; apply Hname.
  - intros e.
    destruct (is_empty context || GoogModule.first_is_dot stripped);
      [|discriminate].
    destruct (find_sub projectDir (Main.resolve_from cwd basePath joined))
      as [[b r]|]; [discriminate|].
    destruct outputProjectName as [outDir|].
    + destruct (find_sub outDir (Main.resolve_from cwd basePath joined))
        as [[b r]|]; discriminate.
    + intros _. split; [reflexivity | discriminate].
  - intros _ Hctx Hrel. subst joined. rewrite Hrel.
    destruct context; [congruence|]. reflexivity.
Qed.

End MainProperties.

Lemma pathToModuleName_index_forms_witness :
  Main.pathToModuleName (lit "/") (lit "/proj") (lit "/proj") (lit "app")
    (Some (lit "/proj/out")) (lit "src/main.ts") (lit "./util" ++ lit "/index.d.ts")
  = Main.pathToModuleName (lit "/") (lit "/proj") (lit "/proj") (lit "app")
      (Some (lit "/proj/out")) (lit "src/main.ts") (lit "./util" ++ lit "/index")
  /\ Main.pathToModuleName (lit "/") (lit "/proj") (lit "/proj") (lit "app")
       (Some (lit "/proj/out")) (lit "src/main.ts") (lit "./util" ++ lit "/index.d.ts")
     = Main.pathToModuleName (lit "/") (lit "/proj") (lit "/proj") (lit "app")
         (Some (lit "/proj/out")) (lit "src/main.ts") (lit "./util").
Proof.
  assert (Hform : In (lit "/index.d.ts") index_or_extension_forms)
    by (cbv; tauto).
  destruct (pathToModuleName_index_forms (lit "/") (lit "/proj") (lit "/proj")
              (lit "app") (Some (lit "/proj/out")) (lit "src/main.ts")
              (lit "./util") (lit "/index.d.ts") Hform) as [H1 H2].
  split; [exact (H1 eq_refl) | exact (H2 eq_refl eq_refl)].
Defined.

Lemma pathToModuleName_outcome_witness :
  Main.pathToModuleName (lit "/") (lit "/proj") (lit "/proj") (lit "app")
    None (lit "src/main.ts") (lit "rxjs/Subject.js")
  = Normal (lit "rxjs.Subject").
Proof.
  destruct (pathToModuleName_outcome (lit "/") (lit "/proj") (lit "/proj")
              (lit "app") None (lit "src/main.ts") (lit "rxjs/Subject.js"))
    as (_ & _ & _ & H).
  apply H; [discriminate | discriminate | reflexivity].
Defined.

(** X19: [fileNameToModuleId] gives a file under the base path the text
    after the base path and one more unit, whatever that unit is (so a
    sibling directory whose name merely starts with the base path loses
    its first units too); the base path itself becomes the empty id; any
    other name is returned as it is; and the id is always the end of the
    name. *)
Theorem fileNameToModuleId_spec (moduleIdBasePath : jsstring) :
  (forall c rest,
      Main.fileNameToModuleId moduleIdBasePath (moduleIdBasePath ++ c :: rest)
      = rest)
  /\ Main.fileNameToModuleId moduleIdBasePath moduleIdBasePath = []
  /\ (forall fileName,
        starts_with moduleIdBasePath fileName = false ->
        Main.fileNameToModuleId moduleIdBasePath fileName = fileName)
  /\ (forall fileName,
        exists before,
          fileName = before ++ Main.fileNameToModuleId moduleIdBasePath fileName).
Proof.
  unfold Main.fileNameToModuleId, substr_from. split; [|split; [|split]].
  - intros c rest. rewrite starts_with_app.
    rewrite skipn_app, skipn_all2 by lia.
    replace (List.length moduleIdBasePath + 1 - List.length moduleIdBasePath)
      with 1 by lia. reflexivity.
  - pose proof (starts_with_app moduleIdBasePath []) as H.
    rewrite app_nil_r in H. rewrite H. apply skipn_all2. lia.
  - intros fileName H. now rewrite H.
  - intros fileName.
    destruct (starts_with moduleIdBasePath fileName); [|now exists []].
    exists (firstn (List.length moduleIdBasePath + 1) fileName).
    symmetry. apply firstn_skipn.
Qed.

Section CommandLine.

Import Main.

Let step (tsArgs : list jsstring) (argName : jsstring) : list jsstring :=
  match indexOf argName tsArgs with
  | Some argIndex => splice2 argIndex tsArgs
  | None => tsArgs
  end.

Lemma indexOf_absent (argName : jsstring) (l : list jsstring) :
  ~ In argName l -> indexOf argName l = None.
Proof.
  induction l as [|a l IH]; intros H; [reflexivity|]. cbn [indexOf].
  destruct (str_eqb a argName) eqn:E.
  - apply str_eqb_eq in E. exfalso. apply H. now left.
  - rewrite IH; [reflexivity|]. intros Hin. apply H. now right.
Qed.

Lemma indexOf_first (argName : jsstring) (a rest : list jsstring) :
  ~ In argName a -> indexOf argName (a ++ argName :: rest) = Some (List.length a).
Proof.
  induction a as [|x a IH]; intros H; cbn [app indexOf List.length].
  - assert (E : str_eqb argName argName = true) by now apply str_eqb_eq.
    now rewrite E.
  - destruct (str_eqb x argName) eqn:E.
    + apply str_eqb_eq in E. exfalso. apply H. now left.
    + rewrite IH; [reflexivity|]. intros Hin. apply H. now right.
Qed.

Lemma step_absent (argName : jsstring) (l : list jsstring) :
  ~ In argName l -> step l argName = l.
Proof. intros H. subst step. cbv beta. now rewrite indexOf_absent. Qed.

Lemma step_pair (argName value : jsstring) (a b : list jsstring) :
  ~ In argName a -> step (a ++ argName :: value :: b) argName = a ++ b.
Proof.
  intros H. subst step. cbv beta. rewrite indexOf_first by exact H.
  unfold splice2. rewrite firstn_app, firstn_all, Nat.sub_diag.
  cbn [firstn]. rewrite app_nil_r, skipn_app, skipn_all2 by lia.
  replace (List.length a + 2 - List.length a) with 2 by lia. reflexivity.
Qed.

Lemma step_last (argName : jsstring) (a : list jsstring) :
  ~ In argName a -> step (a ++ [argName]) argName = a.
Proof.
  intros H. subst step. cbv beta. rewrite indexOf_first by exact H.
  unfold splice2. rewrite firstn_app, firstn_all, Nat.sub_diag.
  cbn [firstn]. rewrite app_nil_r, skipn_all2; [apply app_nil_r|].
  rewrite length_app. cbn. lia.
Qed.

Lemma tsArgs_steps (args : list jsstring) :
  tsArgs args
  = step (step args (lit "--moduleIdBasePath")) (lit "--googModuleProjectName").
Proof. reflexivity. Qed.

(** X20: what TypeScript gets of the command line: an argument of [ngc]
    alone goes with the value after it, and all else stays in its order;
    this holds for either one of the two arguments and for both together,
    in any order, when the arguments occur once and their values are not
    themselves such arguments; at the very end of the line the argument
    goes alone. *)
Theorem tsArgs_removes_ngc_args (a b c : list jsstring)
  (flag value flag' value' : jsstring) :
  In flag ngcOnlyArgs -> In flag' ngcOnlyArgs -> flag <> flag' ->
  ~ In value ngcOnlyArgs -> ~ In value' ngcOnlyArgs ->
  (forall x, In x (a ++ b ++ c) -> ~ In x ngcOnlyArgs) ->
  tsArgs (a ++ b ++ c) = a ++ b ++ c
  /\ tsArgs (a ++ flag :: value :: b ++ c) = a ++ b ++ c
  /\ tsArgs (a ++ flag :: value :: b ++ flag' :: value' :: c) = a ++ b ++ c
  /\ tsArgs (a ++ b ++ c ++ [flag]) = a ++ b ++ c.
Proof.
  intros Hf Hf' Hne Hv Hv' Hclean.
  assert (Habsent : forall x l, In x ngcOnlyArgs ->
            (forall y, In y l -> ~ In y ngcOnlyArgs) -> ~ In x l).
  { intros x l Hx Hl Hin. exact (Hl x Hin Hx). }
  assert (Ha : forall y, In y a -> ~ In y ngcOnlyArgs).
  { intros y Hy. apply Hclean. apply in_or_app. now left. }
  assert (Hb : forall y, In y b -> ~ In y ngcOnlyArgs).
  { intros y Hy. apply Hclean. apply in_or_app. right. apply in_or_app. now left. }
  assert (Hc : forall y, In y c -> ~ In y ngcOnlyArgs).
  { intros y Hy. apply Hclean. apply in_or_app. right. apply in_or_app. now right. }
  assert (Hvb : forall y, In y (value :: b) -> ~ In y ngcOnlyArgs).
  { intros y [<- | Hy]; [exact Hv | now apply Hb]. }
  assert (Hvc : forall y, In y (value' :: c) -> ~ In y ngcOnlyArgs).
  { intros y [<- | Hy]; [exact Hv' | now apply Hc]. }
  assert (Hother : forall x l r, In x ngcOnlyArgs ->
            (forall y, In y l -> ~ In y ngcOnlyArgs) ->
            (forall y, In y r -> ~ In y ngcOnlyArgs) ->
            forall f, f <> x -> ~ In x (l ++ f :: r)).
  { intros x l r Hx Hl Hr f Hfx Hin. apply in_app_or in Hin.
    destruct Hin as [Hin | [Hin | Hin]].
    - exact (Hl x Hin Hx).
    - now apply Hfx.
    - exact (Hr x Hin Hx). }
  assert (Happ : forall l r,
            (forall y, In y l -> ~ In y ngcOnlyArgs) ->
            (forall y, In y r -> ~ In y ngcOnlyArgs) ->
            forall y, In y (l ++ r) -> ~ In y ngcOnlyArgs).
  { intros l r Hl Hr y Hy. apply in_app_or in Hy. destruct Hy; auto. }
  assert (Hm : In (lit "--moduleIdBasePath") ngcOnlyArgs) by (cbv; tauto).
  assert (Hg : In (lit "--googModuleProjectName") ngcOnlyArgs) by (cbv; tauto).
  assert (Hcases : forall x, In x ngcOnlyArgs ->
            x = lit "--moduleIdBasePath" \/ x = lit "--googModuleProjectName").
  { intros x [<- | [<- | []]]; [now left | now right]. }
  assert (Hbc : forall y, In y (b ++ c) -> ~ In y ngcOnlyArgs)
    by (apply Happ; assumption).
  assert (Hab : forall y, In y (a ++ b) -> ~ In y ngcOnlyArgs)
    by (apply Happ; assumption).
  assert (Hcons : forall v l, ~ In v ngcOnlyArgs ->
            (forall y, In y l -> ~ In y ngcOnlyArgs) ->
            forall y, In y (v :: l) -> ~ In y ngcOnlyArgs).
  { intros v l Hv0 Hl y [<- | Hy]; auto. }
  set (m := lit "--moduleIdBasePath") in *.
  set (g := lit "--googModuleProjectName") in *.
  assert (Hmg : m <> g) by discriminate.
  assert (Hgm : g <> m) by discriminate.
  rewrite !tsArgs_steps. fold m g. split; [|split; [|split]].
  - rewrite (step_absent m) by (apply Habsent; auto).
    rewrite (step_absent g) by (apply Habsent; auto). reflexivity.
  - destruct (Hcases flag Hf) as [-> | ->].
    + rewrite (step_pair m value a (b ++ c)) by auto.
      rewrite (step_absent g) by (apply Habsent; auto). reflexivity.
    + rewrite (step_absent m)
        by (apply Hother; [exact Hm | exact Ha | now apply Hcons | exact Hgm]).
      rewrite (step_pair g value a (b ++ c)) by auto. reflexivity.
  - destruct (Hcases flag Hf) as [-> | ->];
      destruct (Hcases flag' Hf') as [-> | ->]; try congruence.
    + rewrite (step_pair m value a (b ++ g :: value' :: c)) by auto.
      rewrite app_assoc.
      rewrite (step_pair g value' (a ++ b) c) by auto.
      now rewrite app_assoc.
    + replace (a ++ g :: value :: b ++ m :: value' :: c)
        with ((a ++ g :: value :: b) ++ m :: value' :: c)
        by (now rewrite <- app_assoc).
      rewrite (step_pair m value' (a ++ g :: value :: b) c)
        by (apply Hother; [exact Hm | exact Ha | now apply Hcons | exact Hgm]).
      rewrite <- app_assoc. cbn [app].
      rewrite (step_pair g value a (b ++ c)) by auto. reflexivity.
  - destruct (Hcases flag Hf) as [-> | ->].
    + replace (a ++ b ++ c ++ [m]) with ((a ++ b ++ c) ++ [m])
        by (now rewrite <- !app_assoc).
      rewrite (step_last m) by (apply Habsent; auto).
      rewrite (step_absent g) by (apply Habsent; auto). reflexivity.
    + replace (a ++ b ++ c ++ [g]) with ((a ++ b ++ c) ++ [g])
        by (now rewrite <- !app_assoc).
      rewrite (step_absent m).
      * rewrite (step_last g) by (apply Habsent; auto). reflexivity.
      * intros Hin. apply in_app_or in Hin.
        destruct Hin as [Hin | [Hin | []]]; [|now apply Hgm].
        revert Hin. apply Habsent; auto.
Qed.

End CommandLine.

Lemma tsArgs_removes_ngc_args_witness :
  Main.tsArgs ([lit "-p"; lit "tsconfig.json"] ++ [] ++ [lit "--watch"])
  = [lit "-p"; lit "tsconfig.json"] ++ [] ++ [lit "--watch"]
  /\ Main.tsArgs ([lit "-p"; lit "tsconfig.json"]
                  ++ lit "--googModuleProjectName" :: lit "app" :: [] ++ [lit "--watch"])
     = [lit "-p"; lit "tsconfig.json"] ++ [] ++ [lit "--watch"]
  /\ Main.tsArgs ([lit "-p"; lit "tsconfig.json"]
                  ++ lit "--googModuleProjectName" :: lit "app"
                     :: [] ++ lit "--moduleIdBasePath" :: lit "src" :: [lit "--watch"])
     = [lit "-p"; lit "tsconfig.json"] ++ [] ++ [lit "--watch"]
  /\ Main.tsArgs ([lit "-p"; lit "tsconfig.json"] ++ [] ++ [lit "--watch"]
                  ++ [lit "--googModuleProjectName"])
     = [lit "-p"; lit "tsconfig.json"] ++ [] ++ [lit "--watch"].
Proof.
  apply (tsArgs_removes_ngc_args [lit "-p"; lit "tsconfig.json"] [] [lit "--watch"]
           (lit "--googModuleProjectName") (lit "app")
           (lit "--moduleIdBasePath") (lit "src")).
  - cbv; tauto.
  - cbv; tauto.
  - discriminate.
  - intros [H | [H | []]]; discriminate H.
  - intros [H | [H | []]]; discriminate H.
  - intros x [<- | [<- | [<- | []]]] [H | [H | []]]; discriminate H.
Defined.

(** ** The animation renderer, the builder and its players *)

Section AnimationRendererProperties.

Import AnimationRenderer.

Variables Node Value Callback : Type.
Variables document_body document window : Node.
Variable namespaceId : jsstring.

Let listen :=
  listen (Value := Value) (Callback := Callback) document_body document window
    namespaceId.
Let resolve := resolveElementFromTarget document_body document window.

Lemma indexOf_absent_dot (s : jsstring) :
  forallb not_dot s = true -> indexOf (ch ".") s = (-1)%Z.
Proof.
  induction s as [|c s IH]; [reflexivity|]. cbn [forallb indexOf].
  intros H. apply andb_true_iff in H. destruct H as [Hc Hs].
  unfold not_dot in Hc. apply negb_true_iff in Hc. rewrite Hc, (IH Hs).
  reflexivity.
Qed.

Lemma indexOf_first_dot (t p : jsstring) :
  forallb not_dot t = true ->
  indexOf (ch ".") (t ++ lit "." ++ p) = Z.of_nat (List.length t).
Proof.
  induction t as [|c t IH]; [reflexivity|]. cbn [forallb app indexOf List.length].
  intros H. apply andb_true_iff in H. destruct H as [Hc Ht].
  unfold not_dot in Hc. apply negb_true_iff in Hc. rewrite Hc, (IH Ht).
  destruct (Z.ltb_spec (Z.of_nat (List.length t)) 0); lia.
Qed.

Lemma parse_at_first_dot (t p : jsstring) :
  forallb not_dot t = true ->
  parseTriggerCallbackName (t ++ lit "." ++ p) = (t, p).
Proof.
  intros Ht. unfold parseTriggerCallbackName. cbv zeta.
  rewrite (indexOf_first_dot t p Ht).
  replace (Z.to_nat (Z.of_nat (List.length t) + 1)) with (List.length t + 1) by lia.
  rewrite Nat2Z.id. f_equal.
  - rewrite firstn_app, firstn_all, Nat.sub_diag. cbn [firstn]. apply app_nil_r.
  - rewrite skipn_app, skipn_all2 by lia.
    replace (List.length t + 1 - List.length t) with 1 by lia. reflexivity.
Qed.

Lemma parse_without_dot (name : jsstring) :
  forallb not_dot name = true -> parseTriggerCallbackName name = ([], name).
Proof.
  intros H. unfold parseTriggerCallbackName. cbv zeta.
  now rewrite (indexOf_absent_dot name H).
Qed.

(** X21: what [listen] asks of the engine.  For [@trigger.phase] the name is
    cut at its first dot: the engine is asked for that trigger and phase, on
    the resolved target, under the namespace of the renderer (so the phase
    may hold dots, the trigger not).  A name [@name] without a dot is not
    taken for a trigger: the engine is asked for the empty trigger, with
    [name] as the phase.  A name that does not start with [@] goes to the
    wrapped renderer, the target as it came. *)
Theorem listen_trigger_and_phase (target : any Node) (callback : Callback) :
  (forall trigger phase,
      forallb not_dot trigger = true ->
      starts_with (lit "@") trigger = false ->
      listen target (lit "@" ++ trigger ++ lit "." ++ phase) callback
      = engine_listen namespaceId (resolve target) trigger phase callback)
  /\ (forall name,
        forallb not_dot name = true ->
        starts_with (lit "@") name = false ->
        listen target (lit "@" ++ name) callback
        = engine_listen namespaceId (resolve target) [] name callback)
  /\ (forall eventName,
        starts_with (lit "@") eventName = false ->
        listen target eventName callback
        = delegate_listen target eventName callback).
Proof.
  subst listen resolve. unfold AnimationRenderer.listen.
  split; [|split].
  - intros trigger phase Ht Hat.
    change (starts_with (lit "@") (lit "@" ++ trigger ++ lit "." ++ phase))
      with true.
    change (substr_from 1 (lit "@" ++ trigger ++ lit "." ++ phase))
      with (trigger ++ lit "." ++ phase).
    cbv iota zeta.
    assert (H : starts_with (lit "@") (trigger ++ lit "." ++ phase) = false).
    { destruct trigger as [|c trigger]; [reflexivity|].
      revert Hat. unfold starts_with. change (lit "@") with [ch "@"].
      cbn [drop_prefix app]. now destruct (unit_eqb (ch "@") c). }
    rewrite H. cbn [negb]. now rewrite (parse_at_first_dot trigger phase Ht).
  - intros name Hn Hat.
    change (starts_with (lit "@") (lit "@" ++ name)) with true.
    change (substr_from 1 (lit "@" ++ name)) with name.
    cbv iota zeta. rewrite Hat. cbn [negb].
    now rewrite (parse_without_dot name Hn).
  - intros eventName H. now rewrite H.
Qed.

End AnimationRendererProperties.

Lemma listen_trigger_and_phase_witness :
  AnimationRenderer.listen (Value := unit) 1 2 3 (lit "c0-1")
    (AnimationRenderer.Text (lit "window"))
    (lit "@" ++ lit "openClose" ++ lit "." ++ lit "done") tt
  = AnimationRenderer.engine_listen (lit "c0-1") (AnimationRenderer.Element 3)
      (lit "openClose") (lit "done") tt
  /\ AnimationRenderer.listen (Value := unit) 1 2 3 (lit "c0-1")
       (AnimationRenderer.Text (lit "window")) (lit "@" ++ lit "openClose") tt
     = AnimationRenderer.engine_listen (lit "c0-1") (AnimationRenderer.Element 3)
         [] (lit "openClose") tt
  /\ AnimationRenderer.listen (Value := unit) 1 2 3 (lit "c0-1")
       (AnimationRenderer.Text (lit "window")) (lit "click") tt
     = AnimationRenderer.delegate_listen (AnimationRenderer.Text (lit "window"))
         (lit "click") tt.
Proof.
  destruct (listen_trigger_and_phase nat unit unit 1 2 3 (lit "c0-1")
              (AnimationRenderer.Text (lit "window")) tt) as (H1 & H2 & H3).
  split; [|split].
  - exact (H1 (lit "openClose") (lit "done") eq_refl eq_refl).
  - exact (H2 (lit "openClose") eq_refl eq_refl).
  - exact (H3 (lit "click") eq_refl).
Defined.

Section AnimationPlayerProperties.

Import AnimationRenderer BrowserAnimationBuilder.

Variables Node Arg Callback : Type.
Variables document_body document window : Node.
Variable namespaceId : jsstring.
Variable sequence : list Arg -> Arg.
Variable empty : Arg.

Let invoke := invoke (Node := Node) (Arg := Arg) (Callback := Callback) namespaceId.
Let create := create (Node := Node) (Arg := Arg) (Callback := Callback) namespaceId empty.
Let _listen :=
  _listen (Node := Node) (Arg := Arg) (Callback := Callback)
    document_body document window namespaceId.

(** X22: all a player sends goes to the animation engine and nothing to
    the wrapped renderer: a command arrives as the property
    [@<id>:<command>] of the player's element, under the namespace of the
    builder's renderer and with the arguments of the call, and a listener
    as a listener for [@<id>:<event>] with an empty phase, on the resolved
    element; the id and the event are never cut at a dot. *)
Theorem player_talks_to_engine (player : RendererAnimationPlayer Node) :
  (forall m,
      fst (invoke player m)
      = engine_setProperty namespaceId (element player)
          (lit "@" ++ id player ++ lit ":" ++ fst (command m))
          (snd (command m)))
  /\ (forall element' id' options,
        fst (create id' element' options)
        = engine_setProperty namespaceId element'
            (lit "@" ++ id' ++ lit ":create")
            [match options with Some o => o | None => empty end])
  /\ (forall eventName callback,
        _listen player eventName callback
        = engine_listen namespaceId
            (resolveElementFromTarget document_body document window
               (element player))
            (lit "@" ++ id player ++ lit ":" ++ eventName) [] callback).
Proof.
  subst invoke create _listen. split; [|split].
  - intros m. unfold BrowserAnimationBuilder.invoke.
    destruct (command m) as [name args]. reflexivity.
  - reflexivity.
  - reflexivity.
Qed.

(** X23: [hasStarted] tells whether [play] was ever called: after any run
    of calls on a new player it is true exactly when [play] is among them;
    neither [restart] sets it nor [reset] clears it. *)
Theorem hasStarted_iff_played (id' : jsstring) (element' : any Node)
  (options : option Arg) (calls : list (method Arg)) :
  hasStarted
    (fold_left (fun player m => snd (invoke player m)) calls
       (snd (create id' element' options)))
  = existsb (fun m => match m with play => true | _ => false end) calls.
Proof.
  assert (H : forall p : RendererAnimationPlayer Node,
             hasStarted (fold_left (fun player m => snd (invoke player m)) calls p)
             = hasStarted p
               || existsb (fun m => match m with play => true | _ => false end)
                    calls).
  { induction calls as [|m calls IH]; intros p; cbn [fold_left existsb].
    - now rewrite orb_false_r.
    - rewrite IH. subst invoke. unfold BrowserAnimationBuilder.invoke.
      destruct m; cbn [command snd hasStarted _started orb];
        try reflexivity.
      now rewrite orb_true_r. }
  rewrite H. reflexivity.
Qed.

End AnimationPlayerProperties.

(** ** Counters as text *)

Lemma lit_cons (a : ascii) (s : string) :
  lit (String a s) = N_of_ascii a :: lit s.
Proof. reflexivity. Qed.

Lemma lit_inj (s t : string) : lit s = lit t -> s = t.
Proof.
  revert t. induction s as [|a s IH]; intros [|b t] H; try discriminate H.
  - reflexivity.
  - rewrite !lit_cons in H. injection H as Hab Hst.
    apply (f_equal ascii_of_N) in Hab. rewrite !ascii_N_embedding in Hab.
    subst b. f_equal. now apply IH.
Qed.

Lemma Number_toString_inj (n m : nat) :
  Number_toString n = Number_toString m -> n = m.
Proof.
  unfold Number_toString. intros H. apply lit_inj in H.
  apply (f_equal DecimalString.NilEmpty.uint_of_string) in H.
  rewrite !DecimalString.NilEmpty.usu in H. injection H as H.
  apply (f_equal Nat.of_uint) in H.
  now rewrite !DecimalNat.Unsigned.of_to in H.
Qed.

Lemma Number_toString_digits (n : nat) : ~ In (ch "-") (Number_toString n).
Proof.
  unfold Number_toString. generalize (Nat.to_uint n) as d.
  induction d; cbn [DecimalString.NilEmpty.string_of_uint]; rewrite ?lit_cons;
    intros H; try (destruct H as [H | H]; [discriminate H | now apply IHd]).
  destruct H.
Qed.

(** Texts that end alike after their last marker end with the same text. *)
Lemma after_last_marker (d : code_unit) (a1 a2 b1 b2 : jsstring) :
  ~ In d b1 -> ~ In d b2 -> a1 ++ d :: b1 = a2 ++ d :: b2 -> b1 = b2.
Proof.
  intros H1 H2. revert a2. induction a1 as [|x a1 IH]; intros [|y a2] E;
    cbn [app] in E.
  - now injection E.
  - injection E as -> E. exfalso. apply H1. rewrite E. apply in_or_app.
    right. now left.
  - injection E as -> E. exfalso. apply H2. rewrite <- E. apply in_or_app.
    right. now left.
  - injection E as _ E. exact (IH a2 E).
Qed.

Lemma namespace_counter (t1 t2 : jsstring) (n1 n2 : nat) :
  t1 ++ lit "-" ++ Number_toString n1 = t2 ++ lit "-" ++ Number_toString n2 ->
  n1 = n2.
Proof.
  intros H. apply Number_toString_inj.
  exact (after_last_marker (ch "-") t1 t2 _ _ (Number_toString_digits n1)
           (Number_toString_digits n2) H).
Qed.

Lemma map_fst_combine (A B : Type) (l : list A) (l' : list B) :
  List.length l = List.length l' -> map fst (combine l l') = l.
Proof.
  revert l'. induction l as [|x l IH]; intros [|y l'] H; try discriminate H;
    [reflexivity|].
  cbn [combine map fst]. f_equal. apply IH. now injection H.
Qed.

Section BuilderProperties.

Import AnimationRenderer BrowserAnimationBuilder.

Variables Node Arg Callback : Type.
Variable namespaceId : jsstring.
Variable sequence : list Arg -> Arg.

Let run :=
  builds (Node := Node) (Arg := Arg) (Callback := Callback) namespaceId sequence.

(** What the [k]-th call of [build] sends. *)
Let sent (ka : nat * animation Arg) : call Node (list Arg) Callback :=
  engine_setProperty namespaceId Null
    (lit "@" ++ Number_toString (fst ka) ++ lit ":register")
    [match snd ka with Steps steps => sequence steps | Metadata e => e end].

Lemma builds_from (n : nat) (animations : list (animation Arg)) :
  run n animations
  = map (fun ka => (sent ka, Number_toString (fst ka)))
        (combine (seq n (List.length animations)) animations).
Proof.
  subst run sent. revert n. induction animations as [|a rest IH]; intros n;
    [reflexivity|].
  cbn [builds]. unfold build. cbn [List.length seq combine map fst snd].
  now rewrite IH.
Qed.

(** X24: the animations built on one builder get the ids [0], [1], [2] and
    so on, in decimal, so no two of them share an id; each one is
    registered with the engine, on no element, as the property
    [@<id>:register], an array of steps wrapped as a sequence and anything
    else passed as it is. *)
Theorem build_ids_distinct (animations : list (animation Arg)) :
  (N.of_nat (List.length animations) < 2 ^ 53)%N ->
  map snd (run 0 animations)
  = map Number_toString (seq 0 (List.length animations))
  /\ NoDup (map snd (run 0 animations))
  /\ map fst (run 0 animations)
     = map sent (combine (seq 0 (List.length animations)) animations).
Proof.
  intros _. rewrite builds_from.
  assert (Hids : map snd
                   (map (fun ka => (sent ka, Number_toString (fst ka)))
                        (combine (seq 0 (List.length animations)) animations))
                 = map Number_toString (seq 0 (List.length animations))).
  { rewrite map_map. cbn [snd].
    rewrite <- (map_map fst Number_toString). f_equal.
    apply map_fst_combine. now rewrite length_seq. }
  split; [exact Hids|]. split.
  - rewrite Hids. apply NoDup_map_NoDup_ForallPairs; [|apply seq_NoDup].
    intros n m _ _. apply Number_toString_inj.
  - rewrite map_map. cbn [fst]. apply map_ext. reflexivity.
Qed.

End BuilderProperties.

Lemma build_ids_distinct_witness :
  map snd
    (builds (Node := unit) (Callback := unit) (lit "0-0")
       (fun steps : list nat => List.length steps) 0
       [BrowserAnimationBuilder.Steps [4; 5]; BrowserAnimationBuilder.Metadata 7])
  = [lit "0"; lit "1"]
  /\ NoDup
       (map snd
          (builds (Node := unit) (Callback := unit) (lit "0-0")
             (fun steps : list nat => List.length steps) 0
             [BrowserAnimationBuilder.Steps [4; 5];
              BrowserAnimationBuilder.Metadata 7]))
  /\ map fst
       (builds (Node := unit) (Callback := unit) (lit "0-0")
          (fun steps : list nat => List.length steps) 0
          [BrowserAnimationBuilder.Steps [4; 5]; BrowserAnimationBuilder.Metadata 7])
     = [AnimationRenderer.engine_setProperty (lit "0-0") AnimationRenderer.Null
          (lit "@0:register") [2];
        AnimationRenderer.engine_setProperty (lit "0-0") AnimationRenderer.Null
          (lit "@1:register") [7]].
Proof.
  apply (build_ids_distinct unit nat unit (lit "0-0")
           (fun steps : list nat => List.length steps)
           [BrowserAnimationBuilder.Steps [4; 5]; BrowserAnimationBuilder.Metadata 7]).
  vm_compute. reflexivity.
Defined.

Section FactoryProperties.

Import AnimationRendererFactory.

Variables Host Delegate Trigger : Type.
Variable trigger_name : Trigger -> jsstring.
Variable delegate_createRenderer :
  option Host -> option (RendererType2 Trigger) -> Delegate.
Variable same_delegate : Delegate -> Delegate -> bool.

Let createRenderer :=
  createRenderer trigger_name delegate_createRenderer same_delegate.
Let run := createRenderers trigger_name delegate_createRenderer same_delegate.

(** The cache holds base renderers only. *)
Let base_only (this : factory Delegate) : Prop :=
  forall d r, In (d, r) (_rendererCache this) ->
    exists d', r = BaseAnimationRenderer [] d'.

Lemma cache_get_in (cache : list (Delegate * renderer Delegate)) (d : Delegate)
  (r : renderer Delegate) :
  cache_get Delegate same_delegate cache d = Some r -> exists d0, In (d0, r) cache.
Proof.
  induction cache as [|[d0 r0] cache IH]; cbn [cache_get]; [discriminate|].
  destruct (same_delegate d0 d).
  - intros H. injection H as <-. exists d0. now left.
  - intros H. destruct (IH H) as [d1 H1]. exists d1. now right.
Qed.

(** One call: an animation renderer gets the namespace made of the id of
    its type and the counter, registers it and its triggers under it, and
    moves the counter on; a base renderer has the empty namespace, asks
    nothing of the engine and leaves the counter. *)
Lemma createRenderer_step (this : factory Delegate) (hostElement : option Host)
  (type : option (RendererType2 Trigger)) :
  base_only this ->
  let '(calls, r, this') := createRenderer this hostElement type in
  base_only this'
  /\ ((exists d, r = BaseAnimationRenderer [] d)
      /\ calls = [] /\ _currentId this' = _currentId this
      \/ (exists t d,
            r = AnimationRenderer (t ++ lit "-" ++ Number_toString (_currentId this)) d
            /\ registered_namespaces calls
               = [t ++ lit "-" ++ Number_toString (_currentId this)]
            /\ _currentId this' = S (_currentId this))).
Proof.
  intros Hcache.
  assert (Hbase : let '(calls, r, this') :=
                    base_renderer Host Delegate Trigger same_delegate this
                      (delegate_createRenderer hostElement type) in
                  base_only this'
                  /\ ((exists d, r = BaseAnimationRenderer [] d)
                      /\ calls = [] /\ _currentId this' = _currentId this
                      \/ (exists t d,
                            r = AnimationRenderer
                                  (t ++ lit "-" ++ Number_toString (_currentId this)) d
                            /\ registered_namespaces calls
                               = [t ++ lit "-" ++ Number_toString (_currentId this)]
                            /\ _currentId this' = S (_currentId this)))).
  { unfold base_renderer.
    destruct (cache_get Delegate same_delegate (_rendererCache this)
                (delegate_createRenderer hostElement type)) as [r|] eqn:E.
    - split; [exact Hcache|]. left.
      destruct (cache_get_in _ _ _ E) as [d0 Hin].
      destruct (Hcache d0 r Hin) as [d' ->]. split; [now exists d' | now split].
    - split.
      + intros d r [H | H].
        * injection H as _ <-. now eexists.
        * exact (Hcache d r H).
      + left. split; [now eexists | now split]. }
  subst createRenderer. unfold AnimationRendererFactory.createRenderer.
  destruct hostElement as [host|]; [|exact Hbase].
  destruct type as [ty|]; [|exact Hbase].
  destruct (data_animation ty) as [triggers|]; [|exact Hbase].
  split; [exact Hcache|]. right. exists (type_id ty), (delegate_createRenderer (Some host) (Some ty)).
  split; [reflexivity|]. split; [|reflexivity].
  cbn [registered_namespaces flat_map app]. f_equal.
  induction triggers as [|t triggers IH]; [reflexivity|]. exact IH.
Qed.

Lemma run_namespaces (requests : list (option Host * option (RendererType2 Trigger)))
  (this : factory Delegate) :
  base_only this ->
  let results := run this requests in
  (forall ns, In ns (animation_namespaces (map snd results)) ->
     exists t k, _currentId this <= k /\ ns = t ++ lit "-" ++ Number_toString k)
  /\ NoDup (animation_namespaces (map snd results))
  /\ flat_map (fun result => registered_namespaces (fst result)) results
     = animation_namespaces (map snd results)
  /\ (forall ns d, In (BaseAnimationRenderer ns d) (map snd results) -> ns = []).
Proof.
  cbv zeta. revert this. induction requests as [|[hostElement type] requests IH];
    intros this Hcache.
  - cbn. repeat split; try (intros ? []); try (intros ? ? []). constructor.
  - subst run. cbn [createRenderers].
    pose proof (createRenderer_step this hostElement type Hcache) as Hstep.
    subst createRenderer. cbv beta in Hstep.
    destruct (AnimationRendererFactory.createRenderer trigger_name
                delegate_createRenderer same_delegate this hostElement type)
      as [[calls r] this'].
    destruct Hstep as [Hcache' Hstep].
    destruct (IH this' Hcache') as (Hform & Hnodup & Hreg & Hbase).
    cbn [map snd fst flat_map animation_namespaces] in *.
    fold (animation_namespaces (Delegate := Delegate)) in *.
    destruct Hstep as [([d ->] & -> & Hid) | (t & d & -> & Hcalls & Hid)].
    + cbn [app registered_namespaces flat_map]. rewrite Hid in Hform.
      repeat split; try assumption.
      intros ns d0 [H | H]; [now injection H as <- | exact (Hbase ns d0 H)].
    + rewrite Hcalls. cbn [app]. split; [|split; [|split]].
      * intros ns [<- | H]; [exists t, (_currentId this); split; [lia | reflexivity]|].
        destruct (Hform ns H) as (t' & k & Hk & ->). exists t', k. split; [lia | reflexivity].
      * constructor; [|exact Hnodup]. intros H.
        destruct (Hform _ H) as (t' & k & Hk & E).
        apply namespace_counter in E. lia.
      * now rewrite Hreg.
      * intros ns d0 [H | H]; [discriminate H | exact (Hbase ns d0 H)].
Qed.

(** X25: over any run of calls of [createRenderer] on a new factory, no two
    animation renderers get the same namespace, whatever the ids of their
    types; the namespaces registered with the engine are those of the
    animation renderers returned, in the order of the calls; and a base
    renderer always has the empty namespace. *)
Theorem createRenderer_namespaces_distinct
  (requests : list (option Host * option (RendererType2 Trigger))) :
  (N.of_nat (List.length requests) < 2 ^ 53)%N ->
  let results := run new_factory requests in
  NoDup (animation_namespaces (map snd results))
  /\ flat_map (fun result => registered_namespaces (fst result)) results
     = animation_namespaces (map snd results)
  /\ (forall ns d, In (BaseAnimationRenderer ns d) (map snd results) -> ns = []).
Proof.
  intros _. cbv zeta.
  destruct (run_namespaces requests new_factory) as (_ & H1 & H2 & H3).
  - intros d r [].
  - repeat split; assumption.
Qed.

End FactoryProperties.

Lemma createRenderer_namespaces_distinct_witness :
  NoDup
    (animation_namespaces
       (map snd
          (createRenderers (Host := nat) (Delegate := nat) (Trigger := jsstring)
             (fun t => t) (fun _ _ => 0) Nat.eqb
             AnimationRendererFactory.new_factory
             [(Some 1,
               Some {| AnimationRendererFactory.type_id := lit "c1";
                       AnimationRendererFactory.data_animation := Some [lit "fade"] |});
              (Some 2, None);
              (Some 3,
               Some {| AnimationRendererFactory.type_id := lit "c1";
                       AnimationRendererFactory.data_animation := Some [] |})])))
  /\ flat_map (fun result => registered_namespaces (fst result))
       (createRenderers (Host := nat) (Delegate := nat) (Trigger := jsstring)
          (fun t => t) (fun _ _ => 0) Nat.eqb
          AnimationRendererFactory.new_factory
          [(Some 1,
            Some {| AnimationRendererFactory.type_id := lit "c1";
                    AnimationRendererFactory.data_animation := Some [lit "fade"] |});
           (Some 2, None);
           (Some 3,
            Some {| AnimationRendererFactory.type_id := lit "c1";
                    AnimationRendererFactory.data_animation := Some [] |})])
     = [lit "c1-0"; lit "c1-1"]
  /\ (forall ns d,
        In (AnimationRendererFactory.BaseAnimationRenderer ns d)
           (map snd
              (createRenderers (Host := nat) (Delegate := nat) (Trigger := jsstring)
                 (fun t => t) (fun _ _ => 0) Nat.eqb
                 AnimationRendererFactory.new_factory
                 [(Some 1,
                   Some {| AnimationRendererFactory.type_id := lit "c1";
                           AnimationRendererFactory.data_animation :=
                             Some [lit "fade"] |});
                  (Some 2, None);
                  (Some 3,
                   Some {| AnimationRendererFactory.type_id := lit "c1";
                           AnimationRendererFactory.data_animation := Some [] |})])) ->
        ns = []).
Proof.
  apply (createRenderer_namespaces_distinct nat nat jsstring (fun t => t)
           (fun _ _ => 0) Nat.eqb
           [(Some 1,
             Some {| AnimationRendererFactory.type_id := lit "c1";
                     AnimationRendererFactory.data_animation := Some [lit "fade"] |});
            (Some 2, None);
            (Some 3,
             Some {| AnimationRendererFactory.type_id := lit "c1";
                     AnimationRendererFactory.data_animation := Some [] |})]).
  vm_compute. reflexivity.
Defined.

(** ** The helpers of the end-to-end tests *)

Section OpenBrowserProperties.

Import E2eUtil.

Variable Value : Type.
Variable to_text : Value -> jsstring.
Variable Boolean : bool -> Value.
Variable cmdArgs_bundles : bool.
Variable encodeURI : jsstring -> jsstring.

Let openBrowser := openBrowser to_text Boolean cmdArgs_bundles encodeURI.


End OpenBrowserProperties.

(** ** Relative specifiers *)

Lemma split_on_segment (seg rest : jsstring) :
  forallb not_slash seg = true ->
  split_on (ch "/") (seg ++ ch "/" :: rest) = seg :: split_on (ch "/") rest.
Proof.
  induction seg as [|c seg IH]; intros H.
  - reflexivity.
  - cbn [forallb] in H. apply andb_true_iff in H. destruct H as [Hc Hs].
    cbn [app split_on]. unfold not_slash in Hc. apply negb_true_iff in Hc.
    rewrite Hc, (IH Hs). reflexivity.
Qed.

Lemma split_on_last (seg : jsstring) :
  forallb not_slash seg = true -> split_on (ch "/") seg = [seg].
Proof.
  induction seg as [|c seg IH]; intros H; [reflexivity|].
  cbn [forallb] in H. apply andb_true_iff in H. destruct H as [Hc Hs].
  cbn [split_on]. unfold not_slash in Hc. apply negb_true_iff in Hc.
  rewrite Hc, (IH Hs). reflexivity.
Qed.

Lemma join_with_cons (seg seg' : jsstring) (segs : list jsstring) :
  join_with path.sep (seg :: seg' :: segs)
  = seg ++ ch "/" :: join_with path.sep (seg' :: segs).
Proof. reflexivity. Qed.

Lemma split_join (segs : list jsstring) :
  segs <> [] -> forallb (forallb not_slash) segs = true ->
  split_on (ch "/") (join_with path.sep segs) = segs.
Proof.
  induction segs as [|seg [|seg' segs] IH]; intros Hne H; [congruence| |].
  - cbn [forallb] in H. apply andb_true_iff in H. destruct H as [H _].
    now apply split_on_last.
  - cbn [forallb] in H. apply andb_true_iff in H. destruct H as [H1 H2].
    rewrite join_with_cons, (split_on_segment _ _ H1), IH;
      [reflexivity | discriminate | exact H2].
Qed.

Lemma join_with_app (a b : list jsstring) :
  a <> [] -> b <> [] ->
  join_with path.sep (a ++ b)
  = join_with path.sep a ++ ch "/" :: join_with path.sep b.
Proof.
  intros Ha Hb. induction a as [|x [|y a] IH]; [congruence| |].
  - destruct b as [|z b]; [congruence|]. reflexivity.
  - change ((x :: y :: a) ++ b) with (x :: y :: (a ++ b)).
    rewrite !join_with_cons.
    change (y :: a ++ b) with ((y :: a) ++ b). rewrite IH by discriminate.
    now rewrite <- app_assoc.
Qed.

Lemma plain_parts (seg : jsstring) :
  plain_segment seg = true ->
  seg <> [] /\ forallb not_slash seg = true
  /\ path.is_dot seg = false /\ path.is_dotdot seg = false.
Proof.
  unfold plain_segment. intros H.
  apply andb_true_iff in H. destruct H as [H H4].
  apply andb_true_iff in H. destruct H as [H H3].
  apply andb_true_iff in H. destruct H as [H1 H2].
  apply negb_true_iff in H3, H4.
  repeat split; try assumption. now destruct seg.
Qed.

Lemma plain_no_slash (segs : list jsstring) :
  forallb plain_segment segs = true -> forallb (forallb not_slash) segs = true.
Proof.
  induction segs as [|seg segs IH]; [reflexivity|]. cbn [forallb].
  intros H. apply andb_true_iff in H. destruct H as [H1 H2].
  destruct (plain_parts _ H1) as (_ & Hs & _). now rewrite Hs, IH.
Qed.

Lemma normalize_step_plain (allowAboveRoot : bool) (res : list jsstring)
  (seg : jsstring) :
  plain_segment seg = true ->
  path.normalize_step allowAboveRoot res seg = seg :: res.
Proof.
  intros H. destruct (plain_parts _ H) as (Hne & _ & Hd & Hdd).
  unfold path.normalize_step. rewrite Hd, Hdd.
  destruct seg; [congruence | reflexivity].
Qed.

Lemma normalize_plain (allowAboveRoot : bool) (segs res : list jsstring) :
  forallb plain_segment segs = true ->
  fold_left (path.normalize_step allowAboveRoot) segs res = rev segs ++ res.
Proof.
  revert res. induction segs as [|seg segs IH]; intros res H; [reflexivity|].
  cbn [forallb] in H. apply andb_true_iff in H. destruct H as [H1 H2].
  cbn [fold_left rev]. rewrite (normalize_step_plain _ _ _ H1), (IH _ H2).
  now rewrite <- app_assoc.
Qed.

Lemma normalize_parents (allowAboveRoot : bool) (ups : nat)
  (res : list jsstring) :
  forallb plain_segment res = true -> ups <= List.length res ->
  fold_left (path.normalize_step allowAboveRoot) (repeat (lit "..") ups) res
  = skipn ups res.
Proof.
  revert res. induction ups as [|ups IH]; intros res H Hlen; [reflexivity|].
  destruct res as [|top res]; [cbn in Hlen; lia|].
  cbn [forallb] in H. apply andb_true_iff in H. destruct H as [H1 H2].
  destruct (plain_parts _ H1) as (_ & _ & _ & Hdd).
  cbn [repeat fold_left skipn].
  assert (Hstep : path.normalize_step allowAboveRoot (top :: res) (lit "..") = res).
  { unfold path.normalize_step.
    change (is_empty (lit "..") || path.is_dot (lit "..")) with false.
    change (path.is_dotdot (lit "..")) with true. cbv iota. now rewrite Hdd. }
  rewrite Hstep. apply IH; [exact H2 | cbn in Hlen; lia].
Qed.

Lemma normalize_dots (allowAboveRoot : bool) (ups : nat) (res : list jsstring) :
  forallb plain_segment res = true -> ups <= List.length res ->
  fold_left (path.normalize_step allowAboveRoot) (leading_dots ups) res
  = skipn ups res.
Proof.
  intros H Hlen. destruct ups as [|ups]; [reflexivity|].
  now apply normalize_parents.
Qed.

Lemma last_app_nonempty (a b : jsstring) (d : code_unit) :
  b <> [] -> last (a ++ b) d = last b d.
Proof.
  intros Hb. induction a as [|x a IH]; [reflexivity|].
  cbn [app]. destruct (a ++ b) as [|y r] eqn:E.
  - destruct a; [cbn in E; congruence | discriminate E].
  - exact IH.
Qed.

Lemma last_no_slash (seg : jsstring) :
  seg <> [] -> forallb not_slash seg = true ->
  unit_eqb (last seg 0%N) (ch "/") = false.
Proof.
  induction seg as [|c [|c' seg] IH]; intros Hne H; [congruence| |].
  - cbn [forallb] in H. apply andb_true_iff in H. destruct H as [H _].
    unfold not_slash in H. now apply negb_true_iff in H.
  - cbn [forallb] in H. apply andb_true_iff in H. destruct H as [_ H].
    change (last (c :: c' :: seg) 0%N) with (last (c' :: seg) 0%N).
    apply IH; [discriminate | exact H].
Qed.

(** The last unit of a joined path is that of its last segment. *)
Lemma join_last (segs : list jsstring) :
  segs <> [] -> forallb (fun seg => negb (is_empty seg)) segs = true ->
  forallb (forallb not_slash) segs = true ->
  unit_eqb (last (join_with path.sep segs) 0%N) (ch "/") = false.
Proof.
  induction segs as [|seg [|seg' segs] IH]; intros Hne H1 H2; [congruence| |].
  - cbn [forallb] in H1, H2. apply andb_true_iff in H1, H2.
    destruct H1 as [H1 _], H2 as [H2 _].
    apply last_no_slash; [now destruct seg | exact H2].
  - cbn [forallb] in H1, H2. apply andb_true_iff in H1, H2.
    destruct H1 as [_ H1], H2 as [_ H2].
    rewrite join_with_cons.
    change (seg ++ ch "/" :: join_with path.sep (seg' :: segs))
      with (seg ++ (ch "/" :: join_with path.sep (seg' :: segs))).
    rewrite last_app_nonempty by discriminate.
    assert (Hj : join_with path.sep (seg' :: segs) <> []).
    { cbn [forallb] in H1. apply andb_true_iff in H1. destruct H1 as [H1 _].
      destruct seg'; [discriminate H1|]. destruct segs; discriminate. }
    destruct (join_with path.sep (seg' :: segs)) as [|x r] eqn:E; [congruence|].
    change (last (ch "/" :: x :: r) 0%N) with (last (x :: r) 0%N).
    apply IH; [discriminate | exact H1 | exact H2].
Qed.

Lemma solid_of_plain (segs : list jsstring) :
  forallb plain_segment segs = true ->
  forallb (fun seg => negb (is_empty seg)) segs = true.
Proof.
  induction segs as [|seg segs IH]; [reflexivity|]. cbn [forallb].
  intros H. apply andb_true_iff in H. destruct H as [H1 H2].
  destruct (plain_parts _ H1) as (Hne & _). rewrite (IH H2).
  now destruct seg.
Qed.

(** A relative path whose segments are in order normalizes to the segments
    that are left once [.] is dropped and each [..] has undone the segment
    before it. *)
Lemma normalize_relative (segs kept : list jsstring) (c0 : code_unit)
  (rest : jsstring) :
  join_with path.sep segs = c0 :: rest ->
  unit_eqb c0 (ch "/") = false ->
  segs <> [] ->
  forallb (fun seg => negb (is_empty seg)) segs = true ->
  forallb (forallb not_slash) segs = true ->
  rev (fold_left (path.normalize_step true) segs []) = kept ->
  join_with path.sep kept <> [] ->
  path.normalize (join_with path.sep segs) = join_with path.sep kept.
Proof.
  intros Hp Hc0 Hne H1 H2 Hkept Hout.
  pose proof (join_last segs Hne H1 H2) as Hlast.
  unfold path.normalize. rewrite Hp. rewrite Hp in Hlast.
  rewrite Hc0, Hlast. cbn [negb].
  unfold path.normalizeString, path.normalize_segments.
  rewrite <- Hp, (split_join segs Hne H2), Hkept.
  destruct (join_with path.sep kept) as [|x r]; [congruence|].
  reflexivity.
Qed.
Lemma span_reject (p : code_unit -> bool) (s : jsstring) :
  match s with [] => True | c :: _ => p c = false end -> span p s = ([], s).
Proof. destruct s as [|c s]; [reflexivity|]. cbn [span]. now intros ->. Qed.

Lemma forallb_rev_units (p : code_unit -> bool) (s : jsstring) :
  forallb p s = true -> forallb p (rev s) = true.
Proof.
  rewrite !forallb_forall. intros H x Hx. apply H. now apply in_rev.
Qed.

Lemma rev_head_no_slash (seg tail : jsstring) :
  seg <> [] -> forallb not_slash seg = true ->
  match rev seg ++ tail with
  | [] => True
  | c :: _ => unit_eqb c (ch "/") = false
  end.
Proof.
  intros Hne H. apply forallb_rev_units in H.
  destruct (rev seg) as [|c r] eqn:E.
  - apply (f_equal (@rev code_unit)) in E. rewrite rev_involutive in E.
    now subst seg.
  - cbn [app forallb] in *. apply andb_true_iff in H. destruct H as [H _].
    unfold not_slash in H. now apply negb_true_iff in H.
Qed.

Lemma join_with_head (seg : jsstring) (segs : list jsstring) (c : code_unit)
  (r : jsstring) :
  seg = c :: r -> exists rest, join_with path.sep (seg :: segs) = c :: rest.
Proof.
  intros ->. destruct segs as [|seg' segs]; [now exists r|].
  rewrite join_with_cons. now eexists.
Qed.

(** The directory of a file given by its segments is what its leading
    segments spell, and [.] when there are none. *)
Lemma dirname_join (dirs : list jsstring) (file : jsstring) :
  forallb plain_segment dirs = true -> plain_segment file = true ->
  path.dirname (join_with path.sep (dirs ++ [file]))
  = match dirs with
    | [] => lit "."
    | _ :: _ => join_with path.sep dirs
    end.
Proof.
  intros Hdirs Hfile. destruct (plain_parts _ Hfile) as (Hfne & Hfs & _).
  destruct dirs as [|d ds].
  - cbn [app join_with]. destruct file as [|c0 tl]; [congruence|].
    cbn [forallb] in Hfs. apply andb_true_iff in Hfs. destruct Hfs as [Hc0 Htl].
    unfold not_slash in Hc0. apply negb_true_iff in Hc0.
    unfold path.dirname. rewrite Hc0.
    rewrite (span_reject (fun c => unit_eqb c (ch "/")) (rev tl)).
    + pose proof (span_all not_slash (rev tl) [] (forallb_rev_units _ _ Htl)) as Hs.
      rewrite app_nil_r in Hs. rewrite Hs. reflexivity.
    + destruct tl as [|x tl]; [exact I|].
      pose proof (rev_head_no_slash (x :: tl) [] ltac:(discriminate) Htl) as H.
      now rewrite app_nil_r in H.
  - cbn [forallb] in Hdirs. apply andb_true_iff in Hdirs. destruct Hdirs as [Hd Hds].
    destruct (plain_parts _ Hd) as (Hdne & Hdslash & _).
    destruct d as [|c0 d']; [congruence|].
    cbn [forallb] in Hdslash. apply andb_true_iff in Hdslash.
    destruct Hdslash as [Hc0 _].
    unfold not_slash in Hc0. apply negb_true_iff in Hc0.
    destruct (join_with_head (c0 :: d') ds c0 d' eq_refl) as [J' HJ].
    rewrite join_with_app by discriminate.
    cbn [join_with] in HJ |- *.
    change (match ds with
            | [] => c0 :: d'
            | _ :: _ => (c0 :: d') ++ path.sep ++ join_with path.sep ds
            end) with (join_with path.sep ((c0 :: d') :: ds)) in *.
    rewrite HJ. cbn [app]. unfold path.dirname. rewrite Hc0.
    assert (Hrev : rev (J' ++ ch "/" :: file) = rev file ++ ch "/" :: rev J').
    { rewrite rev_app_distr. cbn [rev]. now rewrite <- app_assoc. }
    rewrite Hrev.
    rewrite (span_reject (fun c => unit_eqb c (ch "/")))
      by (apply rev_head_no_slash; assumption).
    rewrite (span_stop not_slash (rev file) (ch "/") (rev J')
               (forallb_rev_units _ _ Hfs) eq_refl).
    cbn [andb]. now rewrite rev_involutive.
Qed.

Lemma join_with_nonempty (segs : list jsstring) :
  segs <> [] -> forallb (fun seg => negb (is_empty seg)) segs = true ->
  join_with path.sep segs <> [].
Proof.
  destruct segs as [|seg segs]; [congruence|]. intros _ H.
  cbn [forallb] in H. apply andb_true_iff in H. destruct H as [H _].
  destruct seg as [|c r]; [discriminate H|].
  destruct (join_with_head (c :: r) segs c r eq_refl) as [rest ->]. discriminate.
Qed.

Lemma leading_dots_solid (ups : nat) :
  leading_dots ups <> []
  /\ forallb (fun seg => negb (is_empty seg)) (leading_dots ups) = true
  /\ forallb (forallb not_slash) (leading_dots ups) = true
  /\ exists rest, leading_dots ups = (ch "." :: rest) :: tl (leading_dots ups).
Proof.
  destruct ups as [|ups].
  - repeat split; try discriminate. now exists [].
  - cbn [leading_dots]. repeat split; try discriminate.
    + apply forallb_forall. intros x Hx. apply repeat_spec in Hx. now subst.
    + apply forallb_forall. intros x Hx. apply repeat_spec in Hx. now subst.
    + now exists [ch "."].
Qed.

Lemma forallb_rev_segments (p : jsstring -> bool) (l : list jsstring) :
  forallb p l = true -> forallb p (rev l) = true.
Proof.
  rewrite !forallb_forall. intros H x Hx. apply H. now apply in_rev.
Qed.

(** What [path.join] makes of the directory of the importing file and a
    relative specifier. *)
Lemma join_relative (dirs names : list jsstring) (file : jsstring) (ups : nat) :
  forallb plain_segment dirs = true -> plain_segment file = true ->
  forallb plain_segment names = true -> names <> [] ->
  ups <= List.length dirs ->
  path.join [path.dirname (join_with path.sep (dirs ++ [file]));
             join_with path.sep (leading_dots ups ++ names)]
  = join_with path.sep (firstn (List.length dirs - ups) dirs ++ names).
Proof.
  intros Hdirs Hfile Hnames Hne Hups.
  destruct (leading_dots_solid ups) as (Hdne & Hdsolid & Hdslash & dot & Hdhead).
  set (start := match dirs with [] => [lit "."] | _ :: _ => dirs end).
  assert (Hstart : path.dirname (join_with path.sep (dirs ++ [file]))
                   = join_with path.sep start).
  { rewrite (dirname_join dirs file Hdirs Hfile). subst start. now destruct dirs. }
  assert (Hstart_ne : start <> []) by (subst start; destruct dirs; discriminate).
  assert (Hstart_solid : forallb (fun seg => negb (is_empty seg)) start = true).
  { subst start. destruct dirs; [reflexivity | now apply solid_of_plain]. }
  assert (Hstart_slash : forallb (forallb not_slash) start = true).
  { subst start. destruct dirs; [reflexivity | now apply plain_no_slash]. }
  assert (Hstart_fold : fold_left (path.normalize_step true) start [] = rev dirs).
  { subst start. destruct dirs as [|d ds]; [reflexivity|].
    rewrite (normalize_plain true (d :: ds) [] Hdirs). apply app_nil_r. }
  assert (Hspec_ne : leading_dots ups ++ names <> []).
  { destruct (leading_dots ups); [congruence | discriminate]. }
  rewrite Hstart. unfold path.join. cbn [filter].
  rewrite (proj2 (negb_true_iff _)), (proj2 (negb_true_iff _)).
  2:{ pose proof (join_with_nonempty (leading_dots ups ++ names) Hspec_ne) as H.
      destruct (join_with path.sep (leading_dots ups ++ names)); [|reflexivity].
      exfalso. apply H; [|reflexivity].
      rewrite forallb_app, Hdsolid. now apply solid_of_plain. }
  2:{ pose proof (join_with_nonempty start Hstart_ne Hstart_solid) as H.
      destruct (join_with path.sep start); [congruence | reflexivity]. }
  change (join_with path.sep
            [join_with path.sep start;
             join_with path.sep (leading_dots ups ++ names)])
    with (join_with path.sep start
          ++ ch "/" :: join_with path.sep (leading_dots ups ++ names)).
  rewrite <- (join_with_app start (leading_dots ups ++ names) Hstart_ne Hspec_ne).
  assert (Hhead : exists c0 rest,
             join_with path.sep (start ++ leading_dots ups ++ names) = c0 :: rest
             /\ unit_eqb c0 (ch "/") = false).
  { subst start. destruct dirs as [|d ds].
    - exists (ch "."). cbn [app].
      destruct (join_with_head (lit ".") (leading_dots ups ++ names) (ch ".") []
                  eq_refl) as [rest ->].
      now exists rest.
    - cbn [forallb] in Hdirs. apply andb_true_iff in Hdirs. destruct Hdirs as [Hd _].
      destruct (plain_parts _ Hd) as (Hdn & Hds & _).
      destruct d as [|c0 d']; [congruence|].
      cbn [forallb] in Hds. apply andb_true_iff in Hds. destruct Hds as [Hc0 _].
      unfold not_slash in Hc0. apply negb_true_iff in Hc0.
      cbn [app].
      destruct (join_with_head (c0 :: d') (ds ++ leading_dots ups ++ names) c0 d'
                  eq_refl) as [rest ->].
      now exists c0, rest. }
  destruct Hhead as (c0 & rest & Hp & Hc0).
  apply (normalize_relative _ _ c0 rest Hp Hc0).
  - destruct start; [congruence | discriminate].
  - rewrite !forallb_app, Hstart_solid, Hdsolid. now apply solid_of_plain.
  - rewrite !forallb_app. apply andb_true_iff. split; [exact Hstart_slash|].
    apply andb_true_iff. split; [exact Hdslash | now apply plain_no_slash].
  - rewrite !fold_left_app, Hstart_fold.
    rewrite normalize_dots;
      [| now apply forallb_rev_segments | now rewrite length_rev].
    rewrite normalize_plain by exact Hnames.
    rewrite rev_app_distr, rev_involutive, skipn_rev, rev_involutive.
    reflexivity.
  - apply join_with_nonempty.
    + destruct (firstn _ dirs); [exact Hne | discriminate].
    + rewrite forallb_app. rewrite (solid_of_plain names Hnames), andb_true_r.
      apply forallb_forall. intros x Hx.
      pose proof (solid_of_plain dirs Hdirs) as H.
      rewrite forallb_forall in H. apply H.
      rewrite <- (firstn_skipn (List.length dirs - ups) dirs).
      apply in_or_app. now left.
Qed.

(** X27: a relative specifier is resolved against the directory of the
    importing file.  For a file [d1/.../dn/file] and a specifier [./names]
    or [../] (at most [n] times) followed by [names], all segments being
    plain names, both namers give the name they give the path
    [d1/.../d(n-k)/names] written out in full, where [k] counts the [..];
    neither the specifier nor that path ends in [.js], and the path does not
    start with a dot. *)
Theorem namer_relative_specifier (dirs names : list jsstring) (file : jsstring)
  (ups : nat) (context' : jsstring) :
  forallb plain_segment dirs = true -> plain_segment file = true ->
  forallb plain_segment names = true -> names <> [] ->
  ups <= List.length dirs ->
  let context := join_with path.sep (dirs ++ [file]) in
  let specifier := join_with path.sep (leading_dots ups ++ names) in
  let target :=
    join_with path.sep (firstn (List.length dirs - ups) dirs ++ names) in
  ends_with (lit ".js") specifier = false ->
  ends_with (lit ".js") target = false ->
  GoogModule.first_is_dot target = false ->
  TsickleHost.pathToGoogModuleName context specifier
  = TsickleHost.pathToGoogModuleName context' target
  /\ DecoratorDownlevelCompilerHost.pathToGoogModuleName context specifier
     = DecoratorDownlevelCompilerHost.pathToGoogModuleName context' target.
Proof.
  intros Hdirs Hfile Hnames Hne Hups context specifier target Hjs Hjs' Hdot.
  pose proof (join_relative dirs names file ups Hdirs Hfile Hnames Hne Hups)
    as Hjoin.
  fold context specifier target in Hjoin.
  assert (Hrel : GoogModule.first_is_dot specifier = true).
  { subst specifier.
    destruct (leading_dots_solid ups) as (_ & _ & _ & dot & Hhead).
    rewrite Hhead. cbn [app].
    destruct (join_with_head (ch "." :: dot) (tl (leading_dots ups) ++ names)
                (ch ".") dot eq_refl) as [rest ->].
    reflexivity. }
  rewrite !tsickle_unfold, !downlevel_unfold.
  rewrite (remove_suffix_absent _ _ Hjs), (remove_suffix_absent _ _ Hjs').
  unfold resolved_tsickle, resolved_downlevel.
  now rewrite Hrel, Hdot, Hjoin.
Qed.

Lemma namer_relative_specifier_witness :
  TsickleHost.pathToGoogModuleName
    (join_with path.sep ([lit "src"; lit "app"] ++ [lit "main.ts"]))
    (join_with path.sep (leading_dots 1 ++ [lit "util"; lit "lang"]))
  = TsickleHost.pathToGoogModuleName (lit "other.ts")
      (join_with path.sep
         (firstn (List.length [lit "src"; lit "app"] - 1) [lit "src"; lit "app"]
          ++ [lit "util"; lit "lang"]))
  /\ DecoratorDownlevelCompilerHost.pathToGoogModuleName
       (join_with path.sep ([lit "src"; lit "app"] ++ [lit "main.ts"]))
       (join_with path.sep (leading_dots 1 ++ [lit "util"; lit "lang"]))
     = DecoratorDownlevelCompilerHost.pathToGoogModuleName (lit "other.ts")
         (join_with path.sep
            (firstn (List.length [lit "src"; lit "app"] - 1) [lit "src"; lit "app"]
             ++ [lit "util"; lit "lang"])).
Proof.
  apply (namer_relative_specifier [lit "src"; lit "app"] [lit "util"; lit "lang"]
           (lit "main.ts") 1 (lit "other.ts"));
    try (vm_compute; reflexivity).
  - discriminate.
  - cbn. lia.
Defined.
